(** * Mosquito-surveillance statistics pipeline: the algorithmic core

    A shallow embedding of the decision logic of the analysis package
    (correlation engine, Bonferroni correction, lag/rolling scanner, PCA
    component selection, cluster-count selection, cluster/outcome tests and
    the cross-city comparator), with the properties the specification states
    about it.

    Numbers are modelled as the code has them: a Python/numpy [float] is an
    IEEE-754 binary64 value, i.e. Rocq's primitive [float]; a missing cell of
    a pandas frame is the float NaN.  Calls into scipy / scikit-learn
    (spearmanr, PCA, KMeans, the validation indices, kruskal, posthoc_dunn)
    are section variables: the development proves what the repository's own
    code does with their results. *)

From Stdlib Require Import ZArith Lia List Bool Floats DecimalString Sorted.
From stdpp Require Import base option list gmap sets strings.

Set Default Proof Using "Type".
(* Decimal literals denote the nearest binary64 value, as in Python. *)
Set Warnings "-inexact-float".
Local Open Scope list_scope.

(* ====================================================================== *)
(** * Binary64 comparisons                                                 *)
(* ====================================================================== *)

Module F64.

(** Python's [a < b], [a <= b], [a > b], [a >= b] on floats. *)
Definition lt (a b : float) : bool := PrimFloat.ltb a b.
Definition le (a b : float) : bool := PrimFloat.leb a b.
Definition gt (a b : float) : bool := PrimFloat.ltb b a.
Definition ge (a b : float) : bool := PrimFloat.leb b a.

(** [np.isnan], [np.abs], [np.nan], [-np.inf]. *)
Definition isnan (a : float) : bool := PrimFloat.is_nan a.
Definition fabs (a : float) : float := PrimFloat.abs a.
Definition nan : float := PrimFloat.nan.
Definition neg_inf : float := PrimFloat.neg_infinity.

(** [pandas.notna] on a float cell. *)
Definition notna (a : float) : bool := negb (isnan a).

(** Conversion of a Python [int] (a length) to float, as done by true
    division [float / int]; exact below 2^53. *)
Definition of_nat (n : nat) : float :=
  PrimFloat.of_uint63 (Uint63.of_Z (Z.of_nat n)).

End F64.

(* ====================================================================== *)
(** * Python exceptions as an error monad                                  *)
(* ====================================================================== *)

Inductive exn : Set :=
| ZeroDivisionError
| KeyError
| ValueError
| IndexError
| NameError.

Inductive result (A : Type) : Type :=
| Ok (a : A)
| Raise (e : exn).
Arguments Ok {A} a.
Arguments Raise {A} e.

#[export] Instance result_ret : MRet result := fun A a => Ok a.
#[export] Instance result_bind : MBind result :=
  fun A B f m => match m with Ok a => f a | Raise e => Raise e end.

(** A [for] loop over a list that threads the loop state and stops at the
    first exception. *)
Fixpoint for_ {A S : Type} (l : list A) (body : A -> S -> result S) (s : S)
  : result S :=
  match l with
  | [] => Ok s
  | x :: l' => s' ← body x s; for_ l' body s'
  end.

(* ====================================================================== *)
(** * config/analysis_config.py                                            *)
(* ====================================================================== *)

Module config.

Definition CITY_ORDER : list string :=
  ["taipei"; "kaohsiung"; "pingtung"; "tainan"]%string.

(** [CITIES[city_key]['name_en']]. *)
Definition CITIES_name_en (city_key : string) : result string :=
  if String.eqb city_key "taipei" then Ok "Taipei"%string
  else if String.eqb city_key "kaohsiung" then Ok "Kaohsiung"%string
  else if String.eqb city_key "pingtung" then Ok "Pingtung"%string
  else if String.eqb city_key "tainan" then Ok "Tainan"%string
  else Raise KeyError.

Definition IGNORE_COLUMNS : list string := ["date"; "townvill"; "縣市"]%string.
Definition TARGETS : list string := ["pos"; "egg"]%string.

(** [list(range(1, 13))] *)
Definition LAG_RANGE : list nat := seq 1 12.
Definition LAG_VARIABLES : list string :=
  ["H_temp"; "M_temp"; "L_temp"; "R"; "NDVImean"; "NDVImedian"; "NDVIsum"]%string.

Definition CORRELATION_METHOD : string := "spearman".
Definition BONFERRONI_ALPHA : float := 0.05%float.

Definition PCA_VARIANCE_TARGET : float := 0.90%float.
Definition PCA_SCREE_COMPONENTS : nat := 50.

Definition CLUSTERING_K_MIN : nat := 2.
Definition CLUSTERING_K_MAX : nat := 10.
(** [list(range(CLUSTERING_K_MIN, CLUSTERING_K_MAX + 1))] *)
Definition CLUSTERING_K_RANGE : list nat :=
  seq CLUSTERING_K_MIN (CLUSTERING_K_MAX + 1 - CLUSTERING_K_MIN).

Definition UNIVERSAL_PREDICTOR_RHO_THRESHOLD : float := 0.3%float.
Definition UNIVERSAL_PREDICTOR_P_THRESHOLD : float := 0.001%float.

(** [FEATURE_GROUPS['demographic']['variables']] *)
Definition FEATURE_GROUPS_demographic_variables : list string :=
  ["sex"; "home"; "density"; "feed"; "feedchild"; "feedelder"; "elderindex"]%string.

Definition TOTAL_FEATURES : nat := 175.
Definition N_TOP_CORRELATIONS : nat := 20.

(** [CITY_OUTPUT_STRUCTURE[analysis_type]] *)
Definition CITY_OUTPUT_STRUCTURE (analysis_type : string) : result string :=
  if String.eqb analysis_type "statistical" then Ok "statistical"%string
  else if String.eqb analysis_type "pca_clustering" then Ok "pca_clustering"%string
  else if String.eqb analysis_type "lag_rolling" then Ok "lag_rolling"%string
  else if String.eqb analysis_type "summary" then Ok "summary"%string
  else Raise KeyError.

End config.

(* ====================================================================== *)
(** * pandas values: Series, dicts and frames                              *)
(* ====================================================================== *)

(** A Python dict with string keys, in insertion order; a [pd.Series] built
    from such a dict has the keys as its index and the values in the same
    order. *)
Abbreviation dict V := (list (string * V)).
Abbreviation Series := (dict float).

Fixpoint dict_get {V} (d : dict V) (k : string) : option V :=
  match d with
  | [] => None
  | (k', v) :: d' => if String.eqb k' k then Some v else dict_get d' k
  end.

(** [d[k] = v]: overwrite in place when the key exists, append otherwise. *)
Fixpoint dict_set {V} (d : dict V) (k : string) (v : V) : dict V :=
  match d with
  | [] => [(k, v)]
  | (k', v') :: d' =>
      if String.eqb k' k then (k', v) :: d' else (k', v') :: dict_set d' k v
  end.

Definition keys {V} (d : dict V) : list string := map fst d.
Definition values {V} (d : dict V) : list V := map snd d.

(** [d[k]] as an expression. *)
Definition getitem {V} (d : dict V) (k : string) : result V :=
  match dict_get d k with
  | Some v => Ok v
  | None => Raise KeyError
  end.

(** [k in l] for a list of strings. *)
Definition str_in (k : string) (l : list string) : bool :=
  existsb (String.eqb k) l.

(** A numeric frame: named columns of float cells, NaN for a missing cell. *)
Abbreviation DataFrame := (dict (list float)).
Definition columns (df : DataFrame) : list string := keys df.

(* ====================================================================== *)
(** * core/base_analyzer.py: correlation and Bonferroni helpers            *)
(* ====================================================================== *)

(** [df[[a, b]].notna().all(axis=1)] *)
Definition valid_mask (xs ys : list float) : list bool :=
  zip_with (fun x y => F64.notna x && F64.notna y) xs ys.

(** [df.loc[mask, col]] *)
Fixpoint loc_mask (mask : list bool) (xs : list float) : list float :=
  match mask, xs with
  | b :: mask', x :: xs' => if b then x :: loc_mask mask' xs' else loc_mask mask' xs'
  | _, _ => []
  end.

(** Python's [a / n] for a float [a] and an int [n]. *)
Definition truediv (a : float) (n : nat) : result float :=
  match n with
  | O => Raise ZeroDivisionError
  | S _ => Ok (PrimFloat.div a (F64.of_nat n))
  end.

(** [bonferroni_correction(p_values, alpha)] *)
Definition bonferroni_correction (p_values : Series) (alpha : float)
  : result (float * list bool) :=
  let n_tests := length p_values in
  corrected_alpha ← truediv alpha n_tests;
  let significant := map (fun p => F64.lt p corrected_alpha) (values p_values) in
  Ok (corrected_alpha, significant).

Section CorrelationEngine.

(** [scipy.stats.spearmanr] and [scipy.stats.pearsonr]: coefficient and
    two-sided p-value of two equally long samples. *)
Variable spearmanr : list float -> list float -> float * float.
Variable pearsonr : list float -> list float -> float * float.

(** The body of the loop of [calculate_correlation] for one feature. *)
Definition correlate_feature (df : DataFrame) (feature target method : string)
  : result (float * float) :=
  fcol ← getitem df feature;
  tcol ← getitem df target;
  let mask := valid_mask fcol tcol in
  let x := loc_mask mask fcol in
  let y := loc_mask mask tcol in
  if (0 <? length x)%nat then
    if String.eqb method "spearman" then Ok (spearmanr x y)
    else if String.eqb method "pearson" then Ok (pearsonr x y)
    else Raise ValueError
  else Ok (F64.nan, F64.nan).

(** [calculate_correlation(df, features, target, method)] *)
Definition calculate_correlation
  (df : DataFrame) (features : list string) (target method : string)
  : result (Series * Series) :=
  for_ features
    (fun feature '(correlations, p_values) =>
       '(corr, pval) ← correlate_feature df feature target method;
       Ok (dict_set correlations feature corr, dict_set p_values feature pval))
    ([], []).

End CorrelationEngine.

(* ====================================================================== *)
(** * core/data_loader.py: column selection                                *)
(* ====================================================================== *)

(** [DataLoader.get_feature_columns(df, include_targets)] *)
Definition get_feature_columns (df : DataFrame) (include_targets : bool)
  : list string :=
  let exclude_cols :=
    config.IGNORE_COLUMNS
      ++ (if include_targets then [] else config.TARGETS)
      ++ ["city"; "city_zh"; "city_abbr"]%string in
  List.filter (fun col => negb (str_in col exclude_cols)) (columns df).

(* ====================================================================== *)
(** * analyzers/statistical_analyzer.py                                    *)
(* ====================================================================== *)

(** What [analyze] stores for one target (lines 99-103). *)
Record target_stats : Type := mk_target_stats {
  ts_correlations : Series;
  ts_p_values : Series;
  ts_significant : list bool;
  ts_n_significant : nat
}.

Section StatisticalAnalyzer.

Variable spearmanr : list float -> list float -> float * float.
Variable pearsonr : list float -> list float -> float * float.

(** The reporting tail of the loop body (top-N tables, grouping by feature
    type, heat map; lines 105-132), which reads the two series and may
    raise (e.g. [top_pos.iloc[0]] on an empty table). *)
Variable report : Type.
Variable report_tables : Series -> Series -> result report.

(** Lines 86-103 of [analyze]: correlations, correction, stored results. *)
Definition analyze_target (df : DataFrame) (features : list string)
  (target : string) : result (float * target_stats) :=
  '(correlations, p_values) ←
    calculate_correlation spearmanr pearsonr df features target
      config.CORRELATION_METHOD;
  '(corrected_alpha, significant) ←
    bonferroni_correction p_values config.BONFERRONI_ALPHA;
  let n_significant := length (List.filter (fun b : bool => b) significant) in
  Ok (corrected_alpha,
      mk_target_stats correlations p_values significant n_significant).

(** [StatisticalAnalyzer.analyze(df)]: the loop state is the results
    dict, the reports and the last [corrected_alpha] bound (if any). *)
Definition analyze (df : DataFrame)
  : result (dict target_stats * dict report * float) :=
  let features := get_feature_columns df false in
  '(results, reports, last_alpha) ←
    for_ config.TARGETS
      (fun target '(results, reports, last_alpha) =>
         if negb (str_in target (columns df)) then
           Ok (results, reports, last_alpha)
         else
           '(corrected_alpha, stats) ← analyze_target df features target;
           rep ← report_tables (ts_correlations stats) (ts_p_values stats);
           Ok (dict_set results target stats,
               dict_set reports target rep,
               Some corrected_alpha))
      ([], [], None);
  match last_alpha with
  | Some corrected_alpha => Ok (results, reports, corrected_alpha)
  | None => Raise NameError
  end.

End StatisticalAnalyzer.

Arguments analyze spearmanr pearsonr {report} report_tables df.

(* ====================================================================== *)
(** * numpy / pandas reductions used by the analyzers                      *)
(* ====================================================================== *)

(** [l[i]] on a Python list or a numpy array. *)
Definition index {A} (l : list A) (i : nat) : result A :=
  match l !! i with
  | Some a => Ok a
  | None => Raise IndexError
  end.

(** [np.cumsum] on a float array: running sums from the left. *)
Fixpoint cumsum_from (acc : float) (l : list float) : list float :=
  match l with
  | [] => []
  | x :: l' => let s := PrimFloat.add acc x in s :: cumsum_from s l'
  end.

Definition cumsum (l : list float) : list float :=
  match l with
  | [] => []
  | x :: l' => x :: cumsum_from x l'
  end.

(** [np.argmax] on a boolean array: the position of the first [True], and
    0 when there is none; an empty array raises. *)
Fixpoint first_true (l : list bool) : option nat :=
  match l with
  | [] => None
  | b :: l' => if b then Some O else option_map S (first_true l')
  end.

Definition np_argmax_bool (l : list bool) : result nat :=
  match l with
  | [] => Raise ValueError
  | _ :: _ => Ok (default O (first_true l))
  end.

(** [np.argmax] on a float array: the scan keeps the running maximum [mp]
    and moves to position [i] when [not (a[i] <= mp)]; a NaN ends it. *)
Fixpoint argmax_scan (mp : float) (max_ind i : nat) (l : list float) : nat :=
  match l with
  | [] => max_ind
  | x :: l' =>
      if negb (F64.le x mp) then
        if F64.isnan x then i else argmax_scan x i (S i) l'
      else argmax_scan mp max_ind (S i) l'
  end.

Definition np_argmax (l : list float) : result nat :=
  match l with
  | [] => Raise ValueError
  | x :: l' => Ok (if F64.isnan x then O else argmax_scan x O 1 l')
  end.

(** [np.nanargmax], and [Series.idxmax] on a default integer index: NaN
    entries are replaced by -inf before [np.argmax]; an all-NaN (or empty)
    input has no answer and raises (with older pandas [idxmax] returns NaN
    instead and the [.loc] lookup that follows raises). *)
Definition np_nanargmax (l : list float) : result nat :=
  if forallb F64.isnan l then Raise ValueError
  else np_argmax (map (fun x => if F64.isnan x then F64.neg_inf else x) l).

Definition idxmax (s : list float) : result nat := np_nanargmax s.

(** Position [i] holds the first maximum of [l]: nothing in [l] exceeds
    [l[i]] and everything before it is strictly smaller. *)
Definition first_max_at (l : list float) (i : nat) : Prop :=
  exists m, l !! i = Some m
    /\ (forall j x, l !! j = Some x -> F64.le x m = true)
    /\ (forall j x, j < i -> l !! j = Some x -> F64.lt x m = true).

(* ====================================================================== *)
(** * analyzers/pca_clustering_analyzer.py                                 *)
(* ====================================================================== *)

(** A fitted [sklearn.decomposition.PCA]: the explained-variance ratios of
    its components and the training matrix projected on them. *)
Record fitted_pca (matrix : Type) : Type := mk_fitted_pca {
  explained_variance_ratio_ : list float;
  transformed : matrix
}.
Arguments explained_variance_ratio_ {matrix} _.
Arguments transformed {matrix} _.

Record pca_results (matrix : Type) : Type := mk_pca_results {
  n_components : nat;
  explained_variance_ratio : list float;
  cumulative_variance : list float;
  total_variance_explained : float;
  X_pca : matrix;
  all_explained_variance : list float
}.
Arguments n_components {matrix} _.
Arguments explained_variance_ratio {matrix} _.
Arguments cumulative_variance {matrix} _.
Arguments total_variance_explained {matrix} _.
Arguments X_pca {matrix} _.
Arguments all_explained_variance {matrix} _.

Section DimensionalityReducer.

Variable matrix : Type.

(** [PCA(n_components=..., random_state=RANDOM_SEED).fit(X)], with
    [n_components=None] for the full decomposition. *)
Variable PCA_fit : option nat -> matrix -> result (fitted_pca matrix).

(** [_perform_pca], with the variance target it reads from the
    configuration made explicit. *)
Definition perform_pca_at (variance_target : float) (X_scaled : matrix)
  : result (pca_results matrix) :=
  pca_full ← PCA_fit None X_scaled;
  let cumvar := cumsum (explained_variance_ratio_ pca_full) in
  idx ← np_argmax_bool (map (fun c => F64.ge c variance_target) cumvar);
  let n_components_target := (idx + 1)%nat in
  total ← index cumvar (n_components_target - 1);
  pca ← PCA_fit (Some n_components_target) X_scaled;
  Ok (mk_pca_results matrix
        n_components_target
        (explained_variance_ratio_ pca)
        (cumsum (explained_variance_ratio_ pca))
        total
        (transformed pca)
        (firstn config.PCA_SCREE_COMPONENTS (explained_variance_ratio_ pca_full))).

(** [_perform_pca(X_scaled)] *)
Definition _perform_pca (X_scaled : matrix) : result (pca_results matrix) :=
  perform_pca_at config.PCA_VARIANCE_TARGET X_scaled.

End DimensionalityReducer.

Arguments perform_pca_at {matrix}.
Arguments _perform_pca {matrix}.

(** The specification's reading of "cumulative explained-variance ratio of
    the first C components": the ratios of the first [C] components of the
    full decomposition, added from the left; undefined unless
    [1 <= C <= number of components]. *)
Definition cumulative_ratio (ratios : list float) (C : nat) : option float :=
  match firstn C ratios with
  | [] => None
  | x :: rest =>
      if (length (x :: rest) =? C)%nat then Some (fold_left PrimFloat.add rest x)
      else None
  end.

(** One entry of [metrics_results]. *)
Record metrics_row (labels : Type) : Type := mk_metrics_row {
  mr_k : nat;
  mr_silhouette : float;
  mr_calinski_harabasz : float;
  mr_davies_bouldin : float;
  mr_labels : labels;
  mr_inertia : float
}.
Arguments mr_k {labels} _.
Arguments mr_silhouette {labels} _.
Arguments mr_calinski_harabasz {labels} _.
Arguments mr_davies_bouldin {labels} _.
Arguments mr_labels {labels} _.
Arguments mr_inertia {labels} _.

Record clustering_results (labels : Type) : Type := mk_clustering_results {
  clustering_metrics : list (nat * float * float * float * float);
  optimal_k : nat;
  optimal_labels : labels;
  optimal_silhouette : float;
  optimal_calinski : float;
  optimal_davies : float
}.
Arguments clustering_metrics {labels} _.
Arguments optimal_k {labels} _.
Arguments optimal_labels {labels} _.
Arguments optimal_silhouette {labels} _.
Arguments optimal_calinski {labels} _.
Arguments optimal_davies {labels} _.

Section ClusterSelector.

Variable matrix : Type.
Variable labels : Type.

(** [KMeans(n_clusters=k, n_init=KMEANS_N_INIT, max_iter=KMEANS_MAX_ITER,
    random_state=RANDOM_SEED)]: [fit_predict(X)] and the fitted
    [inertia_]. *)
Variable KMeans_fit_predict : nat -> matrix -> result (labels * float).

(** The three [sklearn.metrics] validation indices. *)
Variable silhouette_score : matrix -> labels -> result float.
Variable calinski_harabasz_score : matrix -> labels -> result float.
Variable davies_bouldin_score : matrix -> labels -> result float.

(** The body of the loop over [config.CLUSTERING_K_RANGE]. *)
Definition cluster_metrics (X_pca : matrix) (k : nat)
  : result (metrics_row labels) :=
  '(labels_k, inertia) ← KMeans_fit_predict k X_pca;
  silhouette ← silhouette_score X_pca labels_k;
  calinski ← calinski_harabasz_score X_pca labels_k;
  davies ← davies_bouldin_score X_pca labels_k;
  Ok (mk_metrics_row labels k silhouette calinski davies labels_k inertia).

(** [metrics_df.drop('labels', axis=1)] *)
Definition drop_labels (r : metrics_row labels)
  : nat * float * float * float * float :=
  (mr_k r, mr_silhouette r, mr_calinski_harabasz r, mr_davies_bouldin r,
   mr_inertia r).

(** [_optimize_clustering(X_pca)] *)
Definition _optimize_clustering (X_pca : matrix)
  : result (clustering_results labels) :=
  metrics_results ←
    for_ config.CLUSTERING_K_RANGE
      (fun k metrics_results =>
         row ← cluster_metrics X_pca k;
         Ok (metrics_results ++ [row]))
      [];
  optimal_idx ← idxmax (map mr_silhouette metrics_results);
  optimal ← index metrics_results optimal_idx;
  Ok (mk_clustering_results labels
        (map drop_labels metrics_results)
        (mr_k optimal)
        (mr_labels optimal)
        (mr_silhouette optimal)
        (mr_calinski_harabasz optimal)
        (mr_davies_bouldin optimal)).

End ClusterSelector.

Arguments drop_labels {labels} r.
Arguments cluster_metrics {matrix labels}.
Arguments _optimize_clustering {matrix labels}.

(** ** Cluster/outcome tests *)

(** A clustered frame: the cleaned frame and its ['cluster'] column. *)
Record clustered_frame : Type := mk_clustered_frame {
  cf_frame : DataFrame;
  cf_cluster : list nat
}.

(** What the results dict of [_test_cluster_outcome_relationships] holds: a
    float, a pairwise p-value frame, or [None]. *)
Inductive test_value (pmatrix : Type) : Type :=
| VFloat (f : float)
| VFrame (m : pmatrix)
| VNone.
Arguments VFloat {pmatrix} f.
Arguments VFrame {pmatrix} m.
Arguments VNone {pmatrix}.

(** [df_clustered[df_clustered['cluster'] == i][target].dropna()] *)
Definition group_values (cluster : list nat) (col : list float) (i : nat)
  : list float :=
  map snd
    (List.filter (fun cv => (fst cv =? i)%nat && F64.notna (snd cv))
       (zip cluster col)).

(** [df_clustered[['cluster', target]].dropna()] *)
Definition dunn_rows (cluster : list nat) (col : list float)
  : list (nat * float) :=
  List.filter (fun cv => F64.notna (snd cv)) (zip cluster col).

Section GroupSignificanceTester.

Variable pmatrix : Type.

(** [scipy.stats.kruskal] applied to the groups: statistic and p-value. *)
Variable kruskal : list (list float) -> result (float * float).

(** [scikit_posthocs.posthoc_dunn(df_test, val_col=target,
    group_col='cluster', p_adjust='bonferroni')] *)
Variable posthoc_dunn : list (nat * float) -> result pmatrix.

(** The body of the [for target in config.TARGETS] loop. *)
Definition test_target (df_clustered : clustered_frame) (optimal_k : nat)
  (target : string) (results : dict (test_value pmatrix))
  : result (dict (test_value pmatrix)) :=
  if negb (str_in target (columns (cf_frame df_clustered))) then Ok results
  else
    tcol ← getitem (cf_frame df_clustered) target;
    let groups :=
      map (group_values (cf_cluster df_clustered) tcol) (seq 0 optimal_k) in
    '(h_stat, p_value) ← kruskal groups;
    let results := dict_set results (target ++ "_kruskal_h") (VFloat h_stat) in
    let results := dict_set results (target ++ "_kruskal_p") (VFloat p_value) in
    if F64.lt p_value 0.05%float then
      let df_test := dunn_rows (cf_cluster df_clustered) tcol in
      dunn_result ← posthoc_dunn df_test;
      Ok (dict_set results (target ++ "_dunn_pvalues") (VFrame dunn_result))
    else
      Ok (dict_set results (target ++ "_dunn_pvalues") VNone).

(** [_test_cluster_outcome_relationships(df_clustered, optimal_k)] *)
Definition _test_cluster_outcome_relationships
  (df_clustered : clustered_frame) (optimal_k : nat)
  : result (dict (test_value pmatrix)) :=
  for_ config.TARGETS (test_target df_clustered optimal_k) [].

End GroupSignificanceTester.

Arguments test_target {pmatrix}.
Arguments _test_cluster_outcome_relationships {pmatrix}.

(* ====================================================================== *)
(** * analyzers/comparison_analyzer.py                                     *)
(* ====================================================================== *)

(** [(np.abs(corr) > RHO_THRESHOLD) & (pval < P_THRESHOLD)] at one label. *)
Definition significant_and_strong (corr pval : float) : bool :=
  F64.gt (F64.fabs corr) config.UNIVERSAL_PREDICTOR_RHO_THRESHOLD
  && F64.lt pval config.UNIVERSAL_PREDICTOR_P_THRESHOLD.

(** [corr[significant].index], for two series over the same index (as
    [calculate_correlation] builds them): the labels at which the mask is
    true, in order. *)
Definition significant_index (corr pval : Series) : list string :=
  map (fun cp => fst (fst cp))
    (List.filter (fun cp => significant_and_strong (snd (fst cp)) (snd (snd cp)))
       (zip corr pval)).

(** [[city for city, features in city_significant.items()
      if feature in features]] *)
Definition cities_with (city_significant : dict (gset string)) (feature : string)
  : list string :=
  map fst
    (List.filter (fun cf => bool_decide (feature ∈ snd cf)) city_significant).

(** The loop that fills [city_specific]: a feature of the union is kept
    when it is in one or two of the per-city sets. *)
Definition city_specific_of (city_significant : dict (gset string))
  : gmap string (list string) :=
  let all_features : gset string := ⋃ (values city_significant) in
  set_fold
    (fun feature city_specific =>
       let cities_with_feature := cities_with city_significant feature in
       if (1 <=? length cities_with_feature)%nat
          && (length cities_with_feature <=? 2)%nat
       then <[feature := cities_with_feature]> city_specific
       else city_specific)
    (∅ : gmap string (list string)) all_features.

(** [set.intersection] of a non-empty argument list of sets. *)
Definition set_intersection (first : gset string) (others : list (gset string))
  : gset string :=
  fold_left (fun acc s => acc ∩ s) others first.

(** The body of the inner [for city_key in self.city_order] loop.
    [city_results] maps a city key to its analyses, an analysis name to its
    results, and a results key to a series. *)
Definition collect_city (city_results : dict (dict (dict Series)))
  (target city_key : string) (city_significant : dict (gset string))
  : result (dict (gset string)) :=
  match dict_get city_results city_key with
  | None => Ok city_significant
  | Some analyses =>
      city_name ← config.CITIES_name_en city_key;
      match dict_get analyses "statistical" with
      | None => Ok city_significant
      | Some stat_res =>
          match dict_get stat_res (target ++ "_correlations") with
          | None => Ok city_significant
          | Some corr =>
              pval ← getitem stat_res (target ++ "_p_values");
              Ok (dict_set city_significant city_name
                    (list_to_set (significant_index corr pval)))
          end
      end
  end.

(** The body of the [for target in config.TARGETS] loop; the loop state is
    the pair of dicts [universal_predictors], [city_specific_predictors].
    The universal predictors are a Python list made from a set, so in no
    particular order: kept as the set. *)
Definition identify_target (city_results : dict (dict (dict Series)))
  (target : string)
  (state : dict (gset string) * dict (gmap string (list string)))
  : result (dict (gset string) * dict (gmap string (list string))) :=
  let '(universal_predictors, city_specific_predictors) := state in
  city_significant ←
    for_ config.CITY_ORDER (collect_city city_results target) [];
  match values city_significant with
  | [] => Ok (universal_predictors, city_specific_predictors)
  | first :: others =>
      let universal := set_intersection first others in
      Ok (dict_set universal_predictors target universal,
          dict_set city_specific_predictors target
            (city_specific_of city_significant))
  end.

(** [ComparisonAnalyzer._identify_predictors(city_results)] *)
Definition _identify_predictors (city_results : dict (dict (dict Series)))
  : result (dict (gset string) * dict (gmap string (list string))) :=
  for_ config.TARGETS (identify_target city_results) ([], []).

(** What a city key contributes to the comparison for [target]: its name
    and its two series, when the city has statistical results with the
    target's correlations (and p-values). *)
Definition city_supply (city_results : dict (dict (dict Series)))
  (target city_key : string) : list (string * (Series * Series)) :=
  match dict_get city_results city_key with
  | None => []
  | Some analyses =>
      match config.CITIES_name_en city_key, dict_get analyses "statistical" with
      | Ok city_name, Some stat_res =>
          match dict_get stat_res (target ++ "_correlations"),
                dict_get stat_res (target ++ "_p_values") with
          | Some corr, Some pval => [(city_name, (corr, pval))]
          | _, _ => []
          end
      | _, _ => []
      end
  end.

(** The cities that supplied results for [target], in processing order. *)
Definition supplied (city_results : dict (dict (dict Series))) (target : string)
  : list (string * (Series * Series)) :=
  flat_map (city_supply city_results target) config.CITY_ORDER.

(** A feature is significant-and-strong in a city: at some position of the
    city's series both thresholds are cleared. *)
Definition strong_in (feature : string) (series : Series * Series) : Prop :=
  exists i c p,
    fst series !! i = Some (feature, c) /\ snd series !! i = Some (feature, p)
    /\ F64.gt (F64.fabs c) 0.3%float = true /\ F64.lt p 0.001%float = true.

(** [holders_of feature cities names]: [names] lists, in order, the cities
    of [cities] in which the feature is significant-and-strong. *)
Inductive holders_of (feature : string)
  : list (string * (Series * Series)) -> list string -> Prop :=
| holders_nil : holders_of feature [] []
| holders_in city cities names :
    strong_in feature (snd city) ->
    holders_of feature cities names ->
    holders_of feature (city :: cities) (fst city :: names)
| holders_out city cities names :
    ~ strong_in feature (snd city) ->
    holders_of feature cities names ->
    holders_of feature (city :: cities) names.

(** The per-city set the comparator builds from a supplying city. *)
Definition city_set (city : string * (Series * Series)) : string * gset string :=
  (fst city, list_to_set (significant_index (fst (snd city)) (snd (snd city)))).

(** The names of the configured cities among [city_keys]. *)
Definition city_names (city_keys : list string) : list string :=
  flat_map
    (fun city_key =>
       match config.CITIES_name_en city_key with
       | Ok city_name => [city_name]
       | Raise _ => []
       end)
    city_keys.

(* ====================================================================== *)
(** * core/data_loader.py: lag columns                                     *)
(* ====================================================================== *)

(** [f'{week}'] *)
Definition str_of_nat (n : nat) : string :=
  NilEmpty.string_of_uint (Nat.to_uint n).

(** [needle in haystack] on strings: substring test. *)
Fixpoint str_contains (needle haystack : string) : bool :=
  String.prefix needle haystack
  || match haystack with
     | EmptyString => false
     | String _ rest => str_contains needle rest
     end.

(** What one iteration of the [for week in config.LAG_RANGE] loop of
    [get_lag_features] appends: the first column pattern of that week
    present in the frame, if any. *)
Definition lag_column (df : DataFrame) (variable lag_type : string) (week : nat)
  : list string :=
  let w := str_of_nat week in
  if String.eqb lag_type "simple" then
    let col_pattern1 := (variable ++ "_lag_" ++ w)%string in
    let col_pattern2 := (variable ++ "_lag" ++ w)%string in
    if str_in col_pattern1 (columns df) then [col_pattern1]
    else if str_in col_pattern2 (columns df) then [col_pattern2]
    else []
  else if String.eqb lag_type "rolling" then
    let col_pattern1 := (variable ++ "_lag_rolling" ++ w)%string in
    let col_pattern2 := (variable ++ "_lag_rollingmean" ++ w)%string in
    let col_pattern3 := (variable ++ "_lag_rollingmedian" ++ w)%string in
    let col_pattern4 := (variable ++ "_lag_rollingsum" ++ w)%string in
    if str_in col_pattern1 (columns df) then [col_pattern1]
    else if str_in col_pattern2 (columns df) then [col_pattern2]
    else if str_in col_pattern3 (columns df) then [col_pattern3]
    else if str_in col_pattern4 (columns df) then [col_pattern4]
    else []
  else [].

(** [DataLoader.get_lag_features(df, variable, lag_type)] *)
Definition get_lag_features (df : DataFrame) (variable lag_type : string)
  : list string :=
  flat_map (lag_column df variable lag_type) config.LAG_RANGE.

(* ====================================================================== *)
(** * analyzers/lag_rolling_analyzer.py                                    *)
(* ====================================================================== *)

(** A row of the lag-correlation table: the variable and the cells
    [lag_1], [lag_1_p], ..., [lag_12], [lag_12_p]. *)
Record lag_row : Type := mk_lag_row {
  lr_variable : string;
  lr_cells : dict float
}.

(** [optimal_week]: an [int] of [config.LAG_RANGE], or the float NaN. *)
Inductive week_value : Type :=
| WeekInt (week : nat)
| WeekFloat (f : float).

Record optimal_lag : Type := mk_optimal_lag {
  ol_variable : string;
  optimal_lag_simple_weeks : week_value;
  optimal_lag_simple_correlation : float;
  optimal_lag_rolling_weeks : week_value;
  optimal_lag_rolling_correlation : float
}.

(** [f'lag_{week}'] and [f'lag_{week}_p'] *)
Definition lag_col (week : nat) : string := ("lag_" ++ str_of_nat week)%string.
Definition lag_p_col (week : nat) : string :=
  ("lag_" ++ str_of_nat week ++ "_p")%string.

(** [matching_features = [f for f in lag_features if f'{week}' in f]] *)
Definition matching_features (lag_features : list string) (week : nat)
  : list string :=
  List.filter (fun f => str_contains (str_of_nat week) f) lag_features.

(** [valid_mask.sum()] *)
Definition mask_sum (mask : list bool) : nat :=
  length (List.filter (fun b : bool => b) mask).

Section LagRollingAnalyzer.

Variable spearmanr : list float -> list float -> float * float.

(** The coefficient and p-value stored for one week, given the feature the
    week was matched to (the body of [if matching_features:]). *)
Definition feature_correlation (df : DataFrame) (feature target : string)
  : result (float * float) :=
  fcol ← getitem df feature;
  tcol ← getitem df target;
  let mask := valid_mask fcol tcol in
  if (0 <? mask_sum mask)%nat then
    Ok (spearmanr (loc_mask mask fcol) (loc_mask mask tcol))
  else Ok (F64.nan, F64.nan).

(** The body of the [for week in config.LAG_RANGE] loop. *)
Definition lag_cell (df : DataFrame) (target : string)
  (lag_features : list string) (week : nat) : result (float * float) :=
  match matching_features lag_features week with
  | feature :: _ => feature_correlation df feature target
  | [] => Ok (F64.nan, F64.nan)
  end.

(** The body of the [for variable in config.LAG_VARIABLES] loop: no row
    for a variable without lag columns ([continue]), else the row dict. *)
Definition lag_table_row (df : DataFrame) (target lag_type variable : string)
  : result (option lag_row) :=
  let lag_features := get_lag_features df variable lag_type in
  if (length lag_features =? 0)%nat then Ok None
  else
    row ← for_ config.LAG_RANGE
            (fun week row =>
               '(corr, pval) ← lag_cell df target lag_features week;
               Ok (dict_set (dict_set row (lag_col week) corr)
                     (lag_p_col week) pval))
            [];
    Ok (Some (mk_lag_row variable row)).

(** [_analyze_lag_features(df, target, lag_type)] *)
Definition _analyze_lag_features (df : DataFrame) (target lag_type : string)
  : result (list lag_row) :=
  for_ config.LAG_VARIABLES
    (fun variable correlation_matrix =>
       row ← lag_table_row df target lag_type variable;
       Ok (correlation_matrix ++ option_list row))
    [].

End LagRollingAnalyzer.

(** [lag_cols = [f'lag_{week}' for week in config.LAG_RANGE]] *)
Definition lag_cols : list string := map lag_col config.LAG_RANGE.

(** [row[lag_cols]] as a float array. *)
Fixpoint row_values (cells : dict float) (cols : list string)
  : result (list float) :=
  match cols with
  | [] => Ok []
  | c :: cols' =>
      v ← getitem cells c;
      vs ← row_values cells cols';
      Ok (v :: vs)
  end.

(** The block that [_find_optimal_lags] runs once on the simple-lag
    correlations and once on the rolling ones: the week with the highest
    absolute correlation and its signed correlation, or NaN for both. *)
Definition optimal_of (lag_corrs : list float) : result (week_value * float) :=
  let abs_corrs := map F64.fabs lag_corrs in
  if negb (forallb F64.isnan abs_corrs) then
    optimal_idx ← np_nanargmax abs_corrs;
    optimal_week ← index config.LAG_RANGE optimal_idx;
    optimal_corr ← index lag_corrs optimal_idx;
    Ok (WeekInt optimal_week, optimal_corr)
  else Ok (WeekFloat F64.nan, F64.nan).

(** [lag_rolling_df[lag_rolling_df['variable'] == variable]]; a frame built
    from no rows has no ['variable'] column. *)
Definition rows_of_variable (lag_df : list lag_row) (variable : string)
  : result (list lag_row) :=
  match lag_df with
  | [] => Raise KeyError
  | _ :: _ => Ok (List.filter (fun r => String.eqb (lr_variable r) variable) lag_df)
  end.

(** The body of the [for _, row in lag_simple_df.iterrows()] loop: the
    entry appended to [optimal_lags]. *)
Definition optimal_lag_of_row (lag_rolling_df : list lag_row) (row : lag_row)
  : result optimal_lag :=
  let variable := lr_variable row in
  lag_corrs ← row_values (lr_cells row) lag_cols;
  '(optimal_week, optimal_corr) ← optimal_of lag_corrs;
  rolling_row ← rows_of_variable lag_rolling_df variable;
  '(optimal_rolling_week, optimal_rolling_corr) ←
    match rolling_row with
    | first_row :: _ =>
        rolling_corrs ← row_values (lr_cells first_row) lag_cols;
        optimal_of rolling_corrs
    | [] => Ok (WeekFloat F64.nan, F64.nan)
    end;
  Ok (mk_optimal_lag variable optimal_week optimal_corr
        optimal_rolling_week optimal_rolling_corr).

(** [_find_optimal_lags(lag_simple_df, lag_rolling_df)] *)
Definition _find_optimal_lags (lag_simple_df lag_rolling_df : list lag_row)
  : result (list optimal_lag) :=
  for_ lag_simple_df
    (fun row optimal_lags =>
       entry ← optimal_lag_of_row lag_rolling_df row;
       Ok (optimal_lags ++ [entry]))
    [].

(** The names the loader recognises as the lag column of [variable] at
    offset [week], in the order it tries them. *)
Definition lag_patterns (variable lag_type : string) (week : nat) : list string :=
  let w := str_of_nat week in
  if String.eqb lag_type "simple" then
    [variable ++ "_lag_" ++ w; variable ++ "_lag" ++ w]%string
  else if String.eqb lag_type "rolling" then
    [variable ++ "_lag_rolling" ++ w; variable ++ "_lag_rollingmean" ++ w;
     variable ++ "_lag_rollingmedian" ++ w; variable ++ "_lag_rollingsum" ++ w]%string
  else [].

(** What the specification asks of a reported optimum for the scanned
    correlations [corrs] (one per offset of [config.LAG_RANGE]). *)
Definition optimal_spec (corrs : list float) (week : week_value) (corr : float)
  : Prop :=
  if forallb F64.isnan corrs then
    week = WeekFloat F64.nan /\ corr = F64.nan
  else
    exists idx w,
      week = WeekInt w
      /\ config.LAG_RANGE !! idx = Some w
      /\ corrs !! idx = Some corr
      /\ F64.isnan corr = false
      /\ forall j c, corrs !! j = Some c -> F64.isnan c = false ->
                     F64.le (F64.fabs c) (F64.fabs corr) = true.

(** What an entry of the optimal-lag table says about the row of the
    simple-lag table it was made from: in each family the reported pair is
    an optimum of the scanned correlations, and the reported correlation is
    the table's cell of the reported week. *)
Definition optimal_lag_meets_spec (lag_rolling_df : list lag_row)
  (row : lag_row) (o : optimal_lag) : Prop :=
  ol_variable o = lr_variable row
  /\ (exists corrs,
        row_values (lr_cells row) lag_cols = Ok corrs
        /\ optimal_spec corrs (optimal_lag_simple_weeks o)
             (optimal_lag_simple_correlation o))
  /\ (forall w,
        optimal_lag_simple_weeks o = WeekInt w ->
        dict_get (lr_cells row) (lag_col w)
        = Some (optimal_lag_simple_correlation o))
  /\ match List.find (fun r => String.eqb (lr_variable r) (lr_variable row))
             lag_rolling_df with
     | Some rolling =>
         (exists rolling_corrs,
            row_values (lr_cells rolling) lag_cols = Ok rolling_corrs
            /\ optimal_spec rolling_corrs (optimal_lag_rolling_weeks o)
                 (optimal_lag_rolling_correlation o))
         /\ (forall w,
               optimal_lag_rolling_weeks o = WeekInt w ->
               dict_get (lr_cells rolling) (lag_col w)
               = Some (optimal_lag_rolling_correlation o))
     | None =>
         optimal_lag_rolling_weeks o = WeekFloat F64.nan
         /\ optimal_lag_rolling_correlation o = F64.nan
     end.

(** A decision procedure for the naming fact behind the week matching: for
    every tracked variable, family and week [w], the decimal of [w] occurs
    in every name recognised for offset [w] and in no name recognised for a
    smaller offset. *)
Definition lag_names_unambiguous : bool :=
  forallb
    (fun variable =>
       forallb
         (fun lag_type =>
            forallb
              (fun w =>
                 forallb (str_contains (str_of_nat w))
                   (lag_patterns variable lag_type w)
                 && forallb
                      (fun w' =>
                         forallb (fun c => negb (str_contains (str_of_nat w) c))
                           (lag_patterns variable lag_type w'))
                      (seq 1 (w - 1)))
              config.LAG_RANGE)
         ["simple"; "rolling"]%string)
    config.LAG_VARIABLES.


(* ====================================================================== *)
(** * core/data_loader.py: preprocessing, grouping and validation          *)
(* ====================================================================== *)

(** A frame of [n] rows: every column holds [n] cells ([len(df) = n]). *)
Definition frame_rows (df : DataFrame) (n : nat) : Prop :=
  Forall (fun kv => length (snd kv) = n) df.

(** [df.drop(columns=cols)] *)
Definition drop_columns (df : DataFrame) (cols : list string) : DataFrame :=
  List.filter (fun kv => negb (str_in (fst kv) cols)) df.

(** [[df[c] for c in cols]]; a label the frame does not have raises. *)
Fixpoint getitems (df : DataFrame) (cols : list string)
  : result (list (list float)) :=
  match cols with
  | [] => Ok []
  | c :: cols' =>
      col ← getitem df c;
      rest ← getitems df cols';
      Ok (col :: rest)
  end.

(** [df[cols].notna().all(axis=1)] for the columns [first :: others]. *)
Fixpoint notna_all (first : list float) (others : list (list float))
  : list bool :=
  match others with
  | [] => map F64.notna first
  | c :: others' => zip_with andb (map F64.notna first) (notna_all c others')
  end.

(** [df.loc[mask]]: the rows at which the mask is true, in every column. *)
Definition loc_rows (mask : list bool) (df : DataFrame) : DataFrame :=
  map (fun kv => (fst kv, loc_mask mask (snd kv))) df.

(** [df.dropna(subset=subset)] *)
Definition dropna_subset (df : DataFrame) (subset : list string)
  : result DataFrame :=
  cols ← getitems df subset;
  match cols with
  | [] => Ok df
  | c :: cs => Ok (loc_rows (notna_all c cs) df)
  end.

(** [DataLoader.preprocess_data(df, city_key)]; [city_key] is only used
    for the log line, but an unknown (non-empty) key raises there. *)
Definition preprocess_data (df : DataFrame) (city_key : option string)
  : result DataFrame :=
  city_name ←
    match city_key with
    | Some (String c k) => config.CITIES_name_en (String c k)
    | Some EmptyString | None => Ok "data"%string
    end;
  let cols_to_drop :=
    List.filter (fun col => str_in col (columns df)) config.IGNORE_COLUMNS in
  let df_processed :=
    match cols_to_drop with
    | [] => df
    | _ :: _ => drop_columns df cols_to_drop
    end in
  if existsb (fun target => str_in target (columns df_processed)) config.TARGETS
  then
    dropna_subset df_processed
      (List.filter (fun t => str_in t (columns df_processed)) config.TARGETS)
  else Ok df_processed.

(** The dict [groups] of [get_feature_groups], one field per key. *)
Record feature_groups : Type := mk_feature_groups {
  temperature : list string;
  rainfall : list string;
  ndvi : list string;
  demographic : list string
}.

(** [s.startswith(prefix)] *)
Definition startswith (s prefix : string) : bool := String.prefix prefix s.

(** The four tests of the [if]/[elif] chain of [get_feature_groups]. *)
Definition is_temperature (col : string) : bool :=
  existsb (startswith col) ["H_temp"; "M_temp"; "L_temp"]%string.
Definition is_rainfall (col : string) : bool := startswith col "R_".
Definition is_ndvi (col : string) : bool :=
  existsb (startswith col) ["NDVImean"; "NDVImedian"; "NDVIsum"]%string.
Definition is_demographic (col : string) : bool :=
  str_in col config.FEATURE_GROUPS_demographic_variables.

(** The body of the [for col in feature_cols] loop of
    [get_feature_groups]. *)
Definition group_feature (groups : feature_groups) (col : string)
  : feature_groups :=
  if is_temperature col then
    mk_feature_groups (temperature groups ++ [col]) (rainfall groups)
      (ndvi groups) (demographic groups)
  else if is_rainfall col then
    mk_feature_groups (temperature groups) (rainfall groups ++ [col])
      (ndvi groups) (demographic groups)
  else if is_ndvi col then
    mk_feature_groups (temperature groups) (rainfall groups)
      (ndvi groups ++ [col]) (demographic groups)
  else if is_demographic col then
    mk_feature_groups (temperature groups) (rainfall groups)
      (ndvi groups) (demographic groups ++ [col])
  else groups.

(** [DataLoader.get_feature_groups(df)] *)
Definition get_feature_groups (df : DataFrame) : feature_groups :=
  fold_left group_feature (get_feature_columns df false)
    (mk_feature_groups [] [] [] []).

(** The group in which the lag columns of a tracked variable belong, and
    the test that files a column there. *)
Definition group_of_variable (groups : feature_groups) (variable : string)
  : list string :=
  if str_in variable ["H_temp"; "M_temp"; "L_temp"]%string then temperature groups
  else if String.eqb variable "R" then rainfall groups
  else ndvi groups.

Definition group_test_of_variable (variable : string) : string -> bool :=
  if str_in variable ["H_temp"; "M_temp"; "L_temp"]%string then is_temperature
  else if String.eqb variable "R" then is_rainfall
  else is_ndvi.

(** A decision procedure for a naming fact: every name the loader
    recognises as a lag column of a tracked variable is a candidate feature
    name (not an excluded column) and passes the test of the variable's
    group. *)
Definition lag_patterns_are_grouped_features : bool :=
  forallb
    (fun variable =>
       forallb
         (fun lag_type =>
            forallb
              (fun w =>
                 forallb
                   (fun c =>
                      negb (str_in c
                              (config.IGNORE_COLUMNS ++ config.TARGETS
                               ++ ["city"; "city_zh"; "city_abbr"]%string))
                      && group_test_of_variable variable c)
                   (lag_patterns variable lag_type w))
              config.LAG_RANGE)
         ["simple"; "rolling"]%string)
    config.LAG_VARIABLES.

(** What [validate_data_structure] prints besides its success line. *)
Inductive warning : Set :=
| UnexpectedFeatureCount (expected found : nat)
| MissingFeatureValues (n_missing : nat).

(** [col.isnull().sum()] *)
Definition isnull_sum (col : list float) : nat :=
  length (List.filter F64.isnan col).

(** [DataLoader.validate_data_structure(df, expected_n_features)]: the
    warnings printed, or the exception. *)
Definition validate_data_structure (df : DataFrame)
  (expected_n_features : option nat) : result (list warning) :=
  let expected_n_features :=
    match expected_n_features with
    | None => config.TOTAL_FEATURES
    | Some n => n
    end in
  let feature_cols := get_feature_columns df false in
  let n_features := length feature_cols in
  let count_warning :=
    if negb (n_features =? expected_n_features)%nat
    then [UnexpectedFeatureCount expected_n_features n_features]
    else [] in
  _ ← for_ config.TARGETS
        (fun target (_ : unit) =>
           if negb (str_in target (columns df)) then Raise ValueError
           else Ok tt)
        tt;
  feature_frame ← getitems df feature_cols;
  let feature_missing := list_sum (map isnull_sum feature_frame) in
  Ok (count_warning
        ++ (if (0 <? feature_missing)%nat
            then [MissingFeatureValues feature_missing]
            else [])).

(* ====================================================================== *)
(** * config/analysis_config.py: helper functions                          *)
(* ====================================================================== *)

(** [config.get_feature_columns_pattern()] *)
Definition get_feature_columns_pattern : list string :=
  flat_map
    (fun var =>
       flat_map
         (fun week =>
            [var ++ "_lag_" ++ str_of_nat week;
             var ++ "_lag_rolling" ++ str_of_nat week]%string)
         config.LAG_RANGE)
    ["H_temp"; "M_temp"; "L_temp"]%string
  ++ flat_map
       (fun week =>
          ["R_lag_" ++ str_of_nat week; "R_lag_rolling" ++ str_of_nat week]%string)
       config.LAG_RANGE
  ++ flat_map
       (fun var =>
          flat_map
            (fun week =>
               [var ++ "_lag" ++ str_of_nat week;
                if String.eqb var "NDVImean"
                then var ++ "_lag_rollingmean" ++ str_of_nat week
                else if String.eqb var "NDVImedian"
                then var ++ "_lag_rollingmedian" ++ str_of_nat week
                else var ++ "_lag_rollingsum" ++ str_of_nat week]%string)
            config.LAG_RANGE)
       ["NDVImean"; "NDVImedian"; "NDVIsum"]%string
  ++ config.FEATURE_GROUPS_demographic_variables.

(** A decision procedure for a naming fact: for every tracked variable,
    family and week, one of the names the loader recognises is among the
    configured column patterns. *)
Definition configured_patterns_recognised : bool :=
  forallb
    (fun variable =>
       forallb
         (fun lag_type =>
            forallb
              (fun w =>
                 existsb (fun c => str_in c get_feature_columns_pattern)
                   (lag_patterns variable lag_type w))
              config.LAG_RANGE)
         ["simple"; "rolling"]%string)
    config.LAG_VARIABLES.

(** [s.lower()] on an ASCII string. *)
Definition ascii_lower (c : Ascii.ascii) : Ascii.ascii :=
  let n := Ascii.nat_of_ascii c in
  if (65 <=? n)%nat && (n <=? 90)%nat then Ascii.ascii_of_nat (n + 32) else c.

Fixpoint str_lower (s : string) : string :=
  match s with
  | EmptyString => EmptyString
  | String c s' => String (ascii_lower c) (str_lower s')
  end.

(** [config.get_city_output_dir(city_key, analysis_type)]; a path is kept
    as the components handed to [os.path.join]. *)
Definition get_city_output_dir (OUTPUT_DIR : string) (city_key : string)
  (analysis_type : option string) : result (list string) :=
  name_en ← config.CITIES_name_en city_key;
  let city_name_en := str_lower name_en in
  match analysis_type with
  | None => Ok [OUTPUT_DIR; city_name_en]
  | Some analysis_type =>
      sub ← config.CITY_OUTPUT_STRUCTURE analysis_type;
      Ok [OUTPUT_DIR; city_name_en; sub]
  end.

(* ====================================================================== *)
(** * core/base_analyzer.py: per-city bookkeeping                          *)
(* ====================================================================== *)

Section CityAnalyzer.

(** The results dict of the concrete analyzer, its [analyze] (which ends
    with [self.results = results]) and what its [save_outputs] writes for
    given results and directory. *)
Variable results : Type.
Variable saved_files : Type.
Variable analyze : DataFrame -> string -> result results.
Variable write_outputs : results -> list string -> result saved_files.
Variable OUTPUT_DIR : string.

(** The analyzer object: [self.name], [self.results] ([None] for the
    initial empty dict) and [self.city_results]. *)
Record analyzer : Type := mk_analyzer {
  name : string;
  self_results : option results;
  city_results : dict results
}.

(** [CityAnalyzer.__init__(name)] *)
Definition new_analyzer (name : string) : analyzer := mk_analyzer name None [].

(** [CityAnalyzer.analyze_city(df, city_key)]: the value or exception, and
    the analyzer afterwards. *)
Definition analyze_city (df : DataFrame) (city_key : string) (self : analyzer)
  : result results * analyzer :=
  match analyze df city_key with
  | Ok r =>
      (Ok r, mk_analyzer (name self) (Some r) (dict_set (city_results self) city_key r))
  | Raise e => (Raise e, self)
  end.

(** [CityAnalyzer.analyze_all_cities(city_dataframes)] *)
Fixpoint analyze_all_cities_from (city_dataframes : dict DataFrame)
  (all_results : dict results) (self : analyzer)
  : result (dict results) * analyzer :=
  match city_dataframes with
  | [] => (Ok all_results, self)
  | (city_key, df) :: rest =>
      match config.CITIES_name_en city_key with
      | Raise e => (Raise e, self)
      | Ok city_name =>
          match analyze_city df city_key self with
          | (Ok r, self') =>
              analyze_all_cities_from rest (dict_set all_results city_key r) self'
          | (Raise e, self') => (Raise e, self')
          end
      end
  end.

Definition analyze_all_cities (city_dataframes : dict DataFrame) (self : analyzer)
  : result (dict results) * analyzer :=
  analyze_all_cities_from city_dataframes [] self.

(** [save_outputs(output_dir)] as the three analyzers implement it: no
    results raise, else the files are written from [self.results]. *)
Definition save_outputs (self : analyzer) (output_dir : list string)
  : result saved_files :=
  match self_results self with
  | None => Raise ValueError
  | Some r => write_outputs r output_dir
  end.

(** [CityAnalyzer.save_city_outputs(city_key, base_output_dir)] *)
Definition save_city_outputs (self : analyzer) (city_key : string)
  : result saved_files :=
  city_dir ← get_city_output_dir OUTPUT_DIR city_key (Some (name self));
  if negb (str_in city_key (keys (city_results self))) then Raise ValueError
  else save_outputs self city_dir.

End CityAnalyzer.

Arguments name {results} _.
Arguments self_results {results} _.
Arguments city_results {results} _.
Arguments new_analyzer {results} name.
Arguments analyze_city {results} analyze df city_key self.
Arguments analyze_all_cities {results} analyze city_dataframes self.
Arguments save_outputs {results saved_files} write_outputs self output_dir.
Arguments save_city_outputs {results saved_files} write_outputs OUTPUT_DIR self city_key.

(* ====================================================================== *)
(** * analyzers/statistical_analyzer.py: top-N tables                      *)
(* ====================================================================== *)

(** A row of the frame [_get_top_correlations] builds. *)
Record corr_row : Type := mk_corr_row {
  cr_feature : string;
  cr_correlation : float;
  cr_p_value : float;
  cr_abs_correlation : float
}.

(** [pd.DataFrame({'feature': correlations.index, 'correlation':
    correlations.values, 'p_value': p_values.values, 'abs_correlation':
    np.abs(correlations.values)})]; arrays of different lengths raise. *)
Definition correlation_frame (correlations p_values : Series)
  : result (list corr_row) :=
  if (length correlations =? length p_values)%nat then
    Ok (zip_with
          (fun c p => mk_corr_row (fst c) (snd c) (snd p) (F64.fabs (snd c)))
          correlations p_values)
  else Raise ValueError.

(** [df.dropna()] on that frame. *)
Definition dropna_rows (df : list corr_row) : list corr_row :=
  List.filter
    (fun r => F64.notna (cr_correlation r) && F64.notna (cr_p_value r)
              && F64.notna (cr_abs_correlation r))
    df.

(** What is asked of [DataFrame.sort_values(by, ascending)]: the rows are
    rearranged, and on keys without NaN they come out in order. *)
Definition sorts_by_key
  (sort_values : (corr_row -> float) -> bool -> list corr_row -> list corr_row)
  : Prop :=
  forall key ascending l,
    Permutation (sort_values key ascending l) l
    /\ (Forall (fun r => F64.isnan (key r) = false) l ->
        forall i j x y,
          i < j ->
          sort_values key ascending l !! i = Some x ->
          sort_values key ascending l !! j = Some y ->
          if ascending : bool then F64.le (key x) (key y) = true
          else F64.le (key y) (key x) = true).

Section TopCorrelations.

Variable sort_values
  : (corr_row -> float) -> bool -> list corr_row -> list corr_row.

(** [_get_top_correlations(correlations, p_values, n_top)] *)
Definition _get_top_correlations (correlations p_values : Series) (n_top : nat)
  : result (list corr_row * list corr_row) :=
  df ← correlation_frame correlations p_values;
  let df := dropna_rows df in
  let top_positive :=
    firstn n_top
      (sort_values cr_correlation false
         (List.filter (fun r => F64.gt (cr_correlation r) 0%float) df)) in
  let top_negative :=
    firstn n_top
      (sort_values cr_correlation true
         (List.filter (fun r => F64.lt (cr_correlation r) 0%float) df)) in
  Ok (top_positive, top_negative).

(** The rest of the loop body of [analyze] after the top-N tables
    (grouping by feature type and the heat map). *)
Variable figures : Type.
Variable group_and_plot : Series -> Series -> result figures.

(** Lines 105-132 of [analyze]: the two tables, the two log lines that
    read [top_pos.iloc[0]] and [top_neg.iloc[0]], and the rest. *)
Definition report_tables_of (correlations p_values : Series)
  : result (list corr_row * list corr_row * figures) :=
  '(top_pos, top_neg) ←
    _get_top_correlations correlations p_values config.N_TOP_CORRELATIONS;
  first_pos ← index top_pos 0;
  first_neg ← index top_neg 0;
  fig ← group_and_plot correlations p_values;
  Ok (top_pos, top_neg, fig).

End TopCorrelations.

Arguments report_tables_of sort_values {figures} group_and_plot.

(** A stable insertion sort on the key, as a reference [sort_values]. *)
Fixpoint insert_by (key : corr_row -> float) (ascending : bool) (r : corr_row)
  (l : list corr_row) : list corr_row :=
  match l with
  | [] => [r]
  | x :: l' =>
      if (if ascending then F64.lt (key r) (key x) else F64.lt (key x) (key r))
      then r :: x :: l'
      else x :: insert_by key ascending r l'
  end.

Definition insertion_sort (key : corr_row -> float) (ascending : bool)
  (l : list corr_row) : list corr_row :=
  fold_right (insert_by key ascending) [] l.

(* ====================================================================== *)
(** * analyzers/pca_clustering_analyzer.py: cleaning and cluster profiles  *)
(* ====================================================================== *)

(** [df[cols]] *)
Definition select_columns (df : DataFrame) (cols : list string)
  : result DataFrame :=
  cs ← getitems df cols;
  Ok (zip cols cs).

(** [df.dropna()]: the rows without a missing cell. *)
Definition dropna (df : DataFrame) : DataFrame :=
  match values df with
  | [] => df
  | c :: cs => loc_rows (notna_all c cs) df
  end.

(** Step 1 of [PCAClusteringAnalyzer.analyze]:
    [df_clean = df[features + config.TARGETS].dropna()] *)
Definition df_clean (df : DataFrame) : result DataFrame :=
  let features := get_feature_columns df false in
  selected ← select_columns df (features ++ config.TARGETS);
  Ok (dropna selected).

(** A row of the cluster-characteristics table. *)
Record cluster_char : Type := mk_cluster_char {
  cc_cluster : nat;
  cc_n_samples : nat;
  cc_stats : dict float
}.

(** [df_clustered[df_clustered['cluster'] == cluster_id]] *)
Definition cluster_rows (df_clustered : clustered_frame) (cluster_id : nat)
  : clustered_frame :=
  let mask := map (fun c => (c =? cluster_id)%nat) (cf_cluster df_clustered) in
  mk_clustered_frame
    (loc_rows mask (cf_frame df_clustered))
    (List.filter (fun c => (c =? cluster_id)%nat) (cf_cluster df_clustered)).

Section ClusterProfiler.

(** [Series.mean], [Series.std] and [Series.median]. *)
Variable mean : list float -> float.
Variable std : list float -> float.
Variable median : list float -> float.

(** The body of the [for cluster_id in range(optimal_k)] loop. *)
Definition cluster_char_of (df_clustered : clustered_frame) (cluster_id : nat)
  : cluster_char :=
  let cluster_data := cluster_rows df_clustered cluster_id in
  let char :=
    fold_left
      (fun char target =>
         match dict_get (cf_frame cluster_data) target with
         | Some col =>
             let target_data := List.filter F64.notna col in
             dict_set
               (dict_set
                  (dict_set char (target ++ "_mean") (mean target_data))
                  (target ++ "_std") (std target_data))
               (target ++ "_median") (median target_data)
         | None => char
         end)
      config.TARGETS [] in
  mk_cluster_char cluster_id (length (cf_cluster cluster_data)) char.

(** [_analyze_cluster_characteristics(df_clustered, optimal_k)] *)
Definition _analyze_cluster_characteristics (df_clustered : clustered_frame)
  (optimal_k : nat) : list cluster_char :=
  map (cluster_char_of df_clustered) (seq 0 optimal_k).

End ClusterProfiler.

(* ====================================================================== *)
(** * analyzers/lag_rolling_analyzer.py: the analysis loop                 *)
(* ====================================================================== *)

(** What [analyze] stores for one target. *)
Record lag_tables : Type := mk_lag_tables {
  lag_simple : list lag_row;
  lag_rolling : list lag_row;
  optimal_lags : list optimal_lag
}.

Module lag_rolling_analyzer.

Section Analyze.

Variable spearmanr : list float -> list float -> float * float.

(** The two heat maps and the line plots drawn for a target. *)
Variable figures : Type.
Variable create_figures
  : list lag_row -> list lag_row -> string -> result figures.

(** The three tables of one target (the first half of the loop body). *)
Definition target_tables (df : DataFrame) (target : string) : result lag_tables :=
  lag_results ← _analyze_lag_features spearmanr df target "simple";
  rolling_results ← _analyze_lag_features spearmanr df target "rolling";
  optimal_lags ← _find_optimal_lags lag_results rolling_results;
  Ok (mk_lag_tables lag_results rolling_results optimal_lags).

(** [LagRollingAnalyzer.analyze(df)]: the tables and figures per target. *)
Definition analyze (df : DataFrame) : result (dict (lag_tables * figures)) :=
  for_ config.TARGETS
    (fun target results =>
       if negb (str_in target (columns df)) then Ok results
       else
         tables ← target_tables df target;
         figs ← create_figures (lag_simple tables) (lag_rolling tables) target;
         Ok (dict_set results target (tables, figs)))
    [].

End Analyze.

End lag_rolling_analyzer.

(** The keys of a row of the lag-correlation table, in insertion order. *)
Definition lag_row_keys : list string :=
  flat_map (fun week => [lag_col week; lag_p_col week]) config.LAG_RANGE.

(** The row dict the week loop of [lag_table_row] builds, given the pair
    stored for each week. *)
Definition week_cells (cell : nat -> float * float) : dict float :=
  fold_left
    (fun row week =>
       dict_set (dict_set row (lag_col week) (fst (cell week)))
         (lag_p_col week) (snd (cell week)))
    config.LAG_RANGE [].

(** Whether the frame has a lag column of the family for the variable
    ([len(lag_features) == 0] is false). *)
Definition has_lag_columns (df : DataFrame) (lag_type variable : string) : bool :=
  negb (length (get_lag_features df variable lag_type) =? 0)%nat.

(* ====================================================================== *)
(** * analyzers/comparison_analyzer.py: the clustering comparison          *)
(* ====================================================================== *)

(** A scalar entry of a results dict or of a comparison row. *)
Inductive cell : Type :=
| CStr (s : string)
| CInt (n : nat)
| CFloat (f : float).

(** [d.get(key, np.nan)] *)
Definition get_or_nan (d : dict cell) (key : string) : cell :=
  match dict_get d key with
  | Some v => v
  | None => CFloat F64.nan
  end.

(** The row [_compare_clustering] builds from a city's PCA/clustering
    results. *)
Definition clustering_row (city_name : string) (pca_res : dict cell) : dict cell :=
  let row :=
    [("city", CStr city_name);
     ("n_components", get_or_nan pca_res "n_components");
     ("variance_explained", get_or_nan pca_res "total_variance_explained");
     ("optimal_k", get_or_nan pca_res "optimal_k");
     ("silhouette", get_or_nan pca_res "optimal_silhouette")]%string in
  fold_left
    (fun row target =>
       match dict_get pca_res (target ++ "_kruskal_p") with
       | Some p => dict_set row (target ++ "_kruskal_p") p
       | None => row
       end)
    config.TARGETS row.

(** What a city key contributes to the clustering comparison: a row when
    the city has PCA/clustering results. *)
Definition clustering_supply (city_results : dict (dict (dict cell)))
  (city_key : string) : list (dict cell) :=
  match dict_get city_results city_key, config.CITIES_name_en city_key with
  | Some analyses, Ok city_name =>
      match dict_get analyses "pca_clustering" with
      | Some pca_res => [clustering_row city_name pca_res]
      | None => []
      end
  | _, _ => []
  end.

(** [_compare_clustering(city_results)], with [city_results] restricted to
    the scalar entries of each analysis. *)
Definition _compare_clustering (city_results : dict (dict (dict cell)))
  : result (list (dict cell)) :=
  for_ config.CITY_ORDER
    (fun city_key comparison =>
       match dict_get city_results city_key with
       | None => Ok comparison
       | Some analyses =>
           city_name ← config.CITIES_name_en city_key;
           match dict_get analyses "pca_clustering" with
           | Some pca_res => Ok (comparison ++ [clustering_row city_name pca_res])
           | None => Ok comparison
           end
       end)
    [].


(** The lines of [generate_results_section] of the PCA analyzer that read
    the leading components:
    [top_comp_var = results['explained_variance_ratio'][:3] * 100], then
    [top_comp_var[0]], [top_comp_var[1]] and [top_comp_var[2]], which go
    into the sentence on the first three components. *)
Definition top_comp_var {matrix} (results : pca_results matrix) : list float :=
  map (fun r => PrimFloat.mul r 100%float)
    (firstn 3 (explained_variance_ratio results)).

Definition first_three_components {matrix} (results : pca_results matrix)
  : result (float * float * float) :=
  first ← index (top_comp_var results) 0;
  second ← index (top_comp_var results) 1;
  third ← index (top_comp_var results) 2;
  Ok (first, second, third).

(* ====================================================================== *)
(** * Sample inputs for the worked examples                                *)
(* ====================================================================== *)

Module Sample.

(** Stand-ins for the scipy calls where an example needs a concrete one:
    a fixed coefficient and p-value. *)
Definition spearmanr_const (x y : list float) : float * float :=
  (0.5%float, 0.01%float).
Definition pearsonr_const (x y : list float) : float * float :=
  (0.25%float, 0.2%float).
Definition report_none (c p : Series) : result unit := Ok tt.

(** Three site-weeks, two features (the second one never observed). *)
Definition df_small : DataFrame :=
  [("date", [1; 2; 3]);
   ("H_temp_lag_1", [21.5; F64.nan; 23]);
   ("R_lag_1", [F64.nan; F64.nan; F64.nan]);
   ("pos", [0.5; 0.25; F64.nan]);
   ("egg", [12; 0; 3])]%float%string.

(** A stand-in for the decomposition of a three-feature matrix whose
    components explain 60%, 30% and 10% of the variance; a refit on [c]
    components keeps the first [c] of them. *)
Definition ratios_631 : list float := [0.6; 0.3; 0.1]%float.
Definition PCA_fit_631 (n_components : option nat) (X : list (list float))
  : result (fitted_pca (list (list float))) :=
  match n_components with
  | None => Ok (mk_fitted_pca _ ratios_631 X)
  | Some c => Ok (mk_fitted_pca _ (firstn c ratios_631) (map (firstn c) X))
  end.
Definition X_three_features : list (list float) :=
  [[1; 0; -1]; [-1; 1; 0]; [0; -1; 1]]%float.
(** Number of columns of a row-major matrix ([X.shape[1]]). *)
Definition n_cols (X : list (list float)) : nat :=
  match X with
  | [] => O
  | row :: _ => length row
  end.

(** A frame with both outcomes and no candidate feature. *)
Definition df_no_features : DataFrame :=
  [("date", [1; 2]); ("pos", [0.5; 0.25]); ("egg", [12; 0])]%float%string.

Definition p_values_small : Series :=
  [("H_temp_lag_1", 0.0001); ("R_lag_1", 0.03); ("sex", F64.nan)]%float%string.

(** Stand-ins for the clustering calls: row [i] gets label [i mod k], and
    the silhouette is read off a table by the number of labels, with a tie
    between 3 and 4 clusters. *)
Definition KMeans_mod (k : nat) (X : list (list float))
  : result (list nat * float) :=
  Ok (map (fun i => i mod k) (seq 0 (length X)), 0%float).
Definition silhouette_table (X : list (list float)) (labels : list nat)
  : result float :=
  Ok (match S (list_max labels) with
      | 2 => 0.41
      | 3 => 0.63
      | 4 => 0.63
      | 5 => 0.40
      | _ => 0.25
      end)%float.
Definition index_const (v : float) (X : list (list float)) (labels : list nat)
  : result float := Ok v.
Definition X_twelve_rows : list (list float) :=
  map (fun i => [F64.of_nat i]) (seq 0 12).

(** Lag-correlation rows with the given correlations for weeks 1..12. *)
Definition lag_cells (corrs : list float) : dict float :=
  flat_map (fun wc => [(lag_col (fst wc), snd wc); (lag_p_col (fst wc), 0.01%float)])
    (zip config.LAG_RANGE corrs).
Definition lag_simple_small : list lag_row :=
  [mk_lag_row "H_temp"
     (lag_cells [0.1; -0.5; F64.nan; 0.3; 0.2; 0.1; 0; -0.1; 0.4; 0.45; -0.2; 0.05]);
   mk_lag_row "R" (lag_cells (repeat F64.nan 12))]%float.
Definition lag_rolling_small : list lag_row :=
  [mk_lag_row "H_temp"
     (lag_cells [0.1; 0.2; 0.6; 0.3; 0.2; 0.1; 0; -0.6; 0.4; 0.45; -0.2; 0.05])]%float.

(** A frame with the twelve simple lag columns of [H_temp], and the same
    frame without the offset-1 column. *)
Definition df_lags : DataFrame :=
  map (fun w => (("H_temp_lag_" ++ str_of_nat w)%string,
                 [F64.of_nat w; 1; F64.nan]%float))
    config.LAG_RANGE
  ++ [("pos", [0.5; 0.25; 0.75])]%float%string.
Definition df_lags_without_1 : DataFrame := tl df_lags.

(** Stand-ins for the group tests: Kruskal-Wallis is "significant" when at
    least four observations are compared, and the post-hoc result is
    represented by its number of rows. *)
Definition kruskal_by_size (groups : list (list float)) : result (float * float) :=
  Ok (if (4 <=? length (concat groups))%nat then (9.5, 0.01) else (0.5, 0.6))%float.
Definition dunn_size (rows : list (nat * float)) : result nat := Ok (length rows).
Definition df_two_clusters : clustered_frame :=
  mk_clustered_frame
    [("pos", [0.5; F64.nan; F64.nan; 0.25; 0.75]);
     ("egg", [12; 0; 3; 40; 7])]%float%string
    [0; 1; 0; 1; 1].

(** Three cities; [A] clears both thresholds everywhere, [B] in Taipei and
    Tainan only, [C] in Kaohsiung only. *)
Definition stat_res_of (corr pval : Series) : dict (dict Series) :=
  [("statistical",
    [("pos_correlations", corr); ("pos_p_values", pval)])]%string.
Definition city_results_three : dict (dict (dict Series)) :=
  [("taipei",
    stat_res_of [("A", 0.5); ("B", -0.4); ("C", 0.1)]
                [("A", 0.0001); ("B", 0.0002); ("C", 0.5)]);
   ("kaohsiung",
    stat_res_of [("A", -0.6); ("B", 0.4); ("C", 0.35)]
                [("A", 0.0001); ("B", 0.02); ("C", 0.0005)]);
   ("tainan",
    stat_res_of [("A", 0.31); ("B", 0.9); ("C", F64.nan)]
                [("A", 0.0009); ("B", 0); ("C", F64.nan)])]%float%string.

(** [df_small] after preprocessing: no [date] column, and without the
    third row, whose [pos] is missing. *)
Definition df_small_processed : DataFrame :=
  [("H_temp_lag_1", [21.5; F64.nan]);
   ("R_lag_1", [F64.nan; F64.nan]);
   ("pos", [0.5; 0.25]);
   ("egg", [12; 0])]%float%string.

(** A one-row frame with every configured feature column and both
    targets. *)
Definition df_configured : DataFrame :=
  map (fun c => (c, [1%float])) get_feature_columns_pattern
  ++ [("pos", [0.5]); ("egg", [12])]%float%string.

(** Two correlation series for the top-N tables. *)
Definition correlations_four : Series :=
  [("A", 0.5); ("B", -0.4); ("C", 0.1); ("D", F64.nan)]%float%string.
Definition p_values_four : Series :=
  [("A", 0.0001); ("B", 0.0002); ("C", 0.5); ("D", F64.nan)]%float%string.

(** Stand-ins for the plotting calls and the pandas summaries. *)
Definition no_figures (c p : Series) : result unit := Ok tt.
Definition no_lag_figures (simple rolling : list lag_row) (target : string)
  : result unit := Ok tt.
Definition size_of (values : list float) : float := F64.of_nat (length values).

(** [df_lags] with one rolling column of [H_temp]. *)
Definition df_lags_rolling : DataFrame :=
  df_lags ++ [("H_temp_lag_rolling1", [0.5; 1; 2])]%float%string.

(** The first two cities of [city_results_three]. *)
Definition city_results_two : dict (dict (dict Series)) :=
  firstn 2 city_results_three.

(** A stand-in analyzer whose result is the number of columns of the
    frame, and whose [save_outputs] returns what it would write where. *)
Definition analyze_width (df : DataFrame) (city_key : string) : result nat :=
  Ok (length df).
Definition write_pair (r : nat) (output_dir : list string)
  : result (nat * list string) := Ok (r, output_dir).
Definition two_city_frames : dict DataFrame :=
  [("taipei", df_small); ("tainan", df_no_features)]%string.

(** A stand-in for [scipy.stats.spearmanr] that has the sign of the rank
    correlation on samples of three or more points without ties that are
    monotone in each other: 1 when the two samples rise together, -1 when
    one falls where the other rises, with p-value 0; elsewhere it is left
    undefined (NaN). *)
Fixpoint all_later (P : float * float -> float * float -> bool)
  (l : list (float * float)) : bool :=
  match l with
  | [] => true
  | p :: l' => forallb (P p) l' && all_later P l'
  end.
Definition rising_together (p q : float * float) : bool :=
  (F64.lt (fst p) (fst q) && F64.lt (snd p) (snd q))
  || (F64.lt (fst q) (fst p) && F64.lt (snd q) (snd p)).
Definition rising_apart (p q : float * float) : bool :=
  (F64.lt (fst p) (fst q) && F64.lt (snd q) (snd p))
  || (F64.lt (fst q) (fst p) && F64.lt (snd p) (snd q)).
Definition spearmanr_monotone (x y : list float) : float * float :=
  if (3 <=? length x)%nat && (length x =? length y)%nat then
    if all_later rising_together (zip x y) then (1, 0)%float
    else if all_later rising_apart (zip x y) then (-1, 0)%float
    else (F64.nan, F64.nan)
  else (F64.nan, F64.nan).

(** Four site-weeks in which both features fall while the positive rate
    rises; one temperature cell is missing. *)
Definition df_falling : DataFrame :=
  [("date", [1; 2; 3; 4]);
   ("H_temp_lag_1", [30; 25; F64.nan; 15]);
   ("R_lag_1", [8; 6; 4; 2]);
   ("pos", [0.1; 0.2; 0.3; 0.4])]%float%string.

End Sample.

(* ====================================================================== *)
(** * Facts about binary64 comparisons                                     *)
(* ====================================================================== *)

Module F64Facts.
Import F64.

(** ** The order on the specification floats *)

Ltac sf_crush :=
  repeat match goal with
         | s : bool |- _ => destruct s
         end;
  simpl in *; try congruence;
  repeat match goal with
         | |- context [Pos.compare_cont Eq ?m ?n] =>
             change (Pos.compare_cont Eq m n) with (Pos.compare m n)
         | H : context [Pos.compare_cont Eq ?m ?n] |- _ =>
             change (Pos.compare_cont Eq m n) with (Pos.compare m n) in H
         end;
  repeat match goal with
         | |- context [Z.compare ?x ?y] => destruct (Z.compare_spec x y)
         | H : context [Z.compare ?x ?y] |- _ => destruct (Z.compare_spec x y)
         | |- context [Pos.compare ?x ?y] => destruct (Pos.compare_spec x y)
         | H : context [Pos.compare ?x ?y] |- _ => destruct (Pos.compare_spec x y)
         end;
  simpl in *; try congruence; try lia.

Lemma SFleb_trans a b c :
  SFleb a b = true -> SFleb b c = true -> SFleb a c = true.
Proof. unfold SFleb. destruct a, b, c; simpl; try congruence; sf_crush. Qed.

Lemma SFltb_leb_trans a b c :
  SFltb a b = true -> SFleb b c = true -> SFltb a c = true.
Proof.
  unfold SFleb, SFltb. destruct a, b, c; simpl; try congruence; sf_crush.
Qed.

Lemma SFleb_ltb_trans a b c :
  SFleb a b = true -> SFltb b c = true -> SFltb a c = true.
Proof.
  unfold SFleb, SFltb. destruct a, b, c; simpl; try congruence; sf_crush.
Qed.

Lemma SFleb_total a b :
  a <> S754_nan -> b <> S754_nan -> SFleb a b = false -> SFltb b a = true.
Proof.
  unfold SFleb, SFltb. destruct a, b; simpl; try congruence; intros; sf_crush.
Qed.

Lemma SFltb_total a b :
  a <> S754_nan -> b <> S754_nan -> SFltb a b = false -> SFleb b a = true.
Proof.
  unfold SFleb, SFltb. destruct a, b; simpl; try congruence; intros; sf_crush.
Qed.

Lemma SFltb_not_leb a b : SFltb a b = true -> SFleb b a = false.
Proof. unfold SFleb, SFltb. destruct a, b; simpl; try congruence; sf_crush. Qed.

Lemma SFltb_leb a b : SFltb a b = true -> SFleb a b = true.
Proof. unfold SFleb, SFltb. destruct (SFcompare a b) as [[]|]; congruence. Qed.

Lemma SFeqb_refl a : SFeqb a a = negb (match a with S754_nan => true | _ => false end).
Proof.
  unfold SFeqb. destruct a as [ | | |s m e]; simpl; try reflexivity.
  - destruct s; reflexivity.
  - change (Pos.compare_cont Eq m m) with (Pos.compare m m).
    rewrite Z.compare_refl, Pos.compare_refl. destruct s; reflexivity.
Qed.

Lemma SFleb_nan_l b : SFleb S754_nan b = false.
Proof. reflexivity. Qed.

Lemma SFleb_nan_r a : SFleb a S754_nan = false.
Proof. destruct a; reflexivity. Qed.

Lemma SFleb_abs_nonneg a : a <> S754_nan -> SFleb (S754_zero false) (SFabs a) = true.
Proof. destruct a; intros H; try reflexivity. congruence. Qed.

(** ** The same facts on binary64 values *)

Lemma isnan_spec a : isnan a = true <-> Prim2SF a = S754_nan.
Proof.
  unfold isnan, PrimFloat.is_nan. rewrite FloatAxioms.eqb_spec, SFeqb_refl, negb_involutive.
  destruct (Prim2SF a); split; intros H; solve [reflexivity | discriminate H].
Qed.

Lemma isnan_false a : isnan a = false <-> Prim2SF a <> S754_nan.
Proof.
  rewrite <- isnan_spec. destruct (isnan a); split; congruence.
Qed.

Lemma isnan_nan : isnan nan = true.
Proof. reflexivity. Qed.

Lemma isnan_unique a : isnan a = true -> a = nan.
Proof.
  intros H. apply isnan_spec in H. apply Prim2SF_inj. rewrite H. reflexivity.
Qed.

Lemma le_trans a b c : le a b = true -> le b c = true -> le a c = true.
Proof. unfold le. rewrite !FloatAxioms.leb_spec. apply SFleb_trans. Qed.

Lemma lt_le_trans a b c : lt a b = true -> le b c = true -> lt a c = true.
Proof. unfold lt, le. rewrite !FloatAxioms.leb_spec, !FloatAxioms.ltb_spec. apply SFltb_leb_trans. Qed.

Lemma le_lt_trans a b c : le a b = true -> lt b c = true -> lt a c = true.
Proof. unfold lt, le. rewrite !FloatAxioms.leb_spec, !FloatAxioms.ltb_spec. apply SFleb_ltb_trans. Qed.

Lemma lt_le a b : lt a b = true -> le a b = true.
Proof. unfold lt, le. rewrite FloatAxioms.leb_spec, FloatAxioms.ltb_spec. apply SFltb_leb. Qed.

Lemma lt_not_le a b : lt a b = true -> le b a = false.
Proof. unfold lt, le. rewrite FloatAxioms.leb_spec, FloatAxioms.ltb_spec. apply SFltb_not_leb. Qed.

Lemma not_le_lt a b :
  isnan a = false -> isnan b = false -> le a b = false -> lt b a = true.
Proof.
  unfold lt, le. rewrite FloatAxioms.leb_spec, FloatAxioms.ltb_spec, !isnan_false. apply SFleb_total.
Qed.

Lemma not_lt_le a b :
  isnan a = false -> isnan b = false -> lt a b = false -> le b a = true.
Proof.
  unfold lt, le. rewrite FloatAxioms.leb_spec, FloatAxioms.ltb_spec, !isnan_false. apply SFltb_total.
Qed.

Lemma le_refl a : isnan a = false -> le a a = true.
Proof.
  intros H. apply not_lt_le; auto.
  destruct (lt a a) eqn:E; auto.
  pose proof (lt_not_le _ _ E) as E1. pose proof (lt_le _ _ E) as E2. congruence.
Qed.

Lemma le_nan_l a b : isnan a = true -> le a b = false.
Proof.
  unfold le. rewrite FloatAxioms.leb_spec, isnan_spec. intros ->. apply SFleb_nan_l.
Qed.

Lemma le_nan_r a b : isnan b = true -> le a b = false.
Proof.
  unfold le. rewrite FloatAxioms.leb_spec, isnan_spec. intros ->. apply SFleb_nan_r.
Qed.

Lemma lt_nan_l a b : isnan a = true -> lt a b = false.
Proof.
  intros H. destruct (lt a b) eqn:E; auto.
  apply lt_le in E. rewrite le_nan_l in E; auto.
Qed.

Lemma lt_nan_r a b : isnan b = true -> lt a b = false.
Proof.
  intros H. destruct (lt a b) eqn:E; auto.
  apply lt_le in E. rewrite le_nan_r in E; auto.
Qed.

Lemma isnan_fabs a : isnan (fabs a) = isnan a.
Proof.
  apply eq_true_iff_eq. rewrite !isnan_spec. unfold fabs. rewrite FloatAxioms.abs_spec.
  destruct (Prim2SF a); simpl; split; congruence.
Qed.

Lemma fabs_nonneg a : isnan a = false -> le PrimFloat.zero (fabs a) = true.
Proof.
  unfold le, fabs. rewrite FloatAxioms.leb_spec, FloatAxioms.abs_spec, isnan_false.
  apply SFleb_abs_nonneg.
Qed.

Lemma neg_inf_lt_fabs a : isnan a = false -> lt neg_inf (fabs a) = true.
Proof.
  intros H. apply lt_le_trans with PrimFloat.zero; [reflexivity|].
  now apply fabs_nonneg.
Qed.

End F64Facts.

Import F64Facts.

(* ====================================================================== *)
(** * Facts about the error monad and dicts                               *)
(* ====================================================================== *)

Lemma bind_Ok {A B} (m : result A) (f : A -> result B) (b : B) :
  m ≫= f = Ok b -> exists a, m = Ok a /\ f a = Ok b.
Proof. destruct m as [a|e]; simpl; [eauto | discriminate]. Qed.

Lemma dict_get_set {V} (d : dict V) k v k' :
  dict_get (dict_set d k v) k' = if String.eqb k k' then Some v else dict_get d k'.
Proof.
  induction d as [|[k0 v0] d IH]; simpl.
  - reflexivity.
  - destruct (String.eqb_spec k0 k) as [->|Hne]; simpl.
    + destruct (String.eqb k k'); reflexivity.
    + rewrite IH. destruct (String.eqb_spec k0 k') as [->|Hne'].
      * destruct (String.eqb_spec k k'); [congruence|reflexivity].
      * reflexivity.
Qed.

Lemma dict_set_fresh {V} (d : dict V) k v :
  str_in k (keys d) = false -> dict_set d k v = d ++ [(k, v)].
Proof.
  induction d as [|[k0 v0] d IH]; simpl; [reflexivity|].
  rewrite (String.eqb_sym k k0).
  destruct (String.eqb k0 k); simpl; [discriminate|].
  intros H. now rewrite IH.
Qed.

Lemma str_in_spec k l : str_in k l = true <-> In k l.
Proof.
  unfold str_in. rewrite existsb_exists. split.
  - intros [x [Hx E]]. apply String.eqb_eq in E. now subst.
  - intros H. exists k. split; [assumption|apply String.eqb_refl].
Qed.

Lemma str_in_false k l : str_in k l = false <-> ~ In k l.
Proof.
  rewrite <- str_in_spec. destruct (str_in k l); split; congruence.
Qed.

Lemma dict_get_keys {V} (d : dict V) k :
  str_in k (keys d) = true <-> is_Some (dict_get d k).
Proof.
  induction d as [|[k0 v0] d IH]; simpl.
  - split; [discriminate|]. intros [x Hx]. discriminate.
  - rewrite (String.eqb_sym k k0). destruct (String.eqb k0 k); simpl.
    + split; eauto.
    + exact IH.
Qed.

Lemma lookup_map {A B} (f : A -> B) (l : list A) (i : nat) :
  map f l !! i = option_map f (l !! i).
Proof.
  revert i. induction l as [|x l IH]; intros [|i]; simpl; auto.
Qed.

(* ====================================================================== *)
(** * Correlation engine                                                   *)
(* ====================================================================== *)

(** The rows kept by the mask are exactly the rows in which both cells are
    non-null, in their original order. *)
Lemma loc_mask_pairwise (xs ys : list float) :
  zip (loc_mask (valid_mask xs ys) xs) (loc_mask (valid_mask xs ys) ys)
  = List.filter (fun p => F64.notna (fst p) && F64.notna (snd p)) (zip xs ys).
Proof.
  revert ys. induction xs as [|x xs IH]; intros [|y ys]; simpl; try reflexivity.
  unfold valid_mask in *. simpl.
  destruct (F64.notna x && F64.notna y); simpl; now rewrite IH.
Qed.

Lemma loc_mask_lengths (xs ys : list float) :
  length (loc_mask (valid_mask xs ys) xs) = length (loc_mask (valid_mask xs ys) ys).
Proof.
  revert ys. induction xs as [|x xs IH]; intros [|y ys]; simpl; try reflexivity.
  unfold valid_mask in *. simpl.
  destruct (F64.notna x && F64.notna y); simpl; now rewrite IH.
Qed.

Section CorrelationEngineFacts.

Variable spearmanr : list float -> list float -> float * float.
Variable pearsonr : list float -> list float -> float * float.

Lemma correlate_feature_spearman df feature target xs ys :
  dict_get df feature = Some xs ->
  dict_get df target = Some ys ->
  correlate_feature spearmanr pearsonr df feature target "spearman"
  = Ok (match loc_mask (valid_mask xs ys) xs with
        | [] => (F64.nan, F64.nan)
        | _ :: _ => spearmanr (loc_mask (valid_mask xs ys) xs)
                              (loc_mask (valid_mask xs ys) ys)
        end).
Proof.
  intros Hx Hy. unfold correlate_feature, getitem. rewrite Hx, Hy. simpl.
  destruct (loc_mask (valid_mask xs ys) xs); reflexivity.
Qed.

(** The loop of [calculate_correlation], from any pair of accumulators. *)
Lemma calculate_correlation_loop df target method (v : string -> float * float)
  (features : list string) (acc_c acc_p : Series) :
  (forall f, In f features ->
     correlate_feature spearmanr pearsonr df f target method = Ok (v f)) ->
  exists cs ps,
    for_ features
      (fun feature '(correlations, p_values) =>
         '(corr, pval) ← correlate_feature spearmanr pearsonr df feature target method;
         Ok (dict_set correlations feature corr, dict_set p_values feature pval))
      (acc_c, acc_p) = Ok (cs, ps)
    /\ (forall f, dict_get cs f
                  = if str_in f features then Some (fst (v f)) else dict_get acc_c f)
    /\ (forall f, dict_get ps f
                  = if str_in f features then Some (snd (v f)) else dict_get acc_p f).
Proof.
  revert acc_c acc_p. induction features as [|f0 fs IH]; intros acc_c acc_p Hv.
  - exists acc_c, acc_p. simpl. auto.
  - simpl. rewrite (Hv f0) by (left; reflexivity). simpl.
    destruct (v f0) as [c0 p0] eqn:Ev. simpl.
    destruct (IH (dict_set acc_c f0 c0) (dict_set acc_p f0 p0)) as (cs & ps & E & Hc & Hp).
    { intros f Hf. apply Hv. now right. }
    exists cs, ps. split; [exact E|]. split; intros f.
    + rewrite Hc, dict_get_set. unfold str_in at 2. simpl. fold (str_in f fs).
      rewrite (String.eqb_sym f f0).
      destruct (str_in f fs); [now rewrite orb_true_r|]. rewrite orb_false_r.
      destruct (String.eqb_spec f0 f) as [->|]; [now rewrite Ev|reflexivity].
    + rewrite Hp, dict_get_set. unfold str_in at 2. simpl. fold (str_in f fs).
      rewrite (String.eqb_sym f f0).
      destruct (str_in f fs); [now rewrite orb_true_r|]. rewrite orb_false_r.
      destruct (String.eqb_spec f0 f) as [->|]; [now rewrite Ev|reflexivity].
Qed.

(** With pairwise distinct feature names the two series list the features
    in order. *)
Lemma calculate_correlation_loop_nodup df target method (v : string -> float * float)
  (features : list string) (acc_c acc_p : Series) :
  List.NoDup features ->
  (forall f, In f features -> str_in f (keys acc_c) = false) ->
  (forall f, In f features -> str_in f (keys acc_p) = false) ->
  (forall f, In f features ->
     correlate_feature spearmanr pearsonr df f target method = Ok (v f)) ->
  for_ features
    (fun feature '(correlations, p_values) =>
       '(corr, pval) ← correlate_feature spearmanr pearsonr df feature target method;
       Ok (dict_set correlations feature corr, dict_set p_values feature pval))
    (acc_c, acc_p)
  = Ok (acc_c ++ map (fun f => (f, fst (v f))) features,
        acc_p ++ map (fun f => (f, snd (v f))) features).
Proof.
  revert acc_c acc_p. induction features as [|f0 fs IH]; intros acc_c acc_p Hnd Hc Hp Hv.
  - simpl. now rewrite !app_nil_r.
  - simpl. rewrite (Hv f0) by (left; reflexivity). simpl.
    destruct (v f0) as [c0 p0] eqn:Ev. simpl.
    rewrite !dict_set_fresh by (first [apply Hc | apply Hp]; left; reflexivity).
    apply List.NoDup_cons_iff in Hnd as [Hnotin Hnd].
    rewrite IH; auto.
    + simpl. now rewrite <- !app_assoc.
    + intros f Hf. unfold keys. rewrite map_app. apply str_in_false.
      rewrite in_app_iff. intros [H|[H|[]]].
      * apply str_in_spec in H. unfold keys in Hc. rewrite Hc in H; [discriminate|now right].
      * simpl in H. subst. contradiction.
    + intros f Hf. unfold keys. rewrite map_app. apply str_in_false.
      rewrite in_app_iff. intros [H|[H|[]]].
      * apply str_in_spec in H. unfold keys in Hp. rewrite Hp in H; [discriminate|now right].
      * simpl in H. subst. contradiction.
    + intros f Hf. apply Hv. now right.
Qed.

Lemma keys_dict_set {V W} (a : dict V) (b : dict W) k (v : V) (w : W) :
  keys a = keys b -> keys (dict_set a k v) = keys (dict_set b k w).
Proof.
  revert b. induction a as [|[ka va] a IH]; intros [|[kb vb] b] H;
    simpl in H; try discriminate; simpl; [reflexivity|].
  injection H as -> H. destruct (String.eqb kb k); simpl; f_equal; auto.
Qed.

(** The two series returned by [calculate_correlation] have the same
    index. *)
Lemma calculate_correlation_same_index df features target method corr pval :
  calculate_correlation spearmanr pearsonr df features target method
  = Ok (corr, pval) ->
  keys corr = keys pval.
Proof.
  unfold calculate_correlation.
  assert (Hgen : forall fs (c p : Series),
             keys c = keys p ->
             for_ fs
               (fun feature '(correlations, p_values) =>
                  '(corr, pval) ← correlate_feature spearmanr pearsonr df feature
                                     target method;
                  Ok (dict_set correlations feature corr,
                      dict_set p_values feature pval))
               (c, p) = Ok (corr, pval) ->
             keys corr = keys pval).
  { induction fs as [|f fs IH]; intros c p Hk H; simpl in H.
    - injection H as <- <-. exact Hk.
    - destruct (correlate_feature spearmanr pearsonr df f target method)
        as [[r q]|]; simpl in H; [|discriminate].
      eapply IH; [|exact H]. now apply keys_dict_set. }
  apply Hgen. reflexivity.
Qed.

End CorrelationEngineFacts.

(** C7. For every table, candidate feature list and outcome column,
    [calculate_correlation] returns, for each feature, the coefficient and
    p-value computed on exactly the rows in which that feature and the
    outcome are both non-null (the two samples depend on no other column);
    a feature with no such row gets NaN for both, which is not the value 0. *)
Theorem calculate_correlation_pairwise_complete
  (spearmanr pearsonr : list float -> list float -> float * float)
  (df : DataFrame) (features : list string) (target : string) (ys : list float) :
  dict_get df target = Some ys ->
  (forall f, In f features -> is_Some (dict_get df f)) ->
  exists corr pval,
    calculate_correlation spearmanr pearsonr df features target
      config.CORRELATION_METHOD = Ok (corr, pval)
    /\ forall f xs, In f features -> dict_get df f = Some xs ->
         let x := loc_mask (valid_mask xs ys) xs in
         let y := loc_mask (valid_mask xs ys) ys in
         zip x y = List.filter (fun p => F64.notna (fst p) && F64.notna (snd p))
                     (zip xs ys)
         /\ length x = length y
         /\ (x <> [] ->
             dict_get corr f = Some (fst (spearmanr x y))
             /\ dict_get pval f = Some (snd (spearmanr x y)))
         /\ (x = [] ->
             exists c p,
               dict_get corr f = Some c /\ dict_get pval f = Some p
               /\ F64.isnan c = true /\ F64.isnan p = true
               /\ PrimFloat.eqb c 0%float = false /\ PrimFloat.eqb p 0%float = false).
Proof.
  intros Hy Hcols.
  set (v := fun f => match dict_get df f with
                     | Some xs =>
                         match loc_mask (valid_mask xs ys) xs with
                         | [] => (F64.nan, F64.nan)
                         | _ :: _ => spearmanr (loc_mask (valid_mask xs ys) xs)
                                       (loc_mask (valid_mask xs ys) ys)
                         end
                     | None => (F64.nan, F64.nan)
                     end).
  destruct (calculate_correlation_loop spearmanr pearsonr df target
              config.CORRELATION_METHOD v features [] [])
    as (cs & ps & E & Hc & Hp).
  { intros f Hf. destruct (Hcols f Hf) as [xs Hxs].
    unfold config.CORRELATION_METHOD.
    rewrite (correlate_feature_spearman _ _ _ _ _ xs ys Hxs Hy).
    unfold v. now rewrite Hxs. }
  exists cs, ps. split; [exact E|].
  intros f xs Hf Hxs x y.
  split; [apply loc_mask_pairwise|]. split; [apply loc_mask_lengths|].
  assert (Hin : str_in f features = true) by now apply str_in_spec.
  specialize (Hc f). specialize (Hp f). rewrite Hin in Hc, Hp.
  unfold v in Hc, Hp. rewrite Hxs in Hc, Hp. fold x y in Hc, Hp.
  split.
  - intros Hne. destruct x; [congruence|]. split; assumption.
  - intros Hnil. rewrite Hnil in Hc, Hp. exists F64.nan, F64.nan.
    repeat split; auto.
Qed.

Lemma calculate_correlation_pairwise_complete_witness :
  exists corr pval,
    calculate_correlation Sample.spearmanr_const Sample.pearsonr_const
      Sample.df_small ["H_temp_lag_1"; "R_lag_1"]%string "pos"
      config.CORRELATION_METHOD = Ok (corr, pval)
    /\ dict_get corr "H_temp_lag_1" = Some 0.5%float
    /\ dict_get pval "H_temp_lag_1" = Some 0.01%float
    /\ dict_get corr "R_lag_1" = Some F64.nan
    /\ dict_get pval "R_lag_1" = Some F64.nan.
Proof.
  destruct (calculate_correlation_pairwise_complete
              Sample.spearmanr_const Sample.pearsonr_const
              Sample.df_small ["H_temp_lag_1"; "R_lag_1"]%string "pos"
              [0.5; 0.25; F64.nan]%float eq_refl) as (corr & pval & E & H).
  { intros f [<-|[<-|[]]]; eexists; reflexivity. }
  exists corr, pval. split; [exact E|].
  destruct (H "H_temp_lag_1"%string [21.5; F64.nan; 23]%float
              (or_introl eq_refl) eq_refl) as (_ & _ & [Hc Hp] & _);
    [discriminate|].
  destruct (H "R_lag_1"%string [F64.nan; F64.nan; F64.nan]%float
              (or_intror (or_introl eq_refl)) eq_refl) as (_ & _ & _ & Hn).
  destruct (Hn eq_refl) as (c & p & Hc' & Hp' & Nc & Np & _).
  apply F64Facts.isnan_unique in Nc, Np. subst c p.
  repeat split; assumption.
Defined.

(* ====================================================================== *)
(** * Bonferroni correction                                                *)
(* ====================================================================== *)

Lemma bonferroni_correction_nonempty (p_values : Series) (alpha : float) :
  p_values <> [] ->
  bonferroni_correction p_values alpha
  = Ok (PrimFloat.div alpha (F64.of_nat (length p_values)),
        map (fun p => F64.lt p (PrimFloat.div alpha (F64.of_nat (length p_values))))
          (values p_values)).
Proof. destruct p_values; [congruence|reflexivity]. Qed.

Lemma bonferroni_correction_empty (alpha : float) :
  bonferroni_correction [] alpha = Raise ZeroDivisionError.
Proof. reflexivity. Qed.

(** C3. For a non-empty series of raw p-values and alpha = 0.05 the
    corrected threshold is the float quotient 0.05 / n, n the number of
    p-values (one per candidate feature), and the flag at each feature's
    position is true exactly when its raw p-value is strictly below the
    threshold. *)
Theorem bonferroni_threshold_and_flags (p_values : Series) :
  p_values <> [] ->
  exists corrected_alpha significant,
    bonferroni_correction p_values config.BONFERRONI_ALPHA
    = Ok (corrected_alpha, significant)
    /\ corrected_alpha
       = PrimFloat.div 0.05%float (F64.of_nat (length (keys p_values)))
    /\ length significant = length p_values
    /\ forall i feature p,
         p_values !! i = Some (feature, p) ->
         exists flag,
           significant !! i = Some flag
           /\ (flag = true <-> F64.lt p corrected_alpha = true).
Proof.
  intros Hne. rewrite bonferroni_correction_nonempty by assumption.
  eexists _, _. split; [reflexivity|].
  split; [unfold keys; now rewrite length_map|].
  split; [unfold values; now rewrite !length_map|].
  intros i feature p Hi. eexists. split.
  - unfold values. rewrite !lookup_map, Hi. reflexivity.
  - reflexivity.
Qed.

Lemma bonferroni_threshold_and_flags_witness :
  exists corrected_alpha,
    bonferroni_correction Sample.p_values_small config.BONFERRONI_ALPHA
    = Ok (corrected_alpha, [true; false; false])
    /\ corrected_alpha = PrimFloat.div 0.05%float 3%float.
Proof.
  destruct (bonferroni_threshold_and_flags Sample.p_values_small)
    as (ca & sig & E & Hca & _); [discriminate|].
  exists ca. split; [|exact Hca].
  rewrite E. vm_compute in E. injection E as <- <-. reflexivity.
Defined.

(* ====================================================================== *)
(** * Statistical analyzer                                                 *)
(* ====================================================================== *)

Section StatisticalAnalyzerFacts.

Variable spearmanr : list float -> list float -> float * float.
Variable pearsonr : list float -> list float -> float * float.
Variable report : Type.
Variable report_tables : Series -> Series -> result report.

(** The family size of the correction in [analyze] is the number of
    candidate features. *)
Lemma analyze_target_family_size df features target ys :
  List.NoDup features -> features <> [] ->
  dict_get df target = Some ys ->
  (forall f, In f features -> is_Some (dict_get df f)) ->
  exists stats,
    analyze_target spearmanr pearsonr df features target
    = Ok (PrimFloat.div 0.05%float (F64.of_nat (length features)), stats)
    /\ keys (ts_p_values stats) = features
    /\ ts_significant stats
       = map (fun p => F64.lt p (PrimFloat.div 0.05%float
                                   (F64.of_nat (length features))))
           (values (ts_p_values stats)).
Proof.
  intros Hnd Hne Hy Hcols.
  set (v := fun f => match correlate_feature spearmanr pearsonr df f target
                             config.CORRELATION_METHOD with
                     | Ok r => r
                     | Raise _ => (F64.nan, F64.nan)
                     end).
  unfold analyze_target, calculate_correlation.
  rewrite (calculate_correlation_loop_nodup spearmanr pearsonr df target
             config.CORRELATION_METHOD v features [] [] Hnd); auto.
  - simpl.
    assert (Hlen : length (map (fun f => (f, snd (v f))) features) = length features)
      by apply length_map.
    rewrite bonferroni_correction_nonempty
      by (destruct features; [congruence|discriminate]).
    simpl. rewrite Hlen. eexists. split; [reflexivity|]. simpl. split; [|reflexivity].
    unfold keys. rewrite map_map. simpl. apply map_id.
  - intros f Hf. destruct (Hcols f Hf) as [xs Hxs]. unfold v.
    unfold config.CORRELATION_METHOD.
    now rewrite (correlate_feature_spearman _ _ _ _ _ xs ys Hxs Hy).
Qed.

Lemma analyze_target_no_features df target :
  analyze_target spearmanr pearsonr df [] target = Raise ZeroDivisionError.
Proof. reflexivity. Qed.

End StatisticalAnalyzerFacts.

(** C9 fails on the code. With an empty candidate feature set and at
    least one outcome column present, the empty p-value series reaches
    [bonferroni_correction], whose [alpha / n_tests] raises
    ZeroDivisionError; nothing in [analyze] catches it, so the analysis of
    the unit stops with that exception instead of skipping the input (as the
    same loop does for a missing outcome column). *)
Theorem analyze_empty_candidate_set_raises
  (spearmanr pearsonr : list float -> list float -> float * float)
  (report : Type) (report_tables : Series -> Series -> result report)
  (df : DataFrame) :
  get_feature_columns df false = [] ->
  (exists target, In target config.TARGETS /\ In target (columns df)) ->
  analyze spearmanr pearsonr report_tables df = Raise ZeroDivisionError.
Proof.
  intros Hf (target & Ht & Hc). unfold analyze. rewrite Hf.
  apply str_in_spec in Hc. unfold config.TARGETS in *. simpl.
  destruct (str_in "pos" (columns df)) eqn:Epos; simpl; [reflexivity|].
  destruct (str_in "egg" (columns df)) eqn:Eegg; simpl; [reflexivity|].
  destruct Ht as [<-|[<-|[]]]; congruence.
Qed.

Lemma analyze_empty_candidate_set_raises_witness :
  analyze Sample.spearmanr_const Sample.pearsonr_const Sample.report_none
    Sample.df_no_features = Raise ZeroDivisionError.
Proof.
  apply analyze_empty_candidate_set_raises.
  - reflexivity.
  - exists "pos"%string. split; [left; reflexivity|right; left; reflexivity].
Defined.

(** On a frame with both outcomes and no candidate feature the analysis
    returns no result at all; what comes out is the ZeroDivisionError of the
    correction step. *)
Lemma analyze_no_recovery_on_empty_candidate_set :
  bonferroni_correction [] config.BONFERRONI_ALPHA = Raise ZeroDivisionError
  /\ ~ (exists r,
          analyze Sample.spearmanr_const Sample.pearsonr_const
            Sample.report_none Sample.df_no_features = Ok r).
Proof.
  split; [reflexivity|]. intros [r Hr]. vm_compute in Hr. discriminate Hr.
Qed.

(* ====================================================================== *)
(** * numpy reductions                                                     *)
(* ====================================================================== *)

Lemma first_true_Some (l : list bool) (i : nat) :
  first_true l = Some i ->
  l !! i = Some true /\ forall j, j < i -> l !! j = Some false.
Proof.
  revert i. induction l as [|b l IH]; intros i; simpl; [discriminate|].
  destruct b.
  - intros [= <-]. split; [reflexivity|]. intros j Hj. lia.
  - destruct (first_true l) as [i'|]; simpl; [|discriminate].
    intros [= <-]. destruct (IH i' eq_refl) as [H1 H2]. split; [exact H1|].
    intros [|j] Hj; [reflexivity|]. simpl. apply H2. lia.
Qed.

Lemma first_true_exists (l : list bool) (j : nat) :
  l !! j = Some true -> exists i, first_true l = Some i /\ i <= j.
Proof.
  revert j. induction l as [|b l IH]; intros j Hj; [destruct j; discriminate|].
  simpl. destruct b; [exists 0; split; [reflexivity|lia]|].
  destruct j as [|j]; [discriminate|]. simpl in Hj.
  destruct (IH j Hj) as (i & -> & Hi). exists (S i). split; [reflexivity|lia].
Qed.

Lemma cumsum_from_lookup (acc : float) (l : list float) (i : nat) :
  i < length l ->
  cumsum_from acc l !! i = Some (fold_left PrimFloat.add (firstn (S i) l) acc).
Proof.
  revert acc i. induction l as [|x l IH]; intros acc i Hi; simpl in *; [lia|].
  destruct i as [|i]; simpl.
  - reflexivity.
  - apply IH. lia.
Qed.

(** [np.cumsum] computes the specification's cumulative ratios. *)
Lemma cumsum_cumulative_ratio (ratios : list float) (C : nat) :
  1 <= C -> cumsum ratios !! (C - 1) = cumulative_ratio ratios C.
Proof.
  intros HC. destruct C as [|C]; [lia|]. replace (S C - 1) with C by lia.
  unfold cumulative_ratio. destruct ratios as [|x l]; simpl; [reflexivity|].
  destruct C as [|C]; simpl.
  - reflexivity.
  - destruct (Nat.lt_ge_cases C (length l)) as [Hlt|Hge].
    + rewrite cumsum_from_lookup by assumption.
      rewrite length_firstn.
      replace (S C `min` length l) with (S C) by lia.
      now rewrite Nat.eqb_refl.
    + rewrite lookup_ge_None_2.
      2:{ clear -Hge. revert x C Hge. induction l as [|y l IH]; intros x C Hge; simpl in *; [lia|].
          destruct C; [lia|]. specialize (IH (PrimFloat.add x y) C). simpl. lia. }
      rewrite firstn_all2 by lia.
      destruct (Nat.eqb_spec (length l) (S C)); [lia|reflexivity].
Qed.

Lemma length_cumsum (l : list float) : length (cumsum l) = length l.
Proof.
  destruct l as [|x l]; simpl; [reflexivity|]. f_equal.
  revert x. induction l as [|y l IH]; intros x; simpl; [reflexivity|].
  now rewrite IH.
Qed.

(* ====================================================================== *)
(** * Dimensionality reducer                                               *)
(* ====================================================================== *)

(** When some cumulative value reaches the target, the selected position is
    the first one that does. *)
Lemma first_reaching_index (cumvar : list float) (t : float) (j : nat) (v : float) :
  cumvar !! j = Some v -> F64.ge v t = true ->
  exists idx v',
    np_argmax_bool (map (fun c => F64.ge c t) cumvar) = Ok idx
    /\ idx <= j
    /\ cumvar !! idx = Some v' /\ F64.ge v' t = true
    /\ forall i w, i < idx -> cumvar !! i = Some w -> F64.ge w t = false.
Proof.
  intros Hj Hv.
  assert (Hmj : map (fun c => F64.ge c t) cumvar !! j = Some true)
    by now rewrite lookup_map, Hj; simpl; rewrite Hv.
  destruct (first_true_exists _ _ Hmj) as (idx & Hft & Hle).
  destruct (first_true_Some _ _ Hft) as [Hidx Hbefore].
  rewrite lookup_map in Hidx.
  destruct (cumvar !! idx) as [v'|] eqn:Ev'; [|discriminate]. simpl in Hidx.
  exists idx, v'. split.
  - unfold np_argmax_bool. destruct cumvar; [destruct j; discriminate|].
    cbn [map]. cbn [map] in Hft. now rewrite Hft.
  - split; [exact Hle|]. split; [exact Ev'|]. split; [congruence|].
    intros i w Hi Hw. specialize (Hbefore i Hi).
    rewrite lookup_map, Hw in Hbefore. simpl in Hbefore. congruence.
Qed.


(** C2. When some prefix of the components of the full decomposition
    reaches the configured target (0.90), [_perform_pca] selects the
    smallest C >= 1 whose cumulative explained-variance ratio is >= the
    target, and the reduced matrix it returns has C columns (a refit on C
    components succeeding and projecting on C columns being scikit-learn's
    contract). *)
Theorem perform_pca_smallest_component_count
  (matrix : Type) (n_columns : matrix -> nat)
  (PCA_fit : option nat -> matrix -> result (fitted_pca matrix))
  (X_scaled : matrix) (pca_full : fitted_pca matrix) :
  PCA_fit None X_scaled = Ok pca_full ->
  (forall c, 1 <= c <= length (explained_variance_ratio_ pca_full) ->
     exists pca, PCA_fit (Some c) X_scaled = Ok pca
                 /\ n_columns (transformed pca) = c) ->
  (exists C v, 1 <= C
     /\ cumulative_ratio (explained_variance_ratio_ pca_full) C = Some v
     /\ F64.ge v config.PCA_VARIANCE_TARGET = true) ->
  exists res,
    _perform_pca PCA_fit X_scaled = Ok res
    /\ config.PCA_VARIANCE_TARGET = 0.90%float
    /\ 1 <= n_components res
    /\ (exists v,
          cumulative_ratio (explained_variance_ratio_ pca_full) (n_components res)
          = Some v
          /\ F64.ge v config.PCA_VARIANCE_TARGET = true
          /\ total_variance_explained res = v)
    /\ (forall C' v', 1 <= C' < n_components res ->
          cumulative_ratio (explained_variance_ratio_ pca_full) C' = Some v' ->
          F64.ge v' config.PCA_VARIANCE_TARGET = false)
    /\ n_columns (X_pca res) = n_components res.
Proof.
  intros Hfull Hrefit (C & v & HC & Hv & Hge).
  rewrite <- cumsum_cumulative_ratio in Hv by assumption.
  destruct (first_reaching_index _ _ _ _ Hv Hge)
    as (idx & v' & E & Hle & Hv' & Hge' & Hmin).
  assert (Hlen : idx < length (explained_variance_ratio_ pca_full)).
  { rewrite <- length_cumsum. eapply lookup_lt_Some; eassumption. }
  destruct (Hrefit (idx + 1)) as (pca & Hpca & Hcols); [lia|].
  unfold _perform_pca, perform_pca_at. rewrite Hfull. simpl. rewrite E. simpl.
  replace (idx + 1 - 1) with idx by lia.
  unfold index. rewrite Hv'. simpl. rewrite Hpca. simpl.
  eexists. split; [reflexivity|]. simpl.
  split; [reflexivity|]. split; [lia|]. split; [|split].
  - exists v'. rewrite <- cumsum_cumulative_ratio by lia.
    replace (idx + 1 - 1) with idx by lia. auto.
  - intros C' w HC' Hw. rewrite <- cumsum_cumulative_ratio in Hw by lia.
    eapply Hmin; [|eassumption]. lia.
  - exact Hcols.
Qed.

Lemma perform_pca_smallest_component_count_witness :
  exists res,
    _perform_pca Sample.PCA_fit_631 Sample.X_three_features
    = Ok res
    /\ n_components res = 3
    /\ Sample.n_cols (X_pca res) = 3.
Proof.
  destruct (perform_pca_smallest_component_count
              (list (list float)) Sample.n_cols Sample.PCA_fit_631
              Sample.X_three_features
              (mk_fitted_pca _ Sample.ratios_631 Sample.X_three_features)
              eq_refl)
    as (res & E & _ & _ & _ & _ & Hcols).
  - intros c [Hc1 Hc3]. eexists. split; [reflexivity|].
    simpl in Hc3. destruct c as [|[|[|[|c]]]]; try lia; reflexivity.
  - exists 3, 0.99999999999999989%float.
    split; [lia|]. split; reflexivity.
  - exists res. split; [exact E|].
    rewrite Hcols. vm_compute in E. injection E as <-. split; reflexivity.
Defined.


(** When no running sum reaches the target, the mask is all False, the
    selected position is 0 and one component is kept, whatever the
    target. *)
Lemma perform_pca_unreached_target
  (matrix : Type) (PCA_fit : option nat -> matrix -> result (fitted_pca matrix))
  (X_scaled : matrix) (pca_full : fitted_pca matrix) (t : float)
  (r : pca_results matrix) :
  PCA_fit None X_scaled = Ok pca_full ->
  (forall C v, 1 <= C ->
     cumulative_ratio (explained_variance_ratio_ pca_full) C = Some v ->
     F64.ge v t = false) ->
  perform_pca_at PCA_fit t X_scaled = Ok r ->
  n_components r = 1.
Proof.
  intros Hfull Hno H. unfold perform_pca_at in H. rewrite Hfull in H. simpl in H.
  apply bind_Ok in H as (idx & Eidx & H).
  apply bind_Ok in H as (? & _ & H). apply bind_Ok in H as (? & _ & H).
  injection H as <-. simpl.
  assert (idx = 0); [|lia].
  unfold np_argmax_bool in Eidx.
  destruct (map _ (cumsum (explained_variance_ratio_ pca_full))) as [|b l] eqn:Em;
    [discriminate|].
  injection Eidx as <-. change (default 0 (first_true (b :: l)) = 0).
  destruct (first_true (b :: l)) as [i|] eqn:Ef; [|reflexivity].
  exfalso. apply first_true_Some in Ef as [Hi _]. rewrite <- Em in Hi.
  rewrite lookup_map in Hi.
  destruct (cumsum (explained_variance_ratio_ pca_full) !! i) as [v|] eqn:Ev;
    [|discriminate].
  simpl in Hi. injection Hi as Hi.
  rewrite (Hno (S i) v) in Hi; [discriminate|lia|].
  rewrite <- cumsum_cumulative_ratio by lia.
  now replace (S i - 1) with i by lia.
Qed.




(** Above the validated range the count can drop.  For a decomposition
    with explained-variance ratios 0.6, 0.3, 0.1 the float running sums are
    0.6, 0.8999999999999999 and 0.9999999999999999: at the target 0.90
    three components are selected, while at the target 1.0, which the
    shipped upper bound 0.95 excludes, no running sum reaches the target,
    [np.argmax] of the all-False mask is 0, and one component is
    selected. *)
Example perform_pca_count_drops_at_unreached_target :
  F64.le 0.90%float 1%float = true
  /\ cumsum Sample.ratios_631
     = [0.6; 0.89999999999999991; 0.99999999999999989]%float
  /\ exists r90 r100,
       perform_pca_at Sample.PCA_fit_631 0.90%float
         Sample.X_three_features = Ok r90
       /\ perform_pca_at Sample.PCA_fit_631 1%float
            Sample.X_three_features = Ok r100
       /\ n_components r90 = 3
       /\ n_components r100 = 1.
Proof.
  split; [reflexivity|]. split; [reflexivity|].
  eexists _, _. split; [vm_compute; reflexivity|].
  split; [vm_compute; reflexivity|]. split; reflexivity.
Qed.

(* ====================================================================== *)
(** * [np.argmax] and [np.nanargmax] on floats                             *)
(* ====================================================================== *)

Lemma first_max_at_snoc_keep (pre : list float) (x mp : float) (max_ind : nat) :
  pre !! max_ind = Some mp -> first_max_at pre max_ind ->
  F64.le x mp = true ->
  first_max_at (pre ++ [x]) max_ind.
Proof.
  intros Hmp (m & Hm & Hall & Hbefore) Hx.
  assert (m = mp) by congruence. subst m.
  assert (Hlt : max_ind < length pre) by (eapply lookup_lt_Some; eassumption).
  exists mp. split; [now rewrite lookup_app_l|]. split.
  - intros j y Hj. destruct (Nat.lt_ge_cases j (length pre)) as [Hjl|Hjl].
    + rewrite lookup_app_l in Hj by assumption. eauto.
    + rewrite lookup_app_r in Hj by assumption.
      destruct (j - length pre) as [|n]; simpl in Hj; [congruence|].
      destruct n; discriminate.
  - intros j y Hji Hj. rewrite lookup_app_l in Hj by lia. eauto.
Qed.

Lemma first_max_at_snoc_move (pre : list float) (x mp : float) (max_ind : nat) :
  pre !! max_ind = Some mp -> first_max_at pre max_ind ->
  F64.isnan x = false -> F64.lt mp x = true ->
  first_max_at (pre ++ [x]) (length pre).
Proof.
  intros Hmp (m & Hm & Hall & _) Hnan Hx.
  assert (m = mp) by congruence. subst m.
  assert (Hbelow : forall j y, pre !! j = Some y -> F64.lt y x = true).
  { intros j y Hj. eapply F64Facts.le_lt_trans; [eapply Hall; eassumption|exact Hx]. }
  exists x. split.
  - rewrite lookup_app_r by lia. now rewrite Nat.sub_diag.
  - split.
    + intros j y Hj. destruct (Nat.lt_ge_cases j (length pre)) as [Hjl|Hjl].
      * rewrite lookup_app_l in Hj by assumption.
        apply F64Facts.lt_le. eauto.
      * rewrite lookup_app_r in Hj by assumption.
        destruct (j - length pre) as [|n]; simpl in Hj.
        -- injection Hj as <-. now apply F64Facts.le_refl.
        -- destruct n; discriminate.
    + intros j y Hjl Hj. rewrite lookup_app_l in Hj by assumption. eauto.
Qed.

(** The scan invariant: after the prefix [pre], [max_ind] holds its first
    maximum [mp]. *)
Lemma argmax_scan_first_max (l pre : list float) (mp : float) (max_ind : nat) :
  Forall (fun x => F64.isnan x = false) (pre ++ l) ->
  pre !! max_ind = Some mp ->
  first_max_at pre max_ind ->
  first_max_at (pre ++ l) (argmax_scan mp max_ind (length pre) l).
Proof.
  revert pre mp max_ind. induction l as [|x l IH]; intros pre mp max_ind Hnan Hmp Hfm.
  - simpl. now rewrite app_nil_r.
  - assert (Hx : F64.isnan x = false).
    { rewrite Forall_forall in Hnan. apply Hnan. apply list_elem_of_In.
      apply in_or_app. right. left. reflexivity. }
    assert (Hmpn : F64.isnan mp = false).
    { rewrite Forall_forall in Hnan. apply Hnan.
      apply elem_of_app. left. eapply list_elem_of_lookup_2. eassumption. }
    assert (Happ : pre ++ x :: l = (pre ++ [x]) ++ l) by now rewrite <- app_assoc.
    assert (Hlen : S (length pre) = length (pre ++ [x]))
      by (rewrite length_app; simpl; lia).
    simpl. destruct (F64.le x mp) eqn:Hle; simpl.
    + rewrite Happ, Hlen. apply IH.
      * now rewrite <- Happ.
      * rewrite lookup_app_l; [assumption|]. eapply lookup_lt_Some; eassumption.
      * now apply first_max_at_snoc_keep with mp.
    + rewrite Hx. rewrite Happ, Hlen.
      assert (Hlt : F64.lt mp x = true) by now apply F64Facts.not_le_lt.
      replace (length pre) with (length (pre ++ [x]) - 1) at 1
        by (rewrite length_app; simpl; lia).
      rewrite <- Hlen. replace (S (length pre) - 1) with (length pre) by lia.
      rewrite Hlen. apply IH.
      * now rewrite <- Happ.
      * rewrite lookup_app_r by lia. now rewrite Nat.sub_diag.
      * now apply first_max_at_snoc_move with mp max_ind.
Qed.

Lemma np_argmax_first_max (l : list float) :
  l <> [] -> Forall (fun x => F64.isnan x = false) l ->
  exists i, np_argmax l = Ok i /\ first_max_at l i.
Proof.
  intros Hne Hnan. destruct l as [|x l]; [congruence|]. clear Hne.
  assert (Hx : F64.isnan x = false) by now inversion Hnan.
  unfold np_argmax. rewrite Hx. eexists. split; [reflexivity|].
  apply (argmax_scan_first_max l [x] x 0); [assumption|reflexivity|].
  exists x. split; [reflexivity|]. split.
  - intros [|[|j]] y Hj; simpl in Hj; try discriminate.
    injection Hj as <-. now apply F64Facts.le_refl.
  - intros j y Hj. lia.
Qed.

Lemma forallb_isnan_false (l : list float) :
  forallb F64.isnan l = false <-> exists j x, l !! j = Some x /\ F64.isnan x = false.
Proof.
  induction l as [|y l IH]; simpl.
  - split; [discriminate|]. intros (j & x & Hj & _). destruct j; discriminate.
  - destruct (F64.isnan y) eqn:Hy; simpl.
    + rewrite IH. split.
      * intros (j & x & Hj & Hx). exists (S j), x. auto.
      * intros ([|j] & x & Hj & Hx); simpl in Hj; [congruence|]. eauto.
    + split; [|reflexivity]. intros _. exists 0, y. auto.
Qed.

(** On a NaN-free, non-empty array [np.nanargmax] is [np.argmax]. *)
Lemma np_nanargmax_no_nan (l : list float) :
  l <> [] -> Forall (fun x => F64.isnan x = false) l ->
  exists i, np_nanargmax l = Ok i /\ first_max_at l i.
Proof.
  intros Hne Hnan. unfold np_nanargmax.
  assert (Hall : forallb F64.isnan l = false).
  { destruct l as [|x l]; [congruence|]. simpl. inversion Hnan as [|? ? Hx _]; subst.
    now rewrite Hx. }
  rewrite Hall.
  assert (Hmap : map (fun x => if F64.isnan x then F64.neg_inf else x) l = l).
  { clear -Hnan. induction Hnan as [|x l Hx _ IH]; simpl; [reflexivity|].
    now rewrite Hx, IH. }
  rewrite Hmap. now apply np_argmax_first_max.
Qed.

(** In general [np.nanargmax] returns the first maximum among the non-NaN
    entries, provided each of them is above -inf. *)
Lemma np_nanargmax_spec (l : list float) :
  forallb F64.isnan l = false ->
  (forall j x, l !! j = Some x -> F64.isnan x = false ->
               F64.lt F64.neg_inf x = true) ->
  exists i m,
    np_nanargmax l = Ok i
    /\ l !! i = Some m /\ F64.isnan m = false
    /\ (forall j x, l !! j = Some x -> F64.isnan x = false -> F64.le x m = true)
    /\ (forall j x, j < i -> l !! j = Some x -> F64.isnan x = false ->
                    F64.lt x m = true).
Proof.
  intros Hall Habove. unfold np_nanargmax. rewrite Hall.
  set (fill := fun x => if F64.isnan x then F64.neg_inf else x).
  apply forallb_isnan_false in Hall as (j0 & x0 & Hj0 & Hx0).
  destruct (np_argmax_first_max (map fill l)) as (i & E & m' & Hm' & Hle & Hlt).
  { destruct l; [destruct j0; discriminate|discriminate]. }
  { apply Forall_forall. intros y Hy. apply list_elem_of_In, in_map_iff in Hy.
    destruct Hy as (x & <- & _). unfold fill.
    destruct (F64.isnan x) eqn:Hx; [reflexivity|assumption]. }
  rewrite lookup_map in Hm'. destruct (l !! i) as [m|] eqn:Hm; [|discriminate].
  simpl in Hm'. injection Hm' as <-.
  assert (Hfill : forall j x, l !! j = Some x -> F64.isnan x = false ->
                              map fill l !! j = Some x).
  { intros j x Hj Hx. rewrite lookup_map, Hj. simpl. unfold fill. now rewrite Hx. }
  assert (Hm_nan : F64.isnan m = false).
  { destruct (F64.isnan m) eqn:Hmn; [|reflexivity].
    pose proof (Hle j0 x0 (Hfill j0 x0 Hj0 Hx0)) as H1.
    pose proof (Habove j0 x0 Hj0 Hx0) as H2.
    pose proof (F64Facts.lt_le_trans _ _ _ H2 H1) as H3.
    unfold fill in H3. rewrite Hmn in H3. discriminate H3. }
  exists i, m. split; [exact E|]. split; [exact Hm|]. split; [exact Hm_nan|].
  assert (Hfm : fill m = m) by (unfold fill; now rewrite Hm_nan).
  rewrite Hfm in Hle, Hlt. split.
  - intros j x Hj Hx. eapply Hle. eauto.
  - intros j x Hji Hj Hx. eapply Hlt; eauto.
Qed.

(* ====================================================================== *)
(** * Cluster selector                                                     *)
(* ====================================================================== *)

Lemma for_collect {A B} (f : A -> result B) (ks : list A) (acc rows : list B) :
  Forall2 (fun k row => f k = Ok row) ks rows ->
  for_ ks (fun k acc => row ← f k; Ok (acc ++ [row])) acc = Ok (acc ++ rows).
Proof.
  intros H. revert acc. induction H as [|k row ks rows Hk _ IH]; intros acc; simpl.
  - now rewrite app_nil_r.
  - rewrite Hk. simpl. rewrite IH. now rewrite <- app_assoc.
Qed.

Lemma Forall2_of_pointwise {A B} (P : A -> B -> Prop) (ks : list A) :
  (forall k, In k ks -> exists b, P k b) -> exists bs, Forall2 P ks bs.
Proof.
  induction ks as [|k ks IH]; intros H.
  - exists []. constructor.
  - destruct (H k (or_introl eq_refl)) as [b Hb].
    destruct IH as [bs Hbs]; [intros k' Hk'; apply H; now right|].
    exists (b :: bs). now constructor.
Qed.

Section ClusterSelectorFacts.

Variable matrix : Type.
Variable labels : Type.
Variable KMeans_fit_predict : nat -> matrix -> result (labels * float).
Variable silhouette_score : matrix -> labels -> result float.

(** The silhouette recorded for [k] does not depend on the other two
    indices. *)
Lemma cluster_metrics_silhouette
  (ch db ch' db' : matrix -> labels -> result float) (X : matrix) (k : nat)
  (row row' : metrics_row labels) :
  cluster_metrics KMeans_fit_predict silhouette_score ch db X k = Ok row ->
  cluster_metrics KMeans_fit_predict silhouette_score ch' db' X k = Ok row' ->
  mr_silhouette row = mr_silhouette row' /\ mr_k row = k /\ mr_k row' = k.
Proof.
  unfold cluster_metrics. intros H H'.
  destruct (KMeans_fit_predict k X) as [[lab inertia]|]; simpl in *; [|discriminate].
  destruct (silhouette_score X lab) as [s|]; simpl in *; [|discriminate].
  destruct (ch X lab); simpl in *; [|discriminate].
  destruct (db X lab); simpl in *; [|discriminate].
  destruct (ch' X lab); simpl in *; [|discriminate].
  destruct (db' X lab); simpl in *; [|discriminate].
  injection H as <-. injection H' as <-. auto.
Qed.

Variable calinski_harabasz_score : matrix -> labels -> result float.
Variable davies_bouldin_score : matrix -> labels -> result float.

Local Abbreviation metrics_of :=
  (cluster_metrics KMeans_fit_predict silhouette_score
     calinski_harabasz_score davies_bouldin_score).
Local Abbreviation optimize :=
  (_optimize_clustering KMeans_fit_predict silhouette_score
     calinski_harabasz_score davies_bouldin_score).

Lemma cluster_metrics_k (X : matrix) (k : nat) (row : metrics_row labels) :
  metrics_of X k = Ok row -> mr_k row = k.
Proof.
  intros H. now destruct (cluster_metrics_silhouette _ _ _ _ X k row row H H) as (_ & ? & _).
Qed.

(** What a row of the scan holds: the labels and the inertia of the
    k-means fit, and the three indices computed on those labels. *)
Lemma cluster_metrics_calls (X : matrix) (k : nat) (row : metrics_row labels) :
  metrics_of X k = Ok row ->
  KMeans_fit_predict k X = Ok (mr_labels row, mr_inertia row)
  /\ silhouette_score X (mr_labels row) = Ok (mr_silhouette row)
  /\ calinski_harabasz_score X (mr_labels row) = Ok (mr_calinski_harabasz row)
  /\ davies_bouldin_score X (mr_labels row) = Ok (mr_davies_bouldin row)
  /\ mr_k row = k.
Proof.
  unfold cluster_metrics. intros H.
  destruct (KMeans_fit_predict k X) as [[lab inertia]|]; simpl in *; [|discriminate].
  destruct (silhouette_score X lab) as [s|] eqn:Es; simpl in *; [|discriminate].
  destruct (calinski_harabasz_score X lab) as [c|] eqn:Ec; simpl in *; [|discriminate].
  destruct (davies_bouldin_score X lab) as [d|] eqn:Ed; simpl in *; [|discriminate].
  injection H as <-. simpl. auto.
Qed.

(** One run of the selector, given the rows the scan produces. *)
Lemma optimize_clustering_run (X : matrix) (rows : list (metrics_row labels)) :
  Forall2 (fun k row => metrics_of X k = Ok row) config.CLUSTERING_K_RANGE rows ->
  Forall (fun x => F64.isnan x = false) (map mr_silhouette rows) ->
  exists i opt,
    idxmax (map mr_silhouette rows) = Ok i
    /\ first_max_at (map mr_silhouette rows) i
    /\ rows !! i = Some opt
    /\ optimize X
       = Ok (mk_clustering_results labels (map drop_labels rows)
               (mr_k opt) (mr_labels opt) (mr_silhouette opt)
               (mr_calinski_harabasz opt) (mr_davies_bouldin opt)).
Proof.
  intros Hrows Hnan.
  destruct (np_nanargmax_no_nan (map mr_silhouette rows)) as (i & E & Hfm).
  { apply Forall2_length in Hrows. destruct rows; [discriminate Hrows|discriminate]. }
  { assumption. }
  pose proof Hfm as (m & Hm & _).
  rewrite lookup_map in Hm. destruct (rows !! i) as [opt|] eqn:Hopt; [|discriminate].
  exists i, opt. split; [exact E|]. split; [exact Hfm|]. split; [exact Hopt|].
  unfold _optimize_clustering.
  rewrite (for_collect _ _ [] rows Hrows). simpl.
  unfold idxmax in E |- *. rewrite E. simpl. unfold index. rewrite Hopt. reflexivity.
Qed.

End ClusterSelectorFacts.

(** C1. The scan runs over k = 2, ..., 10 in ascending order and the k it
    returns is the smallest one whose silhouette is maximal over the scan:
    no scanned k has a larger silhouette and every smaller k has a strictly
    smaller one.  The reported table has, for each scanned k in order, the
    silhouette, Calinski-Harabasz and Davies-Bouldin values computed on the
    labels of the k-means fit for that k, with the fit's inertia, and the
    reported optimal labels and three optimal indices are those of the
    selected k.  Replacing the Calinski-Harabasz and Davies-Bouldin scorers
    by any others leaves the selected k unchanged.  (The clustering and
    scoring calls are assumed to succeed with a silhouette that is a
    number.) *)
Theorem optimize_clustering_selects_first_best_silhouette
  (matrix labels : Type)
  (KMeans_fit_predict : nat -> matrix -> result (labels * float))
  (silhouette_score calinski_harabasz_score davies_bouldin_score
     : matrix -> labels -> result float)
  (X_pca : matrix) :
  (forall k, In k config.CLUSTERING_K_RANGE ->
     exists row,
       cluster_metrics KMeans_fit_predict silhouette_score
         calinski_harabasz_score davies_bouldin_score X_pca k = Ok row
       /\ F64.isnan (mr_silhouette row) = false) ->
  exists res,
    _optimize_clustering KMeans_fit_predict silhouette_score
      calinski_harabasz_score davies_bouldin_score X_pca = Ok res
    /\ map (fun r => fst (fst (fst (fst r)))) (clustering_metrics res)
       = [2; 3; 4; 5; 6; 7; 8; 9; 10]
    /\ In (optimal_k res) config.CLUSTERING_K_RANGE
    /\ (exists best,
          cluster_metrics KMeans_fit_predict silhouette_score
            calinski_harabasz_score davies_bouldin_score X_pca (optimal_k res)
          = Ok best
          /\ optimal_silhouette res = mr_silhouette best
          /\ forall k row,
               In k config.CLUSTERING_K_RANGE ->
               cluster_metrics KMeans_fit_predict silhouette_score
                 calinski_harabasz_score davies_bouldin_score X_pca k = Ok row ->
               F64.le (mr_silhouette row) (mr_silhouette best) = true
               /\ (k < optimal_k res ->
                   F64.lt (mr_silhouette row) (mr_silhouette best) = true))
    /\ Forall2
         (fun k (reported : nat * float * float * float * float) =>
            exists labels_k inertia silhouette calinski davies,
              KMeans_fit_predict k X_pca = Ok (labels_k, inertia)
              /\ silhouette_score X_pca labels_k = Ok silhouette
              /\ calinski_harabasz_score X_pca labels_k = Ok calinski
              /\ davies_bouldin_score X_pca labels_k = Ok davies
              /\ reported = (k, silhouette, calinski, davies, inertia))
         config.CLUSTERING_K_RANGE (clustering_metrics res)
    /\ (exists inertia,
          KMeans_fit_predict (optimal_k res) X_pca
          = Ok (optimal_labels res, inertia)
          /\ silhouette_score X_pca (optimal_labels res)
             = Ok (optimal_silhouette res)
          /\ calinski_harabasz_score X_pca (optimal_labels res)
             = Ok (optimal_calinski res)
          /\ davies_bouldin_score X_pca (optimal_labels res)
             = Ok (optimal_davies res))
    /\ (forall ch' db' : matrix -> labels -> result float,
          (forall k, In k config.CLUSTERING_K_RANGE ->
             exists row,
               cluster_metrics KMeans_fit_predict silhouette_score
                 ch' db' X_pca k = Ok row) ->
          exists res',
            _optimize_clustering KMeans_fit_predict
              silhouette_score ch' db' X_pca = Ok res'
            /\ optimal_k res' = optimal_k res).
Proof.
  intros Hscan.
  destruct (Forall2_of_pointwise
              (fun k row =>
                 cluster_metrics KMeans_fit_predict silhouette_score
                   calinski_harabasz_score davies_bouldin_score X_pca k = Ok row)
              config.CLUSTERING_K_RANGE) as [rows Hrows].
  { intros k Hk. destruct (Hscan k Hk) as (row & Hrow & _). eauto. }
  assert (Hnan : Forall (fun x => F64.isnan x = false) (map mr_silhouette rows)).
  { apply Forall_forall. intros s Hs. apply list_elem_of_In, in_map_iff in Hs.
    destruct Hs as (row & <- & Hin). apply list_elem_of_In, list_elem_of_lookup_1 in Hin.
    destruct Hin as [j Hj].
    destruct (Forall2_lookup_r _ _ _ _ _ Hrows Hj) as (k & Hk & Hrow).
    destruct (Hscan k) as (row' & Hrow' & Hn).
    { apply list_elem_of_In. eapply list_elem_of_lookup_2. eassumption. }
    congruence. }
  assert (Hks : forall j row, rows !! j = Some row ->
                  config.CLUSTERING_K_RANGE !! j = Some (mr_k row)
                  /\ cluster_metrics KMeans_fit_predict silhouette_score
                       calinski_harabasz_score davies_bouldin_score X_pca (mr_k row)
                     = Ok row).
  { intros j row Hj. destruct (Forall2_lookup_r _ _ _ _ _ Hrows Hj) as (k & Hk & Hrow).
    pose proof (cluster_metrics_k _ _ _ _ _ _ _ _ _ Hrow) as Ek. rewrite Ek. auto. }
  destruct (optimize_clustering_run _ _ _ _ _ _ X_pca rows Hrows Hnan)
    as (i & opt & Ei & Hfm & Hopt & Erun).
  destruct (Hks i opt Hopt) as [Hki Hbest].
  eexists. split; [exact Erun|].
  cbn [clustering_metrics optimal_k optimal_silhouette optimal_labels
       optimal_calinski optimal_davies].
  split; [|split; [|split; [|split; [|split]]]].
  - rewrite map_map.
    transitivity (map mr_k rows); [reflexivity|].
    transitivity config.CLUSTERING_K_RANGE; [|reflexivity].
    clear -Hrows. induction Hrows as [|k row ks rs Hk _ IH]; simpl; [reflexivity|].
    f_equal; [|exact IH]. eapply cluster_metrics_k. eassumption.
  - apply list_elem_of_In. eapply list_elem_of_lookup_2. eassumption.
  - exists opt. split; [exact Hbest|]. split; [reflexivity|].
    intros k row Hk Hrow.
    apply list_elem_of_In, list_elem_of_lookup_1 in Hk. destruct Hk as [j Hj].
    destruct (Forall2_lookup_l _ _ _ _ _ Hrows Hj) as (row' & Hj' & Hrow').
    assert (row' = row) by congruence. subst row'.
    destruct Hfm as (m & Hm & Hle & Hlt).
    rewrite lookup_map, Hopt in Hm. simpl in Hm. injection Hm as <-.
    assert (Hsj : map mr_silhouette rows !! j = Some (mr_silhouette row))
      by now rewrite lookup_map, Hj'.
    split; [eapply Hle; eassumption|].
    intros Hlt_k. eapply Hlt; [|eassumption].
    unfold config.CLUSTERING_K_RANGE in Hj, Hki.
    apply lookup_seq in Hj as [-> _]. apply lookup_seq in Hki as [Eki _].
    rewrite Eki in Hlt_k. lia.
  - clear -Hrows. induction Hrows as [|k row ks rs Hk _ IH]; simpl;
      constructor; [|exact IH].
    apply cluster_metrics_calls in Hk as (Hfit & Hs & Hc & Hd & Ek).
    exists (mr_labels row), (mr_inertia row), (mr_silhouette row),
           (mr_calinski_harabasz row), (mr_davies_bouldin row).
    unfold drop_labels. rewrite Ek. auto.
  - apply cluster_metrics_calls in Hbest as (Hfit & Hs & Hc & Hd & _).
    exists (mr_inertia opt). auto.
  - intros ch' db' Hscan'.
    destruct (Forall2_of_pointwise
                (fun k row =>
                   cluster_metrics KMeans_fit_predict silhouette_score
                     ch' db' X_pca k = Ok row)
                config.CLUSTERING_K_RANGE Hscan') as [rows' Hrows'].
    assert (Hsame : map mr_silhouette rows' = map mr_silhouette rows).
    { clear -Hrows Hrows'. revert rows' Hrows'.
      induction Hrows as [|k row ks rs Hk _ IH]; intros rows' Hrows';
        inversion Hrows' as [|? row' ? rs' Hk' Hrs']; subst; simpl; [reflexivity|].
      f_equal; [|now apply IH].
      now destruct (cluster_metrics_silhouette _ _ _ _ _ _ _ _ _ _ _ _ Hk' Hk). }
    assert (Hnan' : Forall (fun x => F64.isnan x = false) (map mr_silhouette rows'))
      by now rewrite Hsame.
    destruct (optimize_clustering_run _ _ _ _ _ _ X_pca rows' Hrows' Hnan')
      as (i' & opt' & Ei' & _ & Hopt' & Erun').
    rewrite Hsame, Ei in Ei'. injection Ei' as <-.
    eexists. split; [exact Erun'|]. cbn [optimal_k].
    destruct (Forall2_lookup_r _ _ _ _ _ Hrows' Hopt') as (k' & Hk' & Hrow').
    pose proof (cluster_metrics_k _ _ _ _ _ _ _ _ _ Hrow') as Ek'.
    rewrite Hki in Hk'. congruence.
Qed.

(* ====================================================================== *)
(** * Loops that collect rows                                              *)
(* ====================================================================== *)

Lemma for_collect_gen {A B C} (f : A -> result B) (g : B -> list C)
  (ks : list A) (acc : list C) (rs : list B) :
  Forall2 (fun k r => f k = Ok r) ks rs ->
  for_ ks (fun k acc => r ← f k; Ok (acc ++ g r)) acc
  = Ok (acc ++ flat_map g rs).
Proof.
  intros H. revert acc. induction H as [|k r ks rs Hk _ IH]; intros acc; simpl.
  - now rewrite app_nil_r.
  - rewrite Hk. simpl. rewrite IH. now rewrite <- app_assoc.
Qed.

Lemma for_collect_gen_inv {A B C} (f : A -> result B) (g : B -> list C)
  (ks : list A) (acc out : list C) :
  for_ ks (fun k acc => r ← f k; Ok (acc ++ g r)) acc = Ok out ->
  exists rs, Forall2 (fun k r => f k = Ok r) ks rs /\ out = acc ++ flat_map g rs.
Proof.
  revert acc. induction ks as [|k ks IH]; intros acc; simpl.
  - intros [= <-]. exists []. split; [constructor|now rewrite app_nil_r].
  - destruct (f k) as [r|e] eqn:Hk; simpl; [|discriminate].
    intros H. destruct (IH _ H) as (rs & Hrs & ->).
    exists (r :: rs). split; [now constructor|]. simpl. now rewrite <- app_assoc.
Qed.

Lemma flat_map_singleton {A} (l : list A) : flat_map (fun x => [x]) l = l.
Proof. induction l as [|x l IH]; simpl; [reflexivity|now rewrite IH]. Qed.

(* ====================================================================== *)
(** * Lag/rolling scanner: the optimal offset                              *)
(* ====================================================================== *)

Lemma row_values_length (cells : dict float) (cols : list string) (vs : list float) :
  row_values cells cols = Ok vs -> length vs = length cols.
Proof.
  revert vs. induction cols as [|c cols IH]; intros vs; simpl.
  - now intros [= <-].
  - destruct (getitem cells c); simpl; [|discriminate].
    destruct (row_values cells cols) as [vs'|]; simpl; [|discriminate].
    intros [= <-]. simpl. f_equal. now apply IH.
Qed.

Lemma row_values_lookup (cells : dict float) (cols : list string)
  (vs : list float) (i : nat) (c : string) (v : float) :
  row_values cells cols = Ok vs ->
  cols !! i = Some c -> vs !! i = Some v -> dict_get cells c = Some v.
Proof.
  revert vs i. induction cols as [|c0 cols IH]; intros vs i; simpl.
  - intros _ Hc. destruct i; discriminate.
  - unfold getitem. destruct (dict_get cells c0) as [v0|] eqn:E0; simpl;
      [|discriminate].
    destruct (row_values cells cols) as [vs'|]; simpl; [|discriminate].
    intros [= <-] Hc Hv. destruct i as [|i]; simpl in Hc, Hv.
    + congruence.
    + eapply IH; eauto.
Qed.

Arguments row_values : simpl never.
Arguments rows_of_variable : simpl never.
Arguments optimal_of : simpl never.

(** The reported correlation is the cell of the reported week. *)
Lemma optimal_spec_cell (cells : dict float) (corrs : list float)
  (week : week_value) (corr : float) (w : nat) :
  row_values cells lag_cols = Ok corrs ->
  optimal_spec corrs week corr ->
  week = WeekInt w ->
  dict_get cells (lag_col w) = Some corr.
Proof.
  intros Hrow Hspec ->. unfold optimal_spec in Hspec.
  destruct (forallb F64.isnan corrs); [destruct Hspec; discriminate|].
  destruct Hspec as (idx & w' & [= <-] & Hw & Hc & _).
  eapply row_values_lookup; [exact Hrow| |exact Hc].
  unfold lag_cols. now rewrite lookup_map, Hw.
Qed.

Lemma forallb_isnan_fabs (l : list float) :
  forallb F64.isnan (map F64.fabs l) = forallb F64.isnan l.
Proof.
  induction l as [|x l IH]; simpl; [reflexivity|].
  now rewrite F64Facts.isnan_fabs, IH.
Qed.

(** The selection block returns, and what it returns meets the
    specification of an optimum, whenever there is one correlation per
    scanned offset. *)
Lemma optimal_of_spec (corrs : list float) :
  length corrs = length config.LAG_RANGE ->
  exists week corr,
    optimal_of corrs = Ok (week, corr) /\ optimal_spec corrs week corr.
Proof.
  intros Hlen. unfold optimal_of, optimal_spec.
  rewrite forallb_isnan_fabs.
  destruct (forallb F64.isnan corrs) eqn:Hall; simpl.
  - eexists _, _. split; [reflexivity|]. auto.
  - destruct (np_nanargmax_spec (map F64.fabs corrs))
      as (i & m & E & Hm & Hmn & Hle & _).
    { now rewrite forallb_isnan_fabs. }
    { intros j x Hj Hx. rewrite lookup_map in Hj.
      destruct (corrs !! j) as [c|]; [|discriminate]. simpl in Hj.
      injection Hj as <-. apply F64Facts.neg_inf_lt_fabs.
      now rewrite F64Facts.isnan_fabs in Hx. }
    rewrite E. simpl. rewrite lookup_map in Hm.
    destruct (corrs !! i) as [c0|] eqn:Hc0; [|discriminate].
    simpl in Hm. injection Hm as <-.
    assert (Hi : i < length config.LAG_RANGE).
    { rewrite <- Hlen. eapply lookup_lt_Some. eassumption. }
    destruct (lookup_lt_is_Some_2 _ _ Hi) as [w Hw].
    unfold index. rewrite Hw. simpl. rewrite Hc0. simpl.
    eexists _, _. split; [reflexivity|].
    exists i, w. split; [reflexivity|]. split; [exact Hw|]. split; [exact Hc0|].
    split; [now rewrite F64Facts.isnan_fabs in Hmn|].
    intros j c Hj Hc. apply (Hle j).
    + now rewrite lookup_map, Hj.
    + now rewrite F64Facts.isnan_fabs.
Qed.

Lemma optimal_of_Ok (corrs : list float) (week : week_value) (corr : float) :
  length corrs = length config.LAG_RANGE ->
  optimal_of corrs = Ok (week, corr) -> optimal_spec corrs week corr.
Proof.
  intros Hlen H. destruct (optimal_of_spec corrs Hlen) as (w & c & E & Hs).
  congruence.
Qed.

Lemma filter_head_find {A} (f : A -> bool) (l : list A) :
  List.find f l = match List.filter f l with
                  | x :: _ => Some x
                  | [] => None
                  end.
Proof.
  induction l as [|x l IH]; simpl; [reflexivity|].
  destruct (f x); [reflexivity|exact IH].
Qed.

Lemma optimal_lag_of_row_Ok (lag_rolling_df : list lag_row) (row : lag_row)
  (o : optimal_lag) :
  optimal_lag_of_row lag_rolling_df row = Ok o ->
  optimal_lag_meets_spec lag_rolling_df row o.
Proof.
  unfold optimal_lag_of_row. intros H.
  apply bind_Ok in H as (corrs & Hcorrs & H).
  apply bind_Ok in H as ([week corr] & Hopt & H).
  apply bind_Ok in H as (rolling_row & Hroll & H).
  apply bind_Ok in H as ([rweek rcorr] & Hropt & H).
  injection H as <-. unfold optimal_lag_meets_spec.
  cbn [ol_variable optimal_lag_simple_weeks optimal_lag_simple_correlation
       optimal_lag_rolling_weeks optimal_lag_rolling_correlation].
  assert (Hs : optimal_spec corrs week corr).
  { apply optimal_of_Ok; [|exact Hopt].
    pose proof (row_values_length _ _ _ Hcorrs) as Hl. rewrite Hl.
    unfold lag_cols. apply length_map. }
  split; [reflexivity|]. split; [|split].
  - exists corrs. split; [exact Hcorrs|exact Hs].
  - intros w Hw. eapply optimal_spec_cell; eassumption.
  - rewrite filter_head_find.
    assert (Hrows : rolling_row
                    = List.filter
                        (fun r => String.eqb (lr_variable r) (lr_variable row))
                        lag_rolling_df).
    { unfold rows_of_variable in Hroll.
      destruct lag_rolling_df; [discriminate|now injection Hroll]. }
    subst rolling_row.
    destruct (List.filter _ lag_rolling_df) as [|first_row rest].
    + now injection Hropt as <- <-.
    + apply bind_Ok in Hropt as (rcorrs & Hrcorrs & Hropt).
      assert (Hrs : optimal_spec rcorrs rweek rcorr).
      { apply optimal_of_Ok; [|exact Hropt].
        pose proof (row_values_length _ _ _ Hrcorrs) as Hl. rewrite Hl.
        unfold lag_cols. apply length_map. }
      split.
      * exists rcorrs. split; [exact Hrcorrs|exact Hrs].
      * intros w Hw. eapply optimal_spec_cell; eassumption.
Qed.

Lemma optimal_lag_of_row_returns (lag_rolling_df : list lag_row) (row : lag_row) :
  lag_rolling_df <> [] ->
  (forall r, In r (row :: lag_rolling_df) ->
             exists corrs, row_values (lr_cells r) lag_cols = Ok corrs) ->
  exists o, optimal_lag_of_row lag_rolling_df row = Ok o.
Proof.
  intros Hne Hwf. unfold optimal_lag_of_row.
  destruct (Hwf row (or_introl eq_refl)) as [corrs Hcorrs]. rewrite Hcorrs. simpl.
  destruct (optimal_of_spec corrs) as (week & corr & E & _).
  { apply row_values_length in Hcorrs. rewrite Hcorrs. unfold lag_cols.
    apply length_map. }
  rewrite E. simpl.
  assert (Hrv : rows_of_variable lag_rolling_df (lr_variable row)
                = Ok (List.filter
                        (fun r => String.eqb (lr_variable r) (lr_variable row))
                        lag_rolling_df)).
  { unfold rows_of_variable. destruct lag_rolling_df; [congruence|reflexivity]. }
  rewrite Hrv. simpl.
  destruct (List.filter _ lag_rolling_df) as [|first_row rest] eqn:Ef.
  - simpl. eauto.
  - assert (Hin : In first_row lag_rolling_df).
    { assert (H : In first_row (List.filter
                      (fun r => String.eqb (lr_variable r) (lr_variable row))
                      lag_rolling_df)) by (rewrite Ef; now left).
      now apply filter_In in H as [H _]. }
    destruct (Hwf first_row (or_intror Hin)) as [rcorrs Hrcorrs].
    rewrite Hrcorrs. simpl.
    destruct (optimal_of_spec rcorrs) as (rweek & rcorr & Er & _).
    { apply row_values_length in Hrcorrs. rewrite Hrcorrs. unfold lag_cols.
      apply length_map. }
    rewrite Er. simpl. eauto.
Qed.

(** The optimal-lag table, when it is produced.  Every entry is for the
    variable of the
    corresponding row of the simple-lag table, and in each family (simple,
    rolling) the reported pair is an optimum of the correlations scanned
    for that variable: when some correlation is a number, the reported
    correlation is one of them, it is the table's cell of the reported
    week, and no scanned non-NaN correlation has a larger absolute value;
    when all are NaN (or the variable has no rolling row), week and
    correlation are both NaN.
    The table is produced whenever every row carries the twelve lag cells
    and the rolling table has a row (or the simple table has none). *)
Theorem find_optimal_lags_reports_max_abs_correlation
  (lag_simple_df lag_rolling_df : list lag_row) :
  (forall optimal_lags,
     _find_optimal_lags lag_simple_df lag_rolling_df = Ok optimal_lags ->
     Forall2 (optimal_lag_meets_spec lag_rolling_df) lag_simple_df optimal_lags)
  /\ ((forall r, In r (lag_simple_df ++ lag_rolling_df) ->
                 exists corrs, row_values (lr_cells r) lag_cols = Ok corrs) ->
      lag_simple_df = [] \/ lag_rolling_df <> [] ->
      exists optimal_lags,
        _find_optimal_lags lag_simple_df lag_rolling_df = Ok optimal_lags).
Proof.
  unfold _find_optimal_lags. split.
  - intros out H.
    apply (for_collect_gen_inv (optimal_lag_of_row lag_rolling_df) (fun o => [o]))
      in H as (rs & Hrs & ->).
    rewrite flat_map_singleton. simpl.
    eapply Forall2_impl; [exact Hrs|].
    intros row o Ho. now apply optimal_lag_of_row_Ok.
  - intros Hwf [->|Hne]; [simpl; eauto|].
    destruct (Forall2_of_pointwise
                (fun row o => optimal_lag_of_row lag_rolling_df row = Ok o)
                lag_simple_df) as [rs Hrs].
    { intros row Hrow. apply optimal_lag_of_row_returns; [exact Hne|].
      intros r [<-|Hr]; apply Hwf; apply in_or_app; auto. }
    eexists.
    apply (for_collect_gen (optimal_lag_of_row lag_rolling_df) (fun o => [o])).
    exact Hrs.
Qed.

(** C4 fails on the code.  For a variable whose row of the simple-lag
    table carries the twelve lag cells, [_find_optimal_lags] reports
    nothing when the rolling table is empty: the frame built from no rows
    has no ['variable'] column and filtering on it raises KeyError,
    whatever the scanned correlations are.  The claim has the optimum of
    the simple family reported, and NaN for the rolling family, of which
    nothing was scanned.  The sibling branch does that: when the rolling
    table has a row, but none for the variable, the entry is produced with
    the optimum of the simple family and NaN for the rolling week and
    correlation. *)
Theorem find_optimal_lags_raises_on_empty_rolling_table
  (row other : lag_row) (rest : list lag_row) :
  (exists corrs, row_values (lr_cells row) lag_cols = Ok corrs) ->
  lr_variable other <> lr_variable row ->
  _find_optimal_lags (row :: rest) [] = Raise KeyError
  /\ exists o corrs,
       _find_optimal_lags [row] [other] = Ok [o]
       /\ ol_variable o = lr_variable row
       /\ row_values (lr_cells row) lag_cols = Ok corrs
       /\ optimal_spec corrs (optimal_lag_simple_weeks o)
            (optimal_lag_simple_correlation o)
       /\ optimal_lag_rolling_weeks o = WeekFloat F64.nan
       /\ optimal_lag_rolling_correlation o = F64.nan.
Proof.
  intros [corrs Hcorrs] Hother.
  destruct (optimal_of_spec corrs) as (week & corr & Eopt & Hspec).
  { apply row_values_length in Hcorrs. rewrite Hcorrs. unfold lag_cols.
    apply length_map. }
  split.
  - unfold _find_optimal_lags. cbn [for_]. unfold optimal_lag_of_row.
    rewrite Hcorrs. simpl. rewrite Eopt. reflexivity.
  - exists (mk_optimal_lag (lr_variable row) week corr
              (WeekFloat F64.nan) F64.nan), corrs.
    split; [|now repeat split].
    unfold _find_optimal_lags. cbn [for_]. unfold optimal_lag_of_row.
    rewrite Hcorrs. simpl. rewrite Eopt. simpl.
    unfold rows_of_variable. cbn [List.filter].
    destruct (String.eqb_spec (lr_variable other) (lr_variable row)) as [E|_];
      [contradiction|].
    reflexivity.
Qed.

(* ====================================================================== *)
(** * Lag/rolling scanner: which column a week is matched to               *)
(* ====================================================================== *)

Lemma lag_names_unambiguous_true : lag_names_unambiguous = true.
Proof. vm_compute. reflexivity. Qed.

Lemma lag_names_facts (variable lag_type : string) (w : nat) :
  In variable config.LAG_VARIABLES ->
  lag_type = "simple"%string \/ lag_type = "rolling"%string ->
  In w config.LAG_RANGE ->
  (forall c, In c (lag_patterns variable lag_type w) ->
             str_contains (str_of_nat w) c = true)
  /\ (forall w' c, In w' (seq 1 (w - 1)) ->
                   In c (lag_patterns variable lag_type w') ->
                   str_contains (str_of_nat w) c = false).
Proof.
  intros Hv Ht Hw.
  pose proof lag_names_unambiguous_true as H. unfold lag_names_unambiguous in H.
  rewrite forallb_forall in H. specialize (H variable Hv).
  rewrite forallb_forall in H.
  assert (Hin : In lag_type ["simple"; "rolling"]%string)
    by (destruct Ht as [->| ->]; simpl; auto).
  specialize (H lag_type Hin). rewrite forallb_forall in H.
  specialize (H w Hw). apply andb_true_iff in H as [H1 H2].
  rewrite forallb_forall in H1. rewrite forallb_forall in H2. split.
  - exact H1.
  - intros w' c Hw' Hc. specialize (H2 w' Hw'). rewrite forallb_forall in H2.
    specialize (H2 c Hc). now apply negb_true_iff in H2.
Qed.

(** Each iteration of the loader's loop appends the first recognised name
    that is a column of the frame. *)
Lemma lag_column_find (df : DataFrame) (variable lag_type : string) (w : nat) :
  lag_column df variable lag_type w
  = match List.find (fun c => str_in c (columns df))
            (lag_patterns variable lag_type w) with
    | Some c => [c]
    | None => []
    end.
Proof.
  unfold lag_column, lag_patterns.
  destruct (String.eqb lag_type "simple"); [|destruct (String.eqb lag_type "rolling")];
    simpl; repeat (match goal with
                   | |- context [str_in ?c (columns df)] =>
                       destruct (str_in c (columns df))
                   end; try reflexivity); reflexivity.
Qed.

Lemma lag_column_In (df : DataFrame) (variable lag_type : string) (w : nat) (c : string) :
  In c (lag_column df variable lag_type w) ->
  In c (lag_patterns variable lag_type w) /\ str_in c (columns df) = true.
Proof.
  rewrite lag_column_find.
  destruct (List.find _ _) as [c'|] eqn:Hf; [|intros []].
  intros [<-|[]]. now apply find_some in Hf.
Qed.

Lemma filter_flat_map_first {A B} (g : A -> list B) (P : B -> bool)
  (before after : list A) (w : A) (col : B) :
  (forall w' c, In w' before -> In c (g w') -> P c = false) ->
  g w = [col] -> P col = true ->
  List.filter P (flat_map g (before ++ w :: after))
  = col :: List.filter P (flat_map g after).
Proof.
  intros Hbefore Hw Hcol. induction before as [|b before IH]; simpl.
  - rewrite Hw. simpl. now rewrite Hcol.
  - rewrite List.filter_app.
    assert (Hnil : List.filter P (g b) = []).
    { assert (Hb : forall c, In c (g b) -> P c = false)
        by (intros c Hc; apply (Hbefore b c); [now left|assumption]).
      clear -Hb. induction (g b) as [|c l IHl]; simpl; [reflexivity|].
      rewrite (Hb c) by now left. apply IHl. intros c' Hc'. apply Hb. now right. }
    rewrite Hnil. simpl. apply IH. intros w' c Hw' Hc. apply (Hbefore w' c); auto.
    now right.
Qed.

Lemma LAG_RANGE_split (w : nat) :
  In w config.LAG_RANGE ->
  config.LAG_RANGE = seq 1 (w - 1) ++ w :: seq (S w) (12 - w).
Proof.
  unfold config.LAG_RANGE. intros Hw. apply in_seq in Hw.
  replace 12 with ((w - 1) + (1 + (12 - w))) at 1 by lia.
  rewrite seq_app. f_equal. simpl. f_equal; [lia|]. f_equal. lia.
Qed.

(** The first feature whose name contains the decimal of week [w] is the
    column the loader found for offset [w]. *)
Lemma matching_features_head (df : DataFrame) (variable lag_type : string)
  (w : nat) (col : string) :
  In variable config.LAG_VARIABLES ->
  lag_type = "simple"%string \/ lag_type = "rolling"%string ->
  In w config.LAG_RANGE ->
  lag_column df variable lag_type w = [col] ->
  exists rest,
    matching_features (get_lag_features df variable lag_type) w = col :: rest.
Proof.
  intros Hv Ht Hw Hcol.
  destruct (lag_names_facts variable lag_type w Hv Ht Hw) as [Hself Hsmaller].
  unfold matching_features, get_lag_features.
  rewrite (LAG_RANGE_split w Hw). eexists.
  apply filter_flat_map_first.
  - intros w' c Hw' Hc. apply lag_column_In in Hc as [Hc _]. eauto.
  - exact Hcol.
  - apply Hself.
    assert (Hin : In col (lag_column df variable lag_type w))
      by (rewrite Hcol; now left).
    now apply lag_column_In in Hin.
Qed.

Lemma get_lag_features_columns (df : DataFrame) (variable lag_type : string) (c : string) :
  In c (get_lag_features df variable lag_type) -> str_in c (columns df) = true.
Proof.
  unfold get_lag_features. rewrite in_flat_map. intros (w & _ & Hc).
  now apply lag_column_In in Hc.
Qed.

Lemma week_loop_cells (f : nat -> result (float * float))
  (cell : nat -> float * float) (ws : list nat) (acc : dict float) :
  (forall w, In w ws -> f w = Ok (cell w)) ->
  for_ ws
    (fun week row =>
       '(corr, pval) ← f week;
       Ok (dict_set (dict_set row (lag_col week) corr) (lag_p_col week) pval))
    acc
  = Ok (fold_left
          (fun row week =>
             dict_set (dict_set row (lag_col week) (fst (cell week)))
               (lag_p_col week) (snd (cell week)))
          ws acc).
Proof.
  revert acc. induction ws as [|w ws IH]; intros acc Hf; simpl; [reflexivity|].
  rewrite (Hf w) by now left. simpl.
  destruct (cell w) as [c p] eqn:Ew. simpl. apply IH.
  intros w' Hw'. apply Hf. now right.
Qed.

Lemma week_cells_lookup (cell : nat -> float * float) (week : nat) :
  In week config.LAG_RANGE ->
  let cells :=
    fold_left
      (fun row week =>
         dict_set (dict_set row (lag_col week) (fst (cell week)))
           (lag_p_col week) (snd (cell week)))
      config.LAG_RANGE [] in
  dict_get cells (lag_col week) = Some (fst (cell week))
  /\ dict_get cells (lag_p_col week) = Some (snd (cell week)).
Proof.
  intros Hw. unfold config.LAG_RANGE in Hw. simpl in Hw.
  repeat (destruct Hw as [<-|Hw]; [split; vm_compute; reflexivity|]).
  destruct Hw.
Qed.

Section LagScannerFacts.

Variable spearmanr : list float -> list float -> float * float.

Lemma length_loc_valid_mask (xs ys : list float) :
  length (loc_mask (valid_mask xs ys) xs) = mask_sum (valid_mask xs ys).
Proof.
  revert ys. induction xs as [|x xs IH]; intros [|y ys]; simpl; try reflexivity.
  unfold valid_mask, mask_sum in *. simpl.
  destruct (F64.notna x && F64.notna y); simpl; now rewrite IH.
Qed.

(** The pair stored for a week matched to [feature]: the coefficient and
    p-value of the rows in which feature and target are both non-null, or
    NaN twice when there is no such row. *)
Lemma feature_correlation_explicit (df : DataFrame) (feature target : string)
  (xs ys : list float) :
  dict_get df feature = Some xs ->
  dict_get df target = Some ys ->
  feature_correlation spearmanr df feature target
  = Ok (match loc_mask (valid_mask xs ys) xs with
        | [] => (F64.nan, F64.nan)
        | _ :: _ => spearmanr (loc_mask (valid_mask xs ys) xs)
                              (loc_mask (valid_mask xs ys) ys)
        end).
Proof.
  intros Hx Hy. unfold feature_correlation, getitem. rewrite Hx, Hy. simpl.
  rewrite <- length_loc_valid_mask.
  destruct (loc_mask (valid_mask xs ys) xs); reflexivity.
Qed.

Lemma feature_correlation_returns (df : DataFrame) (feature target : string) :
  str_in feature (columns df) = true ->
  is_Some (dict_get df target) ->
  exists r, feature_correlation spearmanr df feature target = Ok r.
Proof.
  intros Hf [tcol Ht]. apply dict_get_keys in Hf as [fcol Hf].
  unfold feature_correlation, getitem. rewrite Hf, Ht. simpl.
  destruct (0 <? mask_sum (valid_mask fcol tcol))%nat; eauto.
Qed.

Lemma lag_cell_returns (df : DataFrame) (target variable lag_type : string) (w : nat) :
  is_Some (dict_get df target) ->
  exists r,
    lag_cell spearmanr df target (get_lag_features df variable lag_type) w = Ok r.
Proof.
  intros Ht. unfold lag_cell.
  destruct (matching_features _ w) as [|feature rest] eqn:Em; [eauto|].
  apply feature_correlation_returns; [|exact Ht].
  apply (get_lag_features_columns df variable lag_type).
  assert (H : In feature (matching_features
                            (get_lag_features df variable lag_type) w))
    by (rewrite Em; now left).
  unfold matching_features in H. now apply filter_In in H.
Qed.

Lemma lag_table_row_returns (df : DataFrame) (target lag_type variable : string) :
  is_Some (dict_get df target) ->
  exists r, lag_table_row spearmanr df target lag_type variable = Ok r.
Proof.
  intros Ht. unfold lag_table_row.
  destruct (length (get_lag_features df variable lag_type) =? 0)%nat; [eauto|].
  set (cell := fun w =>
                 match lag_cell spearmanr df target
                         (get_lag_features df variable lag_type) w with
                 | Ok r => r
                 | Raise _ => (F64.nan, F64.nan)
                 end).
  rewrite (week_loop_cells _ cell).
  - simpl. eauto.
  - intros w _. unfold cell.
    now destruct (lag_cell_returns df target variable lag_type w Ht) as [r ->].
Qed.

(** The row written for a variable that has a column at offset [week]. *)
Lemma lag_table_row_cell (df : DataFrame) (target lag_type variable : string)
  (week : nat) (col : string) :
  In variable config.LAG_VARIABLES ->
  lag_type = "simple"%string \/ lag_type = "rolling"%string ->
  In week config.LAG_RANGE ->
  lag_column df variable lag_type week = [col] ->
  is_Some (dict_get df target) ->
  exists cells corr pval,
    lag_table_row spearmanr df target lag_type variable
    = Ok (Some (mk_lag_row variable cells))
    /\ feature_correlation spearmanr df col target = Ok (corr, pval)
    /\ dict_get cells (lag_col week) = Some corr
    /\ dict_get cells (lag_p_col week) = Some pval.
Proof.
  intros Hv Hty Hw Hcol Ht.
  destruct (matching_features_head df variable lag_type week col Hv Hty Hw Hcol)
    as [rest Hm].
  assert (Hin : In col (get_lag_features df variable lag_type)).
  { assert (H : In col (matching_features
                          (get_lag_features df variable lag_type) week))
      by (rewrite Hm; now left).
    unfold matching_features in H. now apply filter_In in H. }
  unfold lag_table_row.
  destruct (get_lag_features df variable lag_type) as [|c0 cs] eqn:Eg; [destruct Hin|].
  cbn [length Nat.eqb]. rewrite <- Eg in *. clear Eg c0 cs.
  set (cell := fun w =>
                 match lag_cell spearmanr df target
                         (get_lag_features df variable lag_type) w with
                 | Ok r => r
                 | Raise _ => (F64.nan, F64.nan)
                 end).
  rewrite (week_loop_cells _ cell).
  2:{ intros w _. unfold cell.
      now destruct (lag_cell_returns df target variable lag_type w Ht) as [r ->]. }
  destruct (week_cells_lookup cell week Hw) as [Hc Hp].
  eexists _, (fst (cell week)), (snd (cell week)).
  split; [reflexivity|]. split; [|split; [exact Hc|exact Hp]].
  assert (Hcell : lag_cell spearmanr df target
                    (get_lag_features df variable lag_type) week
                  = feature_correlation spearmanr df col target)
    by (unfold lag_cell; now rewrite Hm).
  unfold cell. rewrite Hcell.
  destruct (feature_correlation_returns df col target) as [[c p] ->];
    [|exact Ht|reflexivity].
  now apply (get_lag_features_columns df variable lag_type).
Qed.

End LagScannerFacts.

(** C10. For a tracked variable, a family and a week w of 1..12 such that
    the frame has the variable's lag column of offset w, the first feature
    whose name contains the decimal of w is that offset-w column, and the
    cells [lag_w] and [lag_w_p] of the variable's row hold the coefficient
    and p-value computed from that column: the Spearman coefficient and
    p-value of the offset-w column and the target on exactly the rows in
    which both are non-null, or NaN twice when there is no such row. *)
Theorem lag_table_cell_uses_offset_column
  (spearmanr : list float -> list float -> float * float)
  (df : DataFrame) (target lag_type variable : string) (week : nat)
  (col : string) :
  In variable config.LAG_VARIABLES ->
  lag_type = "simple"%string \/ lag_type = "rolling"%string ->
  In week config.LAG_RANGE ->
  lag_column df variable lag_type week = [col] ->
  is_Some (dict_get df target) ->
  In col (lag_patterns variable lag_type week)
  /\ str_in col (columns df) = true
  /\ (exists rest,
        matching_features (get_lag_features df variable lag_type) week
        = col :: rest)
  /\ exists table row corr pval,
       _analyze_lag_features spearmanr df target lag_type = Ok table
       /\ In row table
       /\ lr_variable row = variable
       /\ feature_correlation spearmanr df col target = Ok (corr, pval)
       /\ dict_get (lr_cells row) (lag_col week) = Some corr
       /\ dict_get (lr_cells row) (lag_p_col week) = Some pval
       /\ exists xs ys,
            dict_get df col = Some xs
            /\ dict_get df target = Some ys
            /\ let x := loc_mask (valid_mask xs ys) xs in
               let y := loc_mask (valid_mask xs ys) ys in
               zip x y
               = List.filter (fun p => F64.notna (fst p) && F64.notna (snd p))
                   (zip xs ys)
               /\ length x = length y
               /\ (x <> [] ->
                   corr = fst (spearmanr x y) /\ pval = snd (spearmanr x y))
               /\ (x = [] -> corr = F64.nan /\ pval = F64.nan).
Proof.
  intros Hv Hty Hw Hcol Ht.
  assert (Hin : In col (lag_column df variable lag_type week))
    by (rewrite Hcol; now left).
  apply lag_column_In in Hin as [Hpat Hcols].
  split; [exact Hpat|]. split; [exact Hcols|].
  split; [now apply matching_features_head|].
  destruct (lag_table_row_cell spearmanr df target lag_type variable week col
              Hv Hty Hw Hcol Ht) as (cells & corr & pval & Hrow & Hfc & Hc & Hp).
  destruct (Forall2_of_pointwise
              (fun v r => lag_table_row spearmanr df target lag_type v = Ok r)
              config.LAG_VARIABLES) as [rs Hrs].
  { intros v _. now apply lag_table_row_returns. }
  exists (flat_map option_list rs), (mk_lag_row variable cells), corr, pval.
  split.
  - unfold _analyze_lag_features.
    now rewrite (for_collect_gen _ option_list _ [] rs Hrs).
  - split; [|split; [reflexivity|split; [exact Hfc|split; [exact Hc|split;
      [exact Hp|]]]]].
    2:{ pose proof Hcols as Hx. apply dict_get_keys in Hx as [xs Hx].
        destruct Ht as [ys Hy]. exists xs, ys.
        split; [exact Hx|]. split; [exact Hy|].
        rewrite (feature_correlation_explicit spearmanr df col target xs ys Hx Hy)
          in Hfc.
        cbv zeta. split; [apply loc_mask_pairwise|].
        split; [apply loc_mask_lengths|].
        destruct (loc_mask (valid_mask xs ys) xs) as [|x0 x] eqn:Ex.
        - injection Hfc as <- <-. split; [congruence|auto].
        - split; [|discriminate]. intros _. injection Hfc as Hfc.
          now rewrite Hfc. }
    apply list_elem_of_In, list_elem_of_lookup_1 in Hv. destruct Hv as [j Hj].
    destruct (Forall2_lookup_l _ _ _ _ _ Hrs Hj) as (r & Hr & Hrow').
    rewrite Hrow in Hrow'. injection Hrow' as <-.
    apply in_flat_map. exists (Some (mk_lag_row variable cells)). split.
    + apply list_elem_of_In. eapply list_elem_of_lookup_2. eassumption.
    + now left.
Qed.

(* ====================================================================== *)
(** * Group significance tester                                            *)
(* ====================================================================== *)

Section GroupSignificanceTesterFacts.

Variable pmatrix : Type.
Variable kruskal : list (list float) -> result (float * float).
Variable posthoc_dunn : list (nat * float) -> result pmatrix.

(** What one iteration of the loop over the targets does to the dict. *)
Lemma test_target_Ok (df : clustered_frame) (k : nat) (target : string)
  (results results' : dict (test_value pmatrix)) :
  test_target kruskal posthoc_dunn df k target results = Ok results' ->
  (str_in target (columns (cf_frame df)) = false /\ results' = results)
  \/ (str_in target (columns (cf_frame df)) = true
      /\ exists tcol h p v,
           dict_get (cf_frame df) target = Some tcol
           /\ kruskal (map (group_values (cf_cluster df) tcol) (seq 0 k))
              = Ok (h, p)
           /\ ((F64.lt p 0.05%float = true
                /\ exists m, posthoc_dunn (dunn_rows (cf_cluster df) tcol) = Ok m
                             /\ v = VFrame m)
               \/ (F64.lt p 0.05%float = false /\ v = VNone))
           /\ results'
              = dict_set
                  (dict_set
                     (dict_set results (target ++ "_kruskal_h") (VFloat h))
                     (target ++ "_kruskal_p") (VFloat p))
                  (target ++ "_dunn_pvalues") v).
Proof.
  unfold test_target.
  destruct (str_in target (columns (cf_frame df))) eqn:Hin; simpl.
  2:{ intros [= <-]. now left. }
  intros H. right. split; [reflexivity|].
  apply bind_Ok in H as (tcol & Htcol & H).
  apply bind_Ok in H as ([h p] & Hk & H).
  unfold getitem in Htcol.
  destruct (dict_get (cf_frame df) target) as [tcol'|]; [|discriminate].
  injection Htcol as ->.
  destruct (F64.lt p 0.05%float) eqn:Hlt.
  - apply bind_Ok in H as (m & Hm & H). injection H as <-.
    exists tcol, h, p, (VFrame m). split; [reflexivity|]. split; [exact Hk|].
    split; [left; eauto|reflexivity].
  - injection H as <-.
    exists tcol, h, p, VNone. split; [reflexivity|]. split; [exact Hk|].
    split; [right; auto|reflexivity].
Qed.

Lemma test_target_returns (df : clustered_frame) (k : nat) (target : string)
  (results : dict (test_value pmatrix)) :
  (forall tcol,
     dict_get (cf_frame df) target = Some tcol ->
     exists h p,
       kruskal (map (group_values (cf_cluster df) tcol) (seq 0 k)) = Ok (h, p)
       /\ (F64.lt p 0.05%float = true ->
           exists m, posthoc_dunn (dunn_rows (cf_cluster df) tcol) = Ok m)) ->
  exists results',
    test_target kruskal posthoc_dunn df k target results = Ok results'.
Proof.
  intros Hlib. unfold test_target.
  destruct (str_in target (columns (cf_frame df))) eqn:Hin; simpl; [|eauto].
  apply dict_get_keys in Hin as [tcol Htcol].
  unfold getitem. rewrite Htcol. simpl.
  destruct (Hlib tcol Htcol) as (h & p & Hk & Hd). rewrite Hk. simpl.
  destruct (F64.lt p 0.05%float); [|eauto].
  destruct (Hd eq_refl) as [m Hm]. rewrite Hm. simpl. eauto.
Qed.

End GroupSignificanceTesterFacts.

(** C5. For each outcome column present in the clustered frame, the
    results hold the Kruskal-Wallis p-value, and under the Dunn key either
    the pairwise matrix returned by the post-hoc test, exactly when that
    p-value is strictly below 0.05, or [None] when it is not (a NaN p-value
    included).  The results are produced whenever the two library calls
    succeed where they are made. *)
Theorem cluster_outcome_dunn_iff_significant
  (pmatrix : Type)
  (kruskal : list (list float) -> result (float * float))
  (posthoc_dunn : list (nat * float) -> result pmatrix)
  (df_clustered : clustered_frame) (optimal_k : nat) :
  (forall results,
     _test_cluster_outcome_relationships kruskal posthoc_dunn df_clustered
       optimal_k = Ok results ->
     forall target,
       In target config.TARGETS ->
       str_in target (columns (cf_frame df_clustered)) = true ->
       exists tcol h p,
         dict_get (cf_frame df_clustered) target = Some tcol
         /\ kruskal (map (group_values (cf_cluster df_clustered) tcol)
                       (seq 0 optimal_k)) = Ok (h, p)
         /\ dict_get results (target ++ "_kruskal_p") = Some (VFloat p)
         /\ ((F64.lt p 0.05%float = true
              /\ exists m,
                   posthoc_dunn (dunn_rows (cf_cluster df_clustered) tcol) = Ok m
                   /\ dict_get results (target ++ "_dunn_pvalues")
                      = Some (VFrame m))
             \/ (F64.lt p 0.05%float = false
                 /\ dict_get results (target ++ "_dunn_pvalues") = Some VNone)))
  /\ ((forall target tcol,
         In target config.TARGETS ->
         dict_get (cf_frame df_clustered) target = Some tcol ->
         exists h p,
           kruskal (map (group_values (cf_cluster df_clustered) tcol)
                      (seq 0 optimal_k)) = Ok (h, p)
           /\ (F64.lt p 0.05%float = true ->
               exists m,
                 posthoc_dunn (dunn_rows (cf_cluster df_clustered) tcol) = Ok m)) ->
      exists results,
        _test_cluster_outcome_relationships kruskal posthoc_dunn df_clustered
          optimal_k = Ok results).
Proof.
  unfold _test_cluster_outcome_relationships, config.TARGETS. split.
  - intros results H target Ht Hin. cbn [for_] in H.
    apply bind_Ok in H as (r1 & H1 & H). apply bind_Ok in H as (r2 & H2 & H).
    injection H as <-.
    apply test_target_Ok in H1. apply test_target_Ok in H2.
    destruct Ht as [<-|[<-|[]]].
    + destruct H1 as [[Hno _]|[_ (tcol & h & p & v & Htcol & Hk & Hv & ->)]];
        [congruence|].
      exists tcol, h, p. split; [exact Htcol|]. split; [exact Hk|].
      assert (Hkeep : dict_get r2 ("pos" ++ "_kruskal_p") = Some (VFloat p)
                      /\ dict_get r2 ("pos" ++ "_dunn_pvalues") = Some v).
      { destruct H2 as [[_ ->]|[_ (? & ? & ? & ? & _ & _ & _ & ->)]];
          rewrite !dict_get_set; simpl; split; reflexivity. }
      destruct Hkeep as [Hkp Hkd]. split; [exact Hkp|].
      destruct Hv as [[Hlt (m & Hm & ->)]|[Hlt ->]].
      * left. split; [exact Hlt|]. exists m. split; [exact Hm|exact Hkd].
      * right. split; [exact Hlt|exact Hkd].
    + destruct H2 as [[Hno _]|[_ (tcol & h & p & v & Htcol & Hk & Hv & ->)]];
        [congruence|].
      exists tcol, h, p. split; [exact Htcol|]. split; [exact Hk|].
      rewrite !dict_get_set. simpl. split; [reflexivity|].
      destruct Hv as [[Hlt (m & Hm & ->)]|[Hlt ->]].
      * left. split; [exact Hlt|]. exists m. split; [exact Hm|reflexivity].
      * right. split; [exact Hlt|reflexivity].
  - intros Hlib. cbn [for_].
    destruct (test_target_returns pmatrix kruskal posthoc_dunn df_clustered
                optimal_k "pos" []) as [r1 H1].
    { intros tcol Htcol. apply (Hlib "pos"%string tcol); [now left|exact Htcol]. }
    rewrite H1. simpl.
    destruct (test_target_returns pmatrix kruskal posthoc_dunn df_clustered
                optimal_k "egg" r1) as [r2 H2].
    { intros tcol Htcol. apply (Hlib "egg"%string tcol); [right; now left|exact Htcol]. }
    rewrite H2. simpl. eauto.
Qed.

(* ====================================================================== *)
(** * Cross-city comparator                                                *)
(* ====================================================================== *)

(** Membership in a city's set of significant-and-strong features, for two
    series over the same index. *)
Lemma significant_index_spec (corr pval : Series) (feature : string) :
  keys corr = keys pval ->
  In feature (significant_index corr pval) <-> strong_in feature (corr, pval).
Proof.
  unfold significant_index, strong_in, keys. simpl.
  revert pval. induction corr as [|[f c] corr IH]; intros [|[f' p] pval] Hk;
    simpl in Hk; try discriminate.
  - simpl. split; [intros []|]. intros (i & ? & ? & Hi & _). destruct i; discriminate.
  - injection Hk as <- Hk. specialize (IH pval Hk). cbn [zip zip_with List.filter].
    cbn [fst snd].
    split.
    + intros H.
      destruct (significant_and_strong c p) eqn:Hs.
      * destruct H as [<-|H].
        -- exists 0, c, p. apply andb_true_iff in Hs as [H1 H2].
           repeat split; assumption.
        -- apply IH in H as (i & c' & p' & ? & ? & ? & ?).
           exists (S i), c', p'. auto.
      * apply IH in H as (i & c' & p' & ? & ? & ? & ?).
        exists (S i), c', p'. auto.
    + intros ([|i] & c' & p' & Hc & Hp & H1 & H2); simpl in Hc, Hp.
      * injection Hc as <- <-. injection Hp as <-.
        unfold significant_and_strong.
        change config.UNIVERSAL_PREDICTOR_RHO_THRESHOLD with 0.3%float.
        change config.UNIVERSAL_PREDICTOR_P_THRESHOLD with 0.001%float.
        rewrite H1, H2. now left.
      * assert (Hin : In feature
                        (map (fun cp => fst (fst cp))
                           (List.filter
                              (fun cp => significant_and_strong (snd (fst cp))
                                           (snd (snd cp)))
                              (zip corr pval))))
          by (apply IH; exists i, c', p'; auto).
        destruct (significant_and_strong c p); [now right|exact Hin].
Qed.

Lemma city_set_spec (city : string * (Series * Series)) (feature : string) :
  keys (fst (snd city)) = keys (snd (snd city)) ->
  feature ∈ snd (city_set city) <-> strong_in feature (snd city).
Proof.
  intros Hk. destruct city as [name [corr pval]]. unfold city_set. simpl in *.
  rewrite elem_of_list_to_set, list_elem_of_In.
  now apply significant_index_spec.
Qed.

Lemma set_intersection_spec (first : gset string) (others : list (gset string))
  (feature : string) :
  feature ∈ set_intersection first others
  <-> feature ∈ first /\ forall s, In s others -> feature ∈ s.
Proof.
  unfold set_intersection. revert first.
  induction others as [|s others IH]; intros first; simpl.
  - split; [intros H; split; [exact H|intros s []]|now intros [H _]].
  - rewrite IH, elem_of_intersection. split.
    + intros [[H1 H2] H3]. split; [exact H1|]. intros s' [<-|Hs']; auto.
    + intros [H1 H2]. split; [split; [exact H1|apply H2; now left]|].
      intros s' Hs'. apply H2. now right.
Qed.

Lemma cities_with_nil (city_significant : dict (gset string)) (feature : string) :
  cities_with city_significant feature = []
  <-> feature ∉ (⋃ (values city_significant) : gset string).
Proof.
  unfold cities_with, values. rewrite elem_of_union_list. split.
  - intros Hnil (X & HX & Hf). apply list_elem_of_In, in_map_iff in HX.
    destruct HX as ([name s] & <- & Hin).
    assert (H : In name (map fst (List.filter
                                    (fun cf => bool_decide (feature ∈ snd cf))
                                    city_significant))).
    { apply in_map_iff. exists (name, s). split; [reflexivity|].
      apply filter_In. split; [exact Hin|]. simpl. now apply bool_decide_eq_true. }
    rewrite Hnil in H. destruct H.
  - intros Hno.
    destruct (List.filter _ city_significant) as [|[name s] rest] eqn:Ef;
      [reflexivity|].
    exfalso. apply Hno.
    assert (H : In (name, s) (List.filter
                                (fun cf => bool_decide (feature ∈ snd cf))
                                city_significant)) by (rewrite Ef; now left).
    apply filter_In in H as [Hin Hb]. simpl in Hb. apply bool_decide_eq_true in Hb.
    exists s. split; [|exact Hb].
    apply list_elem_of_In, in_map_iff. exists (name, s). auto.
Qed.

(** The city-specific map, entry by entry. *)
Lemma city_specific_lookup (city_significant : dict (gset string))
  (feature : string) :
  city_specific_of city_significant !! feature
  = if (1 <=? length (cities_with city_significant feature))%nat
       && (length (cities_with city_significant feature) <=? 2)%nat
    then Some (cities_with city_significant feature)
    else None.
Proof.
  unfold city_specific_of.
  set (all_features := (⋃ values city_significant : gset string)).
  assert (Hfold :
    forall X : gset string,
      set_fold
        (fun feature city_specific =>
           if (1 <=? length (cities_with city_significant feature))%nat
              && (length (cities_with city_significant feature) <=? 2)%nat
           then <[feature := cities_with city_significant feature]> city_specific
           else city_specific)
        (∅ : gmap string (list string)) X !! feature
      = if bool_decide (feature ∈ X) then
          if (1 <=? length (cities_with city_significant feature))%nat
             && (length (cities_with city_significant feature) <=? 2)%nat
          then Some (cities_with city_significant feature)
          else None
        else None).
  { apply (set_fold_ind_L
             (fun (r : gmap string (list string)) (X : gset string) =>
                r !! feature
                = if bool_decide (feature ∈ X) then
                    if (1 <=? length (cities_with city_significant feature))%nat
                       && (length (cities_with city_significant feature) <=? 2)%nat
                    then Some (cities_with city_significant feature)
                    else None
                  else None)).
    - rewrite lookup_empty. rewrite bool_decide_eq_false_2; [reflexivity|].
      apply not_elem_of_empty.
    - intros x X r Hx IH.
      destruct (decide (x = feature)) as [->|Hne].
      + rewrite (bool_decide_eq_true_2 (feature ∈ {[feature]} ∪ X))
          by (apply elem_of_union_l, elem_of_singleton; reflexivity).
        rewrite (bool_decide_eq_false_2 _ Hx) in IH.
        destruct ((1 <=? _)%nat && (_ <=? 2)%nat);
          [now rewrite lookup_insert_eq|exact IH].
      + assert (Hiff : feature ∈ {[x]} ∪ X <-> feature ∈ X).
        { rewrite elem_of_union, elem_of_singleton. split; [|auto].
          intros [->|H]; [congruence|exact H]. }
        rewrite (bool_decide_ext _ _ Hiff).
        destruct ((1 <=? length (cities_with city_significant x))%nat
                  && (length (cities_with city_significant x) <=? 2)%nat);
          [rewrite lookup_insert_ne by exact Hne|]; exact IH. }
  rewrite Hfold.
  destruct (bool_decide (feature ∈ all_features)) eqn:Hin; [reflexivity|].
  apply bool_decide_eq_false in Hin. apply cities_with_nil in Hin.
  now rewrite Hin.
Qed.

Lemma holders_cities_with (feature : string)
  (cities : list (string * (Series * Series))) (names : list string) :
  (forall city, In city cities -> keys (fst (snd city)) = keys (snd (snd city))) ->
  holders_of feature cities names ->
  cities_with (map city_set cities) feature = names.
Proof.
  intros Hk H. unfold cities_with.
  induction H as [|city cities names Hs _ IH|city cities names Hs _ IH]; simpl.
  - reflexivity.
  - rewrite bool_decide_eq_true_2
      by (apply city_set_spec; [apply Hk; now left|exact Hs]).
    simpl. f_equal. apply IH. intros c Hc. apply Hk. now right.
  - rewrite bool_decide_eq_false_2.
    + apply IH. intros c Hc. apply Hk. now right.
    + intros Hin. apply Hs. apply city_set_spec in Hin; [exact Hin|].
      apply Hk. now left.
Qed.

Lemma holders_all (feature : string)
  (cities : list (string * (Series * Series))) (names : list string) :
  holders_of feature cities names ->
  (forall city, In city cities -> strong_in feature (snd city)) ->
  length names = length cities.
Proof.
  intros H Hall.
  induction H as [|city cities names Hs _ IH|city cities names Hs _ IH]; simpl.
  - reflexivity.
  - f_equal. apply IH. intros c Hc. apply Hall. now right.
  - exfalso. apply Hs. apply Hall. now left.
Qed.

Lemma city_names_CITY_ORDER :
  city_names config.CITY_ORDER = ["Taipei"; "Kaohsiung"; "Pingtung"; "Tainan"]%string.
Proof. reflexivity. Qed.

Lemma NoDup_app_drop_middle {A} (a m b : list A) :
  List.NoDup (a ++ m ++ b) -> List.NoDup (a ++ b).
Proof.
  induction m as [|x m IH]; simpl; [auto|].
  intros H. apply IH. eapply List.NoDup_remove_1. exact H.
Qed.

Section ComparatorFacts.

Variable city_results : dict (dict (dict Series)).
Variable target : string.

(** One step of the loop over the cities, when it does not raise. *)
Lemma collect_city_Ok (city_key : string) (acc acc' : dict (gset string)) :
  collect_city city_results target city_key acc = Ok acc' ->
  (city_supply city_results target city_key = [] /\ acc' = acc)
  \/ exists city,
       city_supply city_results target city_key = [city]
       /\ city_names [city_key] = [fst city]
       /\ acc' = dict_set acc (fst city) (snd (city_set city)).
Proof.
  unfold collect_city, city_supply, city_names. simpl.
  destruct (dict_get city_results city_key) as [analyses|]; [|intros [= <-]; now left].
  destruct (config.CITIES_name_en city_key) as [name|]; simpl; [|discriminate].
  destruct (dict_get analyses "statistical") as [stat_res|]; [|intros [= <-]; now left].
  destruct (dict_get stat_res (target ++ "_correlations")) as [corr|];
    [|intros [= <-]; now left].
  unfold getitem.
  destruct (dict_get stat_res (target ++ "_p_values")) as [pval|]; simpl;
    [|discriminate].
  intros [= <-]. right. exists (name, (corr, pval)). auto.
Qed.

Lemma collect_loop (city_keys : list string) (acc cs : dict (gset string)) :
  List.NoDup (keys acc ++ city_names city_keys) ->
  for_ city_keys (collect_city city_results target) acc = Ok cs ->
  cs = acc ++ map city_set (flat_map (city_supply city_results target) city_keys).
Proof.
  revert acc. induction city_keys as [|ck cks IH]; intros acc Hnd H; simpl in H.
  - injection H as <-. simpl. now rewrite app_nil_r.
  - apply bind_Ok in H as (acc' & Hstep & H).
    assert (Hsplit : city_names (ck :: cks) = city_names [ck] ++ city_names cks)
      by (unfold city_names; simpl; now rewrite app_nil_r).
    rewrite Hsplit in Hnd. clear Hsplit.
    cbn [flat_map].
    destruct (collect_city_Ok _ _ _ Hstep) as [[Hs ->]|(city & Hs & Hn & ->)].
    + rewrite Hs. simpl. apply IH; [|exact H].
      eapply NoDup_app_drop_middle. exact Hnd.
    + rewrite Hs, Hn in *. simpl in Hnd |- *.
      assert (Hfresh : str_in (fst city) (keys acc) = false).
      { apply str_in_false. intros Hin.
        apply List.NoDup_remove_2 in Hnd. apply Hnd.
        apply in_or_app. now left. }
      rewrite (dict_set_fresh _ _ _ Hfresh) in H.
      assert (Hnd' : List.NoDup (keys (acc ++ [(fst city, snd (city_set city))])
                                 ++ city_names cks)).
      { unfold keys. rewrite map_app. simpl. rewrite <- app_assoc. exact Hnd. }
      rewrite (IH _ Hnd' H). rewrite <- app_assoc. reflexivity.
Qed.

Lemma collect_cities_Ok (cs : dict (gset string)) :
  for_ config.CITY_ORDER (collect_city city_results target) [] = Ok cs ->
  cs = map city_set (supplied city_results target).
Proof.
  intros H. apply collect_loop in H; [exact H|].
  change (List.NoDup (city_names config.CITY_ORDER)).
  rewrite city_names_CITY_ORDER.
  repeat (apply List.NoDup_cons; [simpl; intuition discriminate|]).
  apply List.NoDup_nil.
Qed.

Lemma collect_city_returns (city_key : string) (acc : dict (gset string)) :
  In city_key config.CITY_ORDER ->
  (forall analyses stat_res,
     dict_get city_results city_key = Some analyses ->
     dict_get analyses "statistical" = Some stat_res ->
     is_Some (dict_get stat_res (target ++ "_correlations")) ->
     is_Some (dict_get stat_res (target ++ "_p_values"))) ->
  exists acc', collect_city city_results target city_key acc = Ok acc'.
Proof.
  intros Hck Hp. unfold collect_city.
  destruct (dict_get city_results city_key) as [analyses|]; [|eauto].
  assert (Hname : exists n, config.CITIES_name_en city_key = Ok n).
  { unfold config.CITY_ORDER in Hck. simpl in Hck.
    destruct Hck as [<-|[<-|[<-|[<-|[]]]]]; eexists; reflexivity. }
  destruct Hname as [n ->]. simpl.
  destruct (dict_get analyses "statistical") as [stat_res|] eqn:Es; [|eauto].
  destruct (dict_get stat_res (target ++ "_correlations")) as [corr|] eqn:Ec;
    [|eauto].
  destruct (Hp analyses stat_res eq_refl Es) as [pval Hpval]; [rewrite Ec; eauto|].
  unfold getitem. rewrite Hpval. simpl. eauto.
Qed.

Lemma collect_cities_returns :
  (forall city_key analyses stat_res,
     In city_key config.CITY_ORDER ->
     dict_get city_results city_key = Some analyses ->
     dict_get analyses "statistical" = Some stat_res ->
     is_Some (dict_get stat_res (target ++ "_correlations")) ->
     is_Some (dict_get stat_res (target ++ "_p_values"))) ->
  exists cs, for_ config.CITY_ORDER (collect_city city_results target) [] = Ok cs.
Proof.
  intros Hp.
  assert (Hgen : forall cks acc,
             (forall ck, In ck cks -> In ck config.CITY_ORDER) ->
             exists cs, for_ cks (collect_city city_results target) acc = Ok cs).
  { induction cks as [|ck cks IH]; intros acc Hall; simpl; [eauto|].
    destruct (collect_city_returns ck acc) as [acc' ->].
    - apply Hall. now left.
    - intros analyses stat_res. apply Hp. apply Hall. now left.
    - simpl. apply IH. intros ck' Hck'. apply Hall. now right. }
  apply Hgen. auto.
Qed.

(** What one target's comparison says, given the per-city sets. *)
Lemma comparison_of_cities (cities : list (string * (Series * Series)))
  (first : gset string) (others : list (gset string)) :
  (forall city, In city cities -> keys (fst (snd city)) = keys (snd (snd city))) ->
  values (map city_set cities) = first :: others ->
  (forall feature,
     feature ∈ set_intersection first others
     <-> forall city, In city cities -> strong_in feature (snd city))
  /\ (forall feature names,
        holders_of feature cities names ->
        length names = 1 \/ length names = 2 ->
        city_specific_of (map city_set cities) !! feature = Some names)
  /\ (forall feature names,
        holders_of feature cities names ->
        3 <= length cities -> length names = 2 ->
        city_specific_of (map city_set cities) !! feature = Some names
        /\ feature ∉ set_intersection first others).
Proof.
  intros Hk Hv.
  assert (Huniv : forall feature,
             feature ∈ set_intersection first others
             <-> forall city, In city cities -> strong_in feature (snd city)).
  { intros feature. rewrite set_intersection_spec.
    assert (Hsets : forall s, In s (first :: others)
                              <-> exists city, In city cities /\ s = snd (city_set city)).
    { intros s. rewrite <- Hv. unfold values. rewrite map_map, in_map_iff.
      split; intros (city & H1 & H2); exists city; auto. }
    split.
    - intros [H1 H2] city Hc. apply city_set_spec; [now apply Hk|].
      assert (Hin : In (snd (city_set city)) (first :: others))
        by (apply Hsets; eauto).
      destruct Hin as [<-|Hin]; auto.
    - intros Hall. split.
      + destruct (proj1 (Hsets first) (or_introl eq_refl)) as (city & Hc & ->).
        apply city_set_spec; auto.
      + intros s Hs.
        destruct (proj1 (Hsets s) (or_intror Hs)) as (city & Hc & ->).
        apply city_set_spec; auto. }
  assert (Hspec : forall feature names,
             holders_of feature cities names ->
             length names = 1 \/ length names = 2 ->
             city_specific_of (map city_set cities) !! feature = Some names).
  { intros feature names Hh Hlen. rewrite city_specific_lookup.
    rewrite (holders_cities_with feature cities names Hk Hh).
    destruct Hlen as [-> | ->]; reflexivity. }
  split; [exact Huniv|]. split; [exact Hspec|].
  intros feature names Hh H3 H2. split; [apply Hspec; auto|].
  intros Hin. pose proof (proj1 (Huniv feature) Hin) as Hall.
  pose proof (holders_all feature cities names Hh Hall). lia.
Qed.

End ComparatorFacts.

Lemma identify_target_Ok (city_results : dict (dict (dict Series)))
  (target : string)
  (u u' : dict (gset string)) (c c' : dict (gmap string (list string))) :
  identify_target city_results target (u, c) = Ok (u', c') ->
  (supplied city_results target = [] /\ u' = u /\ c' = c)
  \/ exists first others,
       values (map city_set (supplied city_results target)) = first :: others
       /\ u' = dict_set u target (set_intersection first others)
       /\ c' = dict_set c target
                 (city_specific_of (map city_set (supplied city_results target))).
Proof.
  unfold identify_target. intros H.
  apply bind_Ok in H as (cs & Hcs & H).
  apply collect_cities_Ok in Hcs. subst cs.
  destruct (values (map city_set (supplied city_results target)))
    as [|first others] eqn:Ev.
  - injection H as <- <-. left. split; [|auto].
    destruct (supplied city_results target); [reflexivity|discriminate Ev].
  - injection H as <- <-. right. exists first, others. auto.
Qed.

Lemma identify_target_returns (city_results : dict (dict (dict Series)))
  (target : string) (state : dict (gset string) * dict (gmap string (list string))) :
  (forall city_key analyses stat_res,
     In city_key config.CITY_ORDER ->
     dict_get city_results city_key = Some analyses ->
     dict_get analyses "statistical" = Some stat_res ->
     is_Some (dict_get stat_res (target ++ "_correlations")) ->
     is_Some (dict_get stat_res (target ++ "_p_values"))) ->
  exists state', identify_target city_results target state = Ok state'.
Proof.
  intros Hp. destruct state as [u c]. unfold identify_target.
  destruct (collect_cities_returns city_results target Hp) as [cs ->]. simpl.
  destruct (values cs); eauto.
Qed.

(** C6. A feature is significant-and-strong in a city exactly when both
    |correlation| > 0.3 and p < 0.001 hold for it there.  For each outcome
    with at least one supplying city (a configured city whose statistical
    results hold the outcome's correlations), the universal predictors are
    exactly the features significant-and-strong in every supplying city,
    every feature significant-and-strong in exactly one or two supplying
    cities is a city-specific predictor (listed with those cities), and
    with three or more supplying cities a feature held by exactly two is
    city-specific and not universal.  (Each city's two series share their
    index, as the correlation engine builds them.) *)
Theorem identify_predictors_universal_and_city_specific
  (city_results : dict (dict (dict Series))) :
  (forall corr pval,
     significant_and_strong corr pval = true
     <-> F64.gt (F64.fabs corr) 0.3%float = true /\ F64.lt pval 0.001%float = true)
  /\ (forall universal_predictors city_specific_predictors target,
        _identify_predictors city_results
        = Ok (universal_predictors, city_specific_predictors) ->
        In target config.TARGETS ->
        (forall city, In city (supplied city_results target) ->
                      keys (fst (snd city)) = keys (snd (snd city))) ->
        supplied city_results target <> [] ->
        exists universal city_specific,
          dict_get universal_predictors target = Some universal
          /\ dict_get city_specific_predictors target = Some city_specific
          /\ (forall feature,
                feature ∈ universal
                <-> forall city, In city (supplied city_results target) ->
                                 strong_in feature (snd city))
          /\ (forall feature names,
                holders_of feature (supplied city_results target) names ->
                length names = 1 \/ length names = 2 ->
                city_specific !! feature = Some names)
          /\ (forall feature names,
                holders_of feature (supplied city_results target) names ->
                3 <= length (supplied city_results target) ->
                length names = 2 ->
                city_specific !! feature = Some names /\ feature ∉ universal))
  /\ ((forall target city_key analyses stat_res,
         In target config.TARGETS ->
         In city_key config.CITY_ORDER ->
         dict_get city_results city_key = Some analyses ->
         dict_get analyses "statistical" = Some stat_res ->
         is_Some (dict_get stat_res (target ++ "_correlations")) ->
         is_Some (dict_get stat_res (target ++ "_p_values"))) ->
      exists predictors, _identify_predictors city_results = Ok predictors).
Proof.
  split; [|split].
  - intros corr pval. unfold significant_and_strong.
    change config.UNIVERSAL_PREDICTOR_RHO_THRESHOLD with 0.3%float.
    change config.UNIVERSAL_PREDICTOR_P_THRESHOLD with 0.001%float.
    apply andb_true_iff.
  - intros U C target H Ht Hk Hne.
    unfold _identify_predictors, config.TARGETS in H. cbn [for_] in H.
    apply bind_Ok in H as ([u1 c1] & H1 & H).
    apply bind_Ok in H as ([u2 c2] & H2 & H). injection H as <- <-.
    apply identify_target_Ok in H1. apply identify_target_Ok in H2.
    destruct Ht as [<-|[<-|[]]].
    + destruct H1 as [[Hnil _]|(first & others & Hv & -> & ->)]; [congruence|].
      exists (set_intersection first others),
        (city_specific_of (map city_set (supplied city_results "pos"))).
      split; [|split].
      * destruct H2 as [(_ & -> & _)|(? & ? & _ & -> & _)];
          rewrite ?dict_get_set; reflexivity.
      * destruct H2 as [(_ & _ & ->)|(? & ? & _ & _ & ->)];
          rewrite ?dict_get_set; reflexivity.
      * now apply comparison_of_cities.
    + destruct H2 as [[Hnil _]|(first & others & Hv & -> & ->)]; [congruence|].
      exists (set_intersection first others),
        (city_specific_of (map city_set (supplied city_results "egg"))).
      split; [|split].
      * rewrite dict_get_set. reflexivity.
      * rewrite dict_get_set. reflexivity.
      * now apply comparison_of_cities.
  - intros Hp. unfold _identify_predictors, config.TARGETS. cbn [for_].
    destruct (identify_target_returns city_results "pos" ([], [])) as [s1 ->].
    { intros ck an st. apply Hp. now left. }
    simpl.
    destruct (identify_target_returns city_results "egg" s1) as [s2 ->].
    { intros ck an st. apply Hp. right. now left. }
    simpl. eauto.
Qed.

(* ====================================================================== *)
(** * Worked examples                                                      *)
(* ====================================================================== *)

Lemma optimize_clustering_selects_first_best_silhouette_witness :
  exists res,
    _optimize_clustering Sample.KMeans_mod Sample.silhouette_table
      (Sample.index_const 100) (Sample.index_const 1) Sample.X_twelve_rows
    = Ok res
    /\ optimal_k res = 3
    /\ optimal_silhouette res = 0.63%float
    /\ optimal_calinski res = 100%float
    /\ optimal_davies res = 1%float
    /\ map (fun r => snd (fst (fst r))) (clustering_metrics res)
       = repeat 100%float 9.
Proof.
  destruct (optimize_clustering_selects_first_best_silhouette
              (list (list float)) (list nat)
              Sample.KMeans_mod Sample.silhouette_table
              (Sample.index_const 100) (Sample.index_const 1)
              Sample.X_twelve_rows) as (res & E & _).
  - intros k Hk. unfold config.CLUSTERING_K_RANGE in Hk. simpl in Hk.
    repeat (destruct Hk as [<-|Hk];
            [eexists; split; vm_compute; reflexivity|]).
    destruct Hk.
  - exists res. split; [exact E|].
    vm_compute in E. injection E as <-. repeat split; reflexivity.
Defined.

Lemma find_optimal_lags_reports_max_abs_correlation_witness :
  _find_optimal_lags Sample.lag_simple_small Sample.lag_rolling_small
  = Ok [mk_optimal_lag "H_temp" (WeekInt 2) (-0.5)%float (WeekInt 3) 0.6%float;
        mk_optimal_lag "R" (WeekFloat F64.nan) F64.nan
          (WeekFloat F64.nan) F64.nan]
  /\ Forall2 (optimal_lag_meets_spec Sample.lag_rolling_small)
       Sample.lag_simple_small
       [mk_optimal_lag "H_temp" (WeekInt 2) (-0.5)%float (WeekInt 3) 0.6%float;
        mk_optimal_lag "R" (WeekFloat F64.nan) F64.nan
          (WeekFloat F64.nan) F64.nan].
Proof.
  split; [vm_compute; reflexivity|].
  apply (proj1 (find_optimal_lags_reports_max_abs_correlation
                  Sample.lag_simple_small Sample.lag_rolling_small)).
  vm_compute. reflexivity.
Defined.


Lemma find_optimal_lags_raises_on_empty_rolling_table_witness :
  _find_optimal_lags Sample.lag_simple_small [] = Raise KeyError.
Proof.
  refine (proj1 (find_optimal_lags_raises_on_empty_rolling_table
                   (mk_lag_row "H_temp" _) (mk_lag_row "R" []) _ _ _)).
  - eexists. vm_compute. reflexivity.
  - discriminate.
Defined.

Lemma lag_table_cell_uses_offset_column_witness :
  exists rest,
    matching_features (get_lag_features Sample.df_lags "H_temp" "simple") 1
    = "H_temp_lag_1"%string :: rest.
Proof.
  destruct (lag_table_cell_uses_offset_column Sample.spearmanr_const
              Sample.df_lags "pos" "simple" "H_temp" 1 "H_temp_lag_1")
    as (_ & _ & H & _).
  - left. reflexivity.
  - left. reflexivity.
  - left. reflexivity.
  - reflexivity.
  - eexists. reflexivity.
  - exact H.
Defined.

(** Without the offset-1 column the week-1 cell is matched to the
    offset-10 column: the presence of the offset-w column is needed. *)
Example week_1_matched_to_lag_10_without_lag_1 :
  matching_features (get_lag_features Sample.df_lags_without_1 "H_temp" "simple") 1
  = ["H_temp_lag_10"; "H_temp_lag_11"; "H_temp_lag_12"]%string.
Proof. vm_compute. reflexivity. Qed.

Lemma cluster_outcome_dunn_iff_significant_witness :
  exists results,
    _test_cluster_outcome_relationships Sample.kruskal_by_size Sample.dunn_size
      Sample.df_two_clusters 2 = Ok results
    /\ dict_get results "pos_kruskal_p" = Some (VFloat 0.6%float)
    /\ dict_get results "pos_dunn_pvalues" = Some VNone
    /\ dict_get results "egg_kruskal_p" = Some (VFloat 0.01%float)
    /\ dict_get results "egg_dunn_pvalues" = Some (VFrame 5).
Proof.
  destruct (proj2 (cluster_outcome_dunn_iff_significant nat
                     Sample.kruskal_by_size Sample.dunn_size
                     Sample.df_two_clusters 2)) as [results E].
  - intros target tcol _ _. unfold Sample.kruskal_by_size, Sample.dunn_size.
    destruct (4 <=? _)%nat; eexists _, _; split; eauto.
  - exists results. split; [exact E|].
    vm_compute in E. injection E as <-. repeat split; reflexivity.
Defined.

Lemma supplied_city_results_three :
  supplied Sample.city_results_three "pos"
  = [("Taipei",
      ([("A", 0.5); ("B", -0.4); ("C", 0.1)],
       [("A", 0.0001); ("B", 0.0002); ("C", 0.5)]));
     ("Kaohsiung",
      ([("A", -0.6); ("B", 0.4); ("C", 0.35)],
       [("A", 0.0001); ("B", 0.02); ("C", 0.0005)]));
     ("Tainan",
      ([("A", 0.31); ("B", 0.9); ("C", F64.nan)],
       [("A", 0.0009); ("B", 0); ("C", F64.nan)]))]%float%string.
Proof. reflexivity. Qed.

Lemma identify_predictors_universal_and_city_specific_witness :
  exists universal_predictors city_specific_predictors universal city_specific,
    _identify_predictors Sample.city_results_three
    = Ok (universal_predictors, city_specific_predictors)
    /\ dict_get universal_predictors "pos" = Some universal
    /\ dict_get city_specific_predictors "pos" = Some city_specific
    /\ "A"%string ∈ universal
    /\ city_specific !! "B"%string = Some ["Taipei"; "Tainan"]%string
    /\ "B"%string ∉ universal.
Proof.
  pose proof (identify_predictors_universal_and_city_specific
                Sample.city_results_three) as (_ & Hspec & Hret).
  destruct Hret as [[U C] E].
  { intros target ck analyses stat_res Ht Hck Ha Hs Hc.
    unfold config.CITY_ORDER in Hck. simpl in Hck.
    destruct Ht as [<-|[<-|[]]];
      destruct Hck as [<-|[<-|[<-|[<-|[]]]]];
      vm_compute in Ha; try discriminate Ha; injection Ha as <-;
      vm_compute in Hs; injection Hs as <-;
      first [eexists; reflexivity | destruct Hc as [? Hc]; discriminate Hc]. }
  destruct (Hspec U C "pos"%string E) as (u & cs & HU & HC & Huniv & _ & Htwo).
  { left. reflexivity. }
  { rewrite supplied_city_results_three.
    intros city [<-|[<-|[<-|[]]]]; reflexivity. }
  { rewrite supplied_city_results_three. discriminate. }
  rewrite supplied_city_results_three in Huniv, Htwo.
  exists U, C, u, cs. split; [exact E|]. split; [exact HU|]. split; [exact HC|].
  split.
  - apply Huniv. intros city [<-|[<-|[<-|[]]]];
      eexists 0, _, _; repeat split; reflexivity.
  - apply Htwo; [|simpl; lia|reflexivity].
    apply holders_in; [eexists 1, _, _; repeat split; reflexivity|].
    apply holders_out.
    { intros ([|[|[|i]]] & c & p & Hc & Hp & H1 & H2); simpl in Hc, Hp;
        try discriminate.
      injection Hp as <-. discriminate H2. }
    apply holders_in; [eexists 1, _, _; repeat split; reflexivity|].
    apply holders_nil.
Defined.

(* ====================================================================== *)
(** * Data loader: preprocessing                                           *)
(* ====================================================================== *)

Lemma In_lookup {A} (l : list A) (x : A) :
  In x l <-> exists i, l !! i = Some x.
Proof. rewrite <- list_elem_of_In. apply list_elem_of_lookup. Qed.

Lemma columns_loc_rows (mask : list bool) (df : DataFrame) :
  columns (loc_rows mask df) = columns df.
Proof.
  unfold columns, keys, loc_rows. rewrite map_map. reflexivity.
Qed.

Lemma dict_get_loc_rows (mask : list bool) (df : DataFrame) (k : string) :
  dict_get (loc_rows mask df) k = option_map (loc_mask mask) (dict_get df k).
Proof.
  induction df as [|[k' v] df IH]; simpl; [reflexivity|].
  destruct (String.eqb k' k); simpl; auto.
Qed.

Lemma columns_drop_columns (df : DataFrame) (cols : list string) :
  columns (drop_columns df cols)
  = List.filter (fun col => negb (str_in col cols)) (columns df).
Proof.
  unfold columns, keys, drop_columns.
  induction df as [|[k v] df IH]; simpl; [reflexivity|].
  destruct (str_in k cols); simpl; now rewrite IH.
Qed.

Lemma dict_get_drop_columns (df : DataFrame) (cols : list string) (k : string) :
  dict_get (drop_columns df cols) k
  = if str_in k cols then None else dict_get df k.
Proof.
  unfold drop_columns.
  induction df as [|[k' v] df IH]; simpl.
  - now destruct (str_in k cols).
  - destruct (str_in k' cols) eqn:E; simpl.
    + destruct (String.eqb k' k) eqn:Ek; [|exact IH].
      apply String.eqb_eq in Ek; subst. now rewrite IH, E.
    + destruct (String.eqb k' k) eqn:Ek; [|exact IH].
      apply String.eqb_eq in Ek; subst. now rewrite E.
Qed.

(** Dropping the listed columns that exist drops the listed columns. *)
Lemma drop_present_columns (df : DataFrame) (cols : list string) :
  match List.filter (fun col => str_in col (columns df)) cols with
  | [] => df
  | _ :: _ =>
      drop_columns df (List.filter (fun col => str_in col (columns df)) cols)
  end = drop_columns df cols.
Proof.
  assert (Hsame : drop_columns df
                    (List.filter (fun col => str_in col (columns df)) cols)
                  = drop_columns df cols).
  { unfold drop_columns. apply filter_ext_in. intros [k v] Hin. simpl. f_equal.
    assert (Hk : str_in k (columns df) = true).
    { apply str_in_spec. unfold columns, keys. apply in_map_iff.
      now exists (k, v). }
    destruct (str_in k cols) eqn:E.
    - apply str_in_spec. apply filter_In. split; [now apply str_in_spec|exact Hk].
    - apply str_in_false. intros Hin'. apply filter_In in Hin' as [Hin' _].
      apply str_in_false in E. now apply E. }
  destruct (List.filter (fun col => str_in col (columns df)) cols) eqn:E;
    [|exact Hsame].
  rewrite <- Hsame. unfold drop_columns. simpl.
  clear. induction df as [|kv df IH]; simpl; [reflexivity|]. now rewrite <- IH.
Qed.

Lemma getitems_Forall2 (df : DataFrame) (cols : list string)
  (cs : list (list float)) :
  getitems df cols = Ok cs ->
  Forall2 (fun c col => dict_get df c = Some col) cols cs.
Proof.
  revert cs. induction cols as [|c cols IH]; simpl; intros cs H.
  - injection H as <-. constructor.
  - unfold getitem in H. destruct (dict_get df c) as [col|] eqn:Ec; [|discriminate].
    simpl in H. destruct (getitems df cols) as [rest|] eqn:Er; [|discriminate].
    simpl in H. injection H as <-. constructor; [exact Ec|now apply IH].
Qed.

Lemma getitems_present (df : DataFrame) (cols : list string) :
  (forall c, In c cols -> str_in c (columns df) = true) ->
  exists cs, getitems df cols = Ok cs.
Proof.
  induction cols as [|c cols IH]; simpl; intros H; [now eexists|].
  destruct (proj1 (dict_get_keys df c) (H c (or_introl eq_refl))) as [col Ec].
  unfold getitem. rewrite Ec. simpl.
  destruct IH as [rest ->]; [intros; apply H; now right|]. simpl. now eexists.
Qed.

Lemma getitems_missing (df : DataFrame) (cols : list string) :
  (exists c, In c cols /\ str_in c (columns df) = false) ->
  getitems df cols = Raise KeyError.
Proof.
  induction cols as [|c cols IH]; simpl; intros (c' & Hin & Hc); [contradiction|].
  unfold getitem. destruct (dict_get df c) as [col|] eqn:Ec; [|reflexivity].
  simpl. destruct Hin as [->|Hin].
  - assert (Hs : is_Some (dict_get df c')) by (exists col; exact Ec).
    apply dict_get_keys in Hs. unfold columns in Hc. congruence.
  - rewrite IH by now exists c'. reflexivity.
Qed.

(** The mask of complete rows, cell by cell. *)
Lemma notna_all_lookup (first : list float) (others : list (list float))
  (i : nat) (b : bool) :
  notna_all first others !! i = Some b ->
  (b = true <->
   forall d x, In d (first :: others) -> d !! i = Some x -> F64.notna x = true)
  /\ forall d, In d (first :: others) -> is_Some (d !! i).
Proof.
  revert first b. induction others as [|c others IH]; intros first b H; simpl in H.
  - rewrite lookup_map in H. destruct (first !! i) as [x0|] eqn:E0; [|discriminate].
    simpl in H. injection H as <-. split; [split|].
    + intros Hx d x [<-|[]] Hd. congruence.
    + intros Hall. now apply (Hall first x0); [left|].
    + intros d [<-|[]]. exists x0. exact E0.
  - rewrite lookup_zip_with in H. rewrite lookup_map in H.
    destruct (first !! i) as [x0|] eqn:E0; [|discriminate]. simpl in H.
    destruct (notna_all c others !! i) as [b2|] eqn:E2; [|discriminate].
    simpl in H. injection H as <-.
    destruct (IH c b2 E2) as [IHb IHs]. split; [split|].
    + intros Hb. apply andb_prop in Hb as [Hb1 Hb2].
      intros d x [<-|Hd] Hx; [congruence|]. now apply (proj1 IHb Hb2 d x).
    + intros Hall. apply andb_true_intro. split.
      * now apply (Hall first x0); [left|].
      * apply IHb. intros d x Hd Hx. apply (Hall d x); [now right|exact Hx].
    + intros d [<-|Hd]; [exists x0; exact E0|now apply IHs].
Qed.

Lemma length_notna_all (first : list float) (others : list (list float)) (n : nat) :
  Forall (fun d => length d = n) (first :: others) ->
  length (notna_all first others) = n.
Proof.
  revert first. induction others as [|c others IH]; intros first H; simpl.
  - rewrite length_map. now inversion H.
  - rewrite length_zip_with, length_map.
    inversion H as [|? ? H1 H2]; subst. rewrite (IH c H2). lia.
Qed.

Lemma loc_mask_notna (mask : list bool) (d : list float) :
  (forall i x, mask !! i = Some true -> d !! i = Some x -> F64.notna x = true) ->
  Forall (fun x => F64.isnan x = false) (loc_mask mask d).
Proof.
  revert d. induction mask as [|b mask IH]; intros d H; [constructor|].
  destruct d as [|x d]; [constructor|]. simpl.
  assert (Hrest : Forall (fun x => F64.isnan x = false) (loc_mask mask d)).
  { apply IH. intros i y Hm Hd. exact (H (S i) y Hm Hd). }
  destruct b; [|exact Hrest]. constructor; [|exact Hrest].
  specialize (H 0 x eq_refl eq_refl). unfold F64.notna in H.
  now destruct (F64.isnan x).
Qed.

Lemma length_loc_mask (mask : list bool) (d : list float) :
  length d = length mask -> length (loc_mask mask d) = mask_sum mask.
Proof.
  unfold mask_sum. revert d. induction mask as [|b mask IH]; intros [|x d] H;
    simpl in *; try discriminate; [reflexivity|].
  injection H as H. destruct b; simpl; now rewrite IH.
Qed.

Lemma mask_sum_le (mask : list bool) : mask_sum mask <= length mask.
Proof. unfold mask_sum. apply filter_length_le. Qed.

Lemma loc_mask_all_true (mask : list bool) (d : list float) :
  Forall (fun b => b = true) mask -> length d <= length mask ->
  loc_mask mask d = d.
Proof.
  revert d. induction mask as [|b mask IH]; intros [|x d] Hall Hlen;
    simpl in *; try reflexivity; [lia|].
  inversion Hall; subst. f_equal. apply IH; [assumption|lia].
Qed.

Lemma loc_rows_all_true (mask : list bool) (df : DataFrame) (n : nat) :
  Forall (fun b => b = true) mask -> length mask = n -> frame_rows df n ->
  loc_rows mask df = df.
Proof.
  intros Hall Hlen Hrows. unfold loc_rows.
  induction Hrows as [|[k v] df Hk Hrows IH]; simpl; [reflexivity|].
  rewrite IH. simpl in Hk. rewrite loc_mask_all_true; [reflexivity|assumption|lia].
Qed.

Lemma frame_rows_loc_rows (mask : list bool) (df : DataFrame) (n : nat) :
  length mask = n -> frame_rows df n ->
  frame_rows (loc_rows mask df) (mask_sum mask).
Proof.
  intros Hlen Hrows. unfold frame_rows, loc_rows.
  induction Hrows as [|[k v] df Hk Hrows IH]; simpl; constructor; [|exact IH].
  simpl in *. apply length_loc_mask. congruence.
Qed.

Lemma frame_rows_drop_columns (df : DataFrame) (cols : list string) (n : nat) :
  frame_rows df n -> frame_rows (drop_columns df cols) n.
Proof.
  unfold frame_rows, drop_columns. intros H. apply List.Forall_forall.
  intros kv Hin. apply filter_In in Hin as [Hin _].
  now apply (proj1 (List.Forall_forall _ _) H).
Qed.

Lemma frame_rows_dict_get (df : DataFrame) (n : nat) (k : string)
  (col : list float) :
  frame_rows df n -> dict_get df k = Some col -> length col = n.
Proof.
  intros Hrows. induction Hrows as [|[k' v] df Hk Hrows IH]; simpl; [discriminate|].
  destruct (String.eqb k' k); [|exact IH]. intros [= <-]. exact Hk.
Qed.

(** The rows [dropna(subset=...)] keeps: a mask over the rows that is true
    exactly at the rows complete in the subset's columns. *)
Lemma dropna_subset_mask (df : DataFrame) (subset : list string) (n : nat) :
  frame_rows df n ->
  (forall c, In c subset -> str_in c (columns df) = true) ->
  exists mask,
    dropna_subset df subset = Ok (loc_rows mask df)
    /\ length mask = n
    /\ forall i b, mask !! i = Some b ->
         (b = true <->
          forall c col x, In c subset -> dict_get df c = Some col ->
                          col !! i = Some x -> F64.notna x = true).
Proof.
  intros Hrows Hsub. unfold dropna_subset.
  destruct (getitems_present df subset Hsub) as [cs Hcs]. rewrite Hcs. simpl.
  pose proof (getitems_Forall2 _ _ _ Hcs) as HF.
  destruct cs as [|c0 cs].
  - inversion HF; subst. exists (repeat true (length (repeat true n))).
    rewrite repeat_length. split; [|split].
    + f_equal. symmetry.
      apply (loc_rows_all_true _ _ n); [|apply repeat_length|exact Hrows].
      apply List.Forall_forall. intros b Hb. now apply repeat_spec in Hb.
    + apply repeat_length.
    + intros i b Hi. split; [intros _ c col x []|intros _].
      apply (repeat_spec n true b). apply In_lookup. now exists i.
  - exists (notna_all c0 cs). split; [reflexivity|]. split.
    + apply length_notna_all. apply List.Forall_forall. intros d Hd.
      apply In_lookup in Hd as [j Hj].
      destruct (Forall2_lookup_r _ _ _ _ _ HF Hj) as (c & _ & Hc).
      now apply (frame_rows_dict_get df n c).
    + intros i b Hi. destruct (notna_all_lookup _ _ _ _ Hi) as [Hb _].
      rewrite Hb. split.
      * intros Hall c col x Hc Hcol Hx.
        apply In_lookup in Hc as [j Hj].
        destruct (Forall2_lookup_l _ _ _ _ _ HF Hj) as (col' & Hj' & Hcol').
        assert (col' = col) by congruence. subst col'.
        apply (Hall col x); [|exact Hx].
        apply In_lookup. now exists j.
      * intros Hall d x Hd Hx. apply In_lookup in Hd as [j Hj].
        destruct (Forall2_lookup_r _ _ _ _ _ HF Hj) as (c & Hc & Hcol).
        apply (Hall c d x); [|exact Hcol|exact Hx].
        apply In_lookup. now exists j.
Qed.

Lemma existsb_filter_nil {A} (f : A -> bool) (l : list A) :
  existsb f l = false -> List.filter f l = [].
Proof.
  induction l as [|a l IH]; simpl; [reflexivity|].
  destruct (f a); simpl; [discriminate|exact IH].
Qed.

(** What [preprocess_data] returns, in one place: the ignored columns are
    gone and the rows are those complete in the targets present. *)
Lemma preprocess_data_spec (df : DataFrame) (n : nat) :
  frame_rows df n ->
  exists mask,
    preprocess_data df None
    = Ok (loc_rows mask (drop_columns df config.IGNORE_COLUMNS))
    /\ length mask = n
    /\ forall i b, mask !! i = Some b ->
         (b = true <->
          forall target col x,
            In target config.TARGETS -> dict_get df target = Some col ->
            col !! i = Some x -> F64.notna x = true).
Proof.
  intros Hrows. unfold preprocess_data.
  change (Ok "data"%string ≫= ?f) with (f "data"%string). cbv beta.
  rewrite drop_present_columns.
  set (df1 := drop_columns df config.IGNORE_COLUMNS).
  assert (Hrows1 : frame_rows df1 n) by now apply frame_rows_drop_columns.
  assert (Hget : forall target, In target config.TARGETS ->
                   dict_get df1 target = dict_get df target).
  { intros target Ht. unfold df1. rewrite dict_get_drop_columns.
    destruct Ht as [<-|[<-|[]]]; reflexivity. }
  set (present := List.filter (fun t => str_in t (columns df1)) config.TARGETS).
  assert (Hpresent : forall c, In c present -> str_in c (columns df1) = true).
  { intros c Hc. now apply filter_In in Hc. }
  destruct (dropna_subset_mask df1 present n Hrows1 Hpresent)
    as (mask & Hdrop & Hlen & Hmask).
  assert (Hspec : forall i b, mask !! i = Some b ->
            (b = true <->
             forall target col x,
               In target config.TARGETS -> dict_get df target = Some col ->
               col !! i = Some x -> F64.notna x = true)).
  { intros i b Hi. rewrite (Hmask i b Hi). split.
    - intros Hall target col x Ht Hcol Hx.
      apply (Hall target col x); [|now rewrite Hget|exact Hx].
      apply filter_In. split; [exact Ht|].
      apply dict_get_keys. rewrite Hget by exact Ht. exists col. exact Hcol.
    - intros Hall c col x Hc Hcol Hx. apply filter_In in Hc as [Hc _].
      apply (Hall c col x); [exact Hc|now rewrite <- Hget|exact Hx]. }
  destruct (existsb (fun target => str_in target (columns df1)) config.TARGETS)
    eqn:Eany.
  - exists mask. now rewrite Hdrop.
  - exists mask. split; [|split; [exact Hlen|exact Hspec]].
    unfold dropna_subset in Hdrop. fold present in Hdrop.
    assert (Hnil : present = []) by now apply existsb_filter_nil.
    rewrite Hnil in Hdrop. simpl in Hdrop. exact Hdrop.
Qed.

Lemma preprocess_data_city_key (df : DataFrame) (city_key city_name : string) :
  config.CITIES_name_en city_key = Ok city_name ->
  preprocess_data df (Some city_key) = preprocess_data df None.
Proof.
  intros H. unfold preprocess_data. destruct city_key as [|c k]; [reflexivity|].
  now rewrite H.
Qed.

(** X1. [preprocess_data] returns the frame without the ignored columns and
    without the rows that miss a target value: the other columns keep their
    order, every column is cut by the same row mask, the mask is true
    exactly at the rows whose present target cells are all non-missing, and
    so no target column of the result holds a NaN.  The city key only
    feeds the log line. *)
Theorem preprocess_data_keeps_target_complete_rows (df : DataFrame) (n : nat) :
  frame_rows df n ->
  exists df_processed mask,
    preprocess_data df None = Ok df_processed
    /\ columns df_processed
       = List.filter (fun col => negb (str_in col config.IGNORE_COLUMNS))
           (columns df)
    /\ length mask = n
    /\ (forall i b, mask !! i = Some b ->
          (b = true <->
           forall target col x,
             In target config.TARGETS -> dict_get df target = Some col ->
             col !! i = Some x -> F64.notna x = true))
    /\ (forall c col,
          str_in c config.IGNORE_COLUMNS = false -> dict_get df c = Some col ->
          dict_get df_processed c = Some (loc_mask mask col))
    /\ frame_rows df_processed (mask_sum mask)
    /\ mask_sum mask <= n
    /\ (forall target col,
          In target config.TARGETS -> dict_get df_processed target = Some col ->
          Forall (fun x => F64.isnan x = false) col)
    /\ (forall city_key city_name,
          config.CITIES_name_en city_key = Ok city_name ->
          preprocess_data df (Some city_key) = Ok df_processed).
Proof.
  intros Hrows. destruct (preprocess_data_spec df n Hrows) as (mask & Hrun & Hlen & Hmask).
  exists (loc_rows mask (drop_columns df config.IGNORE_COLUMNS)), mask.
  split; [exact Hrun|]. split.
  { now rewrite columns_loc_rows, columns_drop_columns. }
  split; [exact Hlen|]. split; [exact Hmask|]. split.
  { intros c col Hc Hcol. now rewrite dict_get_loc_rows, dict_get_drop_columns, Hc, Hcol. }
  split.
  { apply (frame_rows_loc_rows _ _ n); [exact Hlen|].
    now apply frame_rows_drop_columns. }
  split.
  { rewrite <- Hlen. apply mask_sum_le. }
  split.
  { intros target col Ht Hcol.
    rewrite dict_get_loc_rows, dict_get_drop_columns in Hcol.
    destruct (str_in target config.IGNORE_COLUMNS); [discriminate|].
    destruct (dict_get df target) as [tcol|] eqn:Et; [|discriminate].
    simpl in Hcol. injection Hcol as <-.
    apply loc_mask_notna. intros i x Hi Hx.
    now apply (proj1 (Hmask i true Hi) eq_refl target tcol x). }
  intros city_key city_name Hname.
  now rewrite (preprocess_data_city_key df city_key city_name Hname).
Qed.

Lemma drop_columns_twice (mask : list bool) (df : DataFrame) (cols : list string) :
  drop_columns (loc_rows mask (drop_columns df cols)) cols
  = loc_rows mask (drop_columns df cols).
Proof.
  unfold loc_rows, drop_columns.
  induction df as [|[k v] df IH]; simpl; [reflexivity|].
  destruct (str_in k cols) eqn:E; simpl; [apply IH|].
  rewrite E. simpl. f_equal. apply IH.
Qed.

(** X2. [preprocess_data] is idempotent: preprocessing a preprocessed frame
    changes nothing. *)
Theorem preprocess_data_idempotent (df df_processed : DataFrame) (n : nat) :
  frame_rows df n ->
  preprocess_data df None = Ok df_processed ->
  preprocess_data df_processed None = Ok df_processed.
Proof.
  intros Hrows Hrun.
  destruct (preprocess_data_spec df n Hrows) as (mask & Hrun' & Hlen & Hmask).
  rewrite Hrun' in Hrun. injection Hrun as <-.
  set (df1 := loc_rows mask (drop_columns df config.IGNORE_COLUMNS)).
  assert (Hrows1 : frame_rows df1 (mask_sum mask)).
  { apply (frame_rows_loc_rows _ _ n); [exact Hlen|].
    now apply frame_rows_drop_columns. }
  destruct (preprocess_data_spec df1 _ Hrows1) as (mask1 & Hrun1 & Hlen1 & Hmask1).
  rewrite Hrun1.
  assert (Hdrop : drop_columns df1 config.IGNORE_COLUMNS = df1)
    by apply drop_columns_twice.
  rewrite Hdrop. f_equal.
  apply (loc_rows_all_true _ _ (mask_sum mask)); [|exact Hlen1|exact Hrows1].
  apply List.Forall_forall. intros b Hb. apply In_lookup in Hb as [i Hi].
  apply (Hmask1 i b Hi). intros target col x Ht Hcol Hx.
  unfold df1 in Hcol. rewrite dict_get_loc_rows, dict_get_drop_columns in Hcol.
  destruct (str_in target config.IGNORE_COLUMNS); [discriminate|].
  destruct (dict_get df target) as [tcol|] eqn:Et; [|discriminate].
  simpl in Hcol. injection Hcol as <-.
  assert (Hall : Forall (fun x => F64.isnan x = false) (loc_mask mask tcol)).
  { apply loc_mask_notna. intros j y Hj Hy.
    now apply (proj1 (Hmask j true Hj) eq_refl target tcol y). }
  assert (Hin : In x (loc_mask mask tcol)) by (apply In_lookup; now exists i).
  apply (proj1 (List.Forall_forall _ _) Hall) in Hin as Hx'. rename Hx' into Hnan. unfold F64.notna. now rewrite Hnan.
Qed.

(* ====================================================================== *)
(** * Data loader: feature groups, lag columns, validation                 *)
(* ====================================================================== *)

(** The first character of a string that starts with a non-empty prefix. *)
Lemma startswith_head (a : Ascii.ascii) (p col : string) :
  startswith col (String a p) = true -> exists rest, col = String a rest.
Proof.
  unfold startswith. destruct col as [|b col]; simpl; [discriminate|].
  destruct (Ascii.ascii_dec a b) as [<-|]; [|discriminate]. now eexists.
Qed.

Lemma is_temperature_head (col : string) :
  is_temperature col = true ->
  exists rest,
    col = ("H" ++ rest)%string \/ col = ("M" ++ rest)%string
    \/ col = ("L" ++ rest)%string.
Proof.
  unfold is_temperature. simpl. rewrite orb_false_r.
  intros H. apply orb_prop in H as [H|H]; [|apply orb_prop in H as [H|H]];
    apply startswith_head in H as [rest ->]; exists rest; auto.
Qed.

Lemma is_ndvi_head (col : string) :
  is_ndvi col = true -> exists rest, col = ("N" ++ rest)%string.
Proof.
  unfold is_ndvi. simpl. rewrite orb_false_r.
  intros H. apply orb_prop in H as [H|H]; [|apply orb_prop in H as [H|H]];
    apply startswith_head in H as [rest ->]; now exists rest.
Qed.

Lemma is_demographic_cases (col : string) :
  is_demographic col = true -> In col config.FEATURE_GROUPS_demographic_variables.
Proof. apply str_in_spec. Qed.

(** The four tests exclude one another, so the order of the [elif] chain
    does not matter. *)
Lemma group_tests_exclusive (col : string) :
  (is_temperature col = true ->
   is_rainfall col = false /\ is_ndvi col = false /\ is_demographic col = false)
  /\ (is_rainfall col = true -> is_ndvi col = false /\ is_demographic col = false)
  /\ (is_ndvi col = true -> is_demographic col = false).
Proof.
  split; [|split].
  - intros H. apply is_temperature_head in H as (rest & [-> | [-> | ->]]);
      repeat split; try reflexivity;
      (destruct (is_demographic _) eqn:E; [|reflexivity];
       apply is_demographic_cases in E; simpl in E;
       repeat (destruct E as [E|E]; [discriminate E|]); destruct E).
  - intros H. apply startswith_head in H as [rest ->]. split; [reflexivity|].
    destruct (is_demographic _) eqn:E; [|reflexivity].
    apply is_demographic_cases in E; simpl in E.
    repeat (destruct E as [E|E]; [discriminate E|]); destruct E.
  - intros H. apply is_ndvi_head in H as [rest ->].
    destruct (is_demographic _) eqn:E; [|reflexivity].
    apply is_demographic_cases in E; simpl in E.
    repeat (destruct E as [E|E]; [discriminate E|]); destruct E.
Qed.

Lemma group_feature_fold (cols : list string) (groups : feature_groups) :
  fold_left group_feature cols groups
  = mk_feature_groups
      (temperature groups ++ List.filter is_temperature cols)
      (rainfall groups ++ List.filter is_rainfall cols)
      (ndvi groups ++ List.filter is_ndvi cols)
      (demographic groups ++ List.filter is_demographic cols).
Proof.
  revert groups. induction cols as [|col cols IH]; intros [t r v d]; simpl.
  - now rewrite !app_nil_r.
  - rewrite IH. unfold group_feature. simpl.
    destruct (group_tests_exclusive col) as (Ht & Hr & Hv).
    destruct (is_temperature col) eqn:Et.
    { destruct (Ht eq_refl) as (-> & -> & ->). simpl. now rewrite <- app_assoc. }
    destruct (is_rainfall col) eqn:Er.
    { destruct (Hr eq_refl) as (-> & ->). simpl. now rewrite <- app_assoc. }
    destruct (is_ndvi col) eqn:Ev.
    { rewrite (Hv eq_refl). simpl. now rewrite <- app_assoc. }
    destruct (is_demographic col) eqn:Ed; simpl; [now rewrite <- app_assoc|].
    reflexivity.
Qed.

Lemma exclusive_filters_length (cols : list string) :
  length (List.filter is_temperature cols) + length (List.filter is_rainfall cols)
  + length (List.filter is_ndvi cols) + length (List.filter is_demographic cols)
  <= length cols.
Proof.
  induction cols as [|col cols IH]; simpl; [lia|].
  destruct (group_tests_exclusive col) as (Ht & Hr & Hv).
  destruct (is_temperature col) eqn:Et.
  { destruct (Ht eq_refl) as (-> & -> & ->). simpl. lia. }
  destruct (is_rainfall col) eqn:Er.
  { destruct (Hr eq_refl) as (-> & ->). simpl. lia. }
  destruct (is_ndvi col) eqn:Ev.
  { rewrite (Hv eq_refl). simpl. lia. }
  destruct (is_demographic col); simpl; lia.
Qed.

Lemma get_feature_groups_filters (df : DataFrame) :
  temperature (get_feature_groups df)
  = List.filter is_temperature (get_feature_columns df false)
  /\ rainfall (get_feature_groups df)
     = List.filter is_rainfall (get_feature_columns df false)
  /\ ndvi (get_feature_groups df)
     = List.filter is_ndvi (get_feature_columns df false)
  /\ demographic (get_feature_groups df)
     = List.filter is_demographic (get_feature_columns df false).
Proof.
  unfold get_feature_groups. rewrite group_feature_fold. simpl. auto.
Qed.

(** X3. [get_feature_groups] files every candidate feature by its own
    test: each group is, in column order, the features passing that
    group's test; the four tests exclude one another (so a feature is in
    at most one group and the order of the [elif] chain is immaterial), and
    the group sizes add up to at most the number of features, the
    difference being the features that match no test. *)
Theorem get_feature_groups_partition_by_prefix (df : DataFrame) :
  let groups := get_feature_groups df in
  let features := get_feature_columns df false in
  temperature groups = List.filter is_temperature features
  /\ rainfall groups = List.filter is_rainfall features
  /\ ndvi groups = List.filter is_ndvi features
  /\ demographic groups = List.filter is_demographic features
  /\ (forall col,
        (if is_temperature col then 1 else 0) + (if is_rainfall col then 1 else 0)
        + (if is_ndvi col then 1 else 0) + (if is_demographic col then 1 else 0)
        <= 1)
  /\ length (temperature groups) + length (rainfall groups)
     + length (ndvi groups) + length (demographic groups)
     = length features
       - length (List.filter
                   (fun col => negb (is_temperature col || is_rainfall col
                                     || is_ndvi col || is_demographic col))
                   features).
Proof.
  intros groups features.
  destruct (get_feature_groups_filters df) as (Et & Er & Ev & Ed).
  unfold groups. fold features in Et, Er, Ev, Ed. rewrite Et, Er, Ev, Ed.
  split; [reflexivity|]. split; [reflexivity|]. split; [reflexivity|].
  split; [reflexivity|]. split.
  - intros col. destruct (group_tests_exclusive col) as (Ht & Hr & Hv).
    destruct (is_temperature col).
    { destruct (Ht eq_refl) as (-> & -> & ->). simpl. lia. }
    destruct (is_rainfall col).
    { destruct (Hr eq_refl) as (-> & ->). simpl. lia. }
    destruct (is_ndvi col); [rewrite (Hv eq_refl); simpl; lia|].
    destruct (is_demographic col); simpl; lia.
  - clear groups Et Er Ev Ed. induction features as [|col cols IH]; simpl; [reflexivity|].
    pose proof (exclusive_filters_length cols) as Hle.
    pose proof (filter_length_le
                  (fun col => negb (is_temperature col || is_rainfall col
                                    || is_ndvi col || is_demographic col)) cols)
      as Hle'.
    destruct (group_tests_exclusive col) as (Ht & Hr & Hv).
    destruct (is_temperature col) eqn:Et.
    { destruct (Ht eq_refl) as (-> & -> & ->). simpl in *. lia. }
    destruct (is_rainfall col) eqn:Er.
    { destruct (Hr eq_refl) as (-> & ->). simpl in *. lia. }
    destruct (is_ndvi col) eqn:Ev.
    { rewrite (Hv eq_refl). simpl in *. lia. }
    destruct (is_demographic col); simpl in *; lia.
Qed.

Lemma lag_patterns_are_grouped_features_true :
  lag_patterns_are_grouped_features = true.
Proof. vm_compute. reflexivity. Qed.

Lemma lag_patterns_family (variable lag_type : string) (w : nat) (c : string) :
  In c (lag_patterns variable lag_type w) ->
  In lag_type ["simple"; "rolling"]%string.
Proof.
  unfold lag_patterns.
  destruct (String.eqb lag_type "simple") eqn:Es.
  { apply String.eqb_eq in Es as ->. simpl. auto. }
  destruct (String.eqb lag_type "rolling") eqn:Er; [|intros []].
  apply String.eqb_eq in Er as ->. simpl. auto.
Qed.

(** X4. Every lag column the temporal analysis reads for a tracked
    variable is one of the statistical analysis' candidate features, and
    [get_feature_groups] files it in the variable's own group (temperature
    for H/M/L_temp, rainfall for R, NDVI for the NDVI variables). *)
Theorem lag_columns_are_grouped_features
  (df : DataFrame) (variable lag_type col : string) :
  In variable config.LAG_VARIABLES ->
  In col (get_lag_features df variable lag_type) ->
  In col (get_feature_columns df false)
  /\ In col (group_of_variable (get_feature_groups df) variable).
Proof.
  intros Hv Hcol. unfold get_lag_features in Hcol. apply in_flat_map in Hcol.
  destruct Hcol as (w & Hw & Hcol). apply lag_column_In in Hcol as [Hpat Hdf].
  pose proof (lag_patterns_family _ _ _ _ Hpat) as Hfam.
  pose proof lag_patterns_are_grouped_features_true as H.
  unfold lag_patterns_are_grouped_features in H.
  rewrite forallb_forall in H. specialize (H variable Hv).
  rewrite forallb_forall in H. specialize (H lag_type Hfam).
  rewrite forallb_forall in H. specialize (H w Hw).
  rewrite forallb_forall in H. specialize (H col Hpat).
  apply andb_true_iff in H as [Hex Htest].
  assert (Hfeat : In col (get_feature_columns df false)).
  { unfold get_feature_columns. apply filter_In. split; [|exact Hex].
    now apply str_in_spec. }
  split; [exact Hfeat|].
  destruct (get_feature_groups_filters df) as (Et & Er & Ev & _).
  unfold group_of_variable, group_test_of_variable in *.
  destruct (str_in variable ["H_temp"; "M_temp"; "L_temp"]%string).
  { rewrite Et. apply filter_In. now split. }
  destruct (String.eqb variable "R").
  { rewrite Er. apply filter_In. now split. }
  rewrite Ev. apply filter_In. now split.
Qed.

Lemma targets_present_loop (df : DataFrame) :
  for_ config.TARGETS
    (fun target (_ : unit) =>
       if negb (str_in target (columns df)) then Raise ValueError else Ok tt)
    tt
  = if forallb (fun target => str_in target (columns df)) config.TARGETS
    then Ok tt else Raise ValueError.
Proof.
  unfold config.TARGETS. simpl.
  destruct (str_in "pos" (columns df)); simpl; [|reflexivity].
  destruct (str_in "egg" (columns df)); reflexivity.
Qed.

Lemma feature_columns_present (df : DataFrame) (include_targets : bool) (c : string) :
  In c (get_feature_columns df include_targets) -> str_in c (columns df) = true.
Proof.
  unfold get_feature_columns. intros H. apply filter_In in H as [H _].
  now apply str_in_spec.
Qed.

(** X5. [validate_data_structure] raises exactly when a target column is
    missing, and then a ValueError; an unexpected number of features or
    missing feature cells only produce warnings. *)
Theorem validate_data_structure_raises_iff_target_missing
  (df : DataFrame) (expected_n_features : option nat) :
  (validate_data_structure df expected_n_features = Raise ValueError
   <-> exists target, In target config.TARGETS /\ ~ In target (columns df))
  /\ (forall e, validate_data_structure df expected_n_features = Raise e ->
                e = ValueError)
  /\ (forall warnings,
        validate_data_structure df expected_n_features = Ok warnings ->
        let expected := default config.TOTAL_FEATURES expected_n_features in
        let found := length (get_feature_columns df false) in
        (In (UnexpectedFeatureCount expected found) warnings <-> found <> expected)
        /\ forall n_missing,
             In (MissingFeatureValues n_missing) warnings -> 0 < n_missing).
Proof.
  unfold validate_data_structure. rewrite targets_present_loop.
  destruct (getitems_present df (get_feature_columns df false)
              (feature_columns_present df false)) as [feature_frame Hframe].
  rewrite Hframe.
  destruct (forallb (fun target => str_in target (columns df)) config.TARGETS)
    eqn:Eall; simpl.
  - rewrite forallb_forall in Eall. split; [|split].
    + split; [discriminate|]. intros (target & Ht & Hmiss). exfalso.
      apply Hmiss. apply str_in_spec. now apply Eall.
    + discriminate.
    + intros warnings [= <-].
      assert (Hexp : match expected_n_features with
                     | None => config.TOTAL_FEATURES
                     | Some n => n
                     end = default config.TOTAL_FEATURES expected_n_features)
        by (destruct expected_n_features; reflexivity).
      rewrite Hexp. cbv zeta.
      set (found := length (get_feature_columns df false)).
      set (expected := default config.TOTAL_FEATURES expected_n_features).
      split.
      * rewrite in_app_iff.
        destruct (Nat.eqb_spec found expected) as [Heq|Hne]; simpl.
        -- split; [|congruence]. intros [[]|H].
           destruct (0 <? _)%nat; simpl in H;
             [destruct H as [H|[]]; discriminate H|destruct H].
        -- split; [congruence|]. intros _. left. left. reflexivity.
      * intros n_missing Hin. apply in_app_iff in Hin as [Hin|Hin].
        { destruct (negb _); simpl in Hin; [destruct Hin as [Hin|[]]|destruct Hin].
          discriminate Hin. }
        destruct (Nat.ltb_spec 0 (list_sum (map isnull_sum feature_frame)))
          as [Hpos|]; simpl in Hin; [|destruct Hin].
        destruct Hin as [Hin|[]]. injection Hin as <-. exact Hpos.
  - split; [|split].
    + split; [|reflexivity]. intros _.
      apply not_true_iff_false in Eall.
      destruct (forallb_forall (fun target => str_in target (columns df))
                  config.TARGETS) as [_ Hall].
      assert (Hex : exists target,
                 In target config.TARGETS /\ str_in target (columns df) = false).
      { unfold config.TARGETS in *. simpl in *.
        destruct (str_in "pos" (columns df)) eqn:Ep.
        - destruct (str_in "egg" (columns df)) eqn:Ee.
          + exfalso. apply Eall. reflexivity.
          + exists "egg"%string. auto.
        - exists "pos"%string. auto. }
      destruct Hex as (target & Ht & Hmiss). exists target. split; [exact Ht|].
      now apply str_in_false.
    + now intros e [= <-].
    + discriminate.
Qed.

Lemma configured_patterns_recognised_true : configured_patterns_recognised = true.
Proof. vm_compute. reflexivity. Qed.

Lemma length_flat_map_singletons {A B} (g : A -> list B) (l : list A) :
  (forall a, In a l -> length (g a) = 1) -> length (flat_map g l) = length l.
Proof.
  induction l as [|a l IH]; simpl; intros H; [reflexivity|].
  rewrite length_app, (H a (or_introl eq_refl)), IH; [reflexivity|].
  intros; apply H; now right.
Qed.

Lemma length_flat_map_le {A B} (g : A -> list B) (l : list A) :
  (forall a, In a l -> length (g a) <= 1) -> length (flat_map g l) <= length l.
Proof.
  induction l as [|a l IH]; simpl; intros H; [lia|].
  rewrite length_app. pose proof (H a (or_introl eq_refl)).
  assert (length (flat_map g l) <= length l) by (apply IH; intros; apply H; now right).
  lia.
Qed.

(** X6. The configured column patterns number [TOTAL_FEATURES], and on
    any frame that has them as columns the loader finds a lag column for
    every tracked variable, family and week: [get_lag_features] returns
    twelve columns.  In general it returns at most one column per week, and
    none for an unknown family. *)
Theorem configured_patterns_give_a_column_per_week
  (df : DataFrame) (variable lag_type : string) :
  In variable config.LAG_VARIABLES ->
  In lag_type ["simple"; "rolling"]%string ->
  (forall c, In c get_feature_columns_pattern -> In c (columns df)) ->
  length get_feature_columns_pattern = config.TOTAL_FEATURES
  /\ (forall week, In week config.LAG_RANGE ->
        exists col, lag_column df variable lag_type week = [col])
  /\ length (get_lag_features df variable lag_type) = 12
  /\ (forall df' variable' lag_type',
        length (get_lag_features df' variable' lag_type') <= 12
        /\ (~ In lag_type' ["simple"; "rolling"]%string ->
            get_lag_features df' variable' lag_type' = [])).
Proof.
  intros Hv Ht Hcols.
  assert (Hweek : forall week, In week config.LAG_RANGE ->
            exists col, lag_column df variable lag_type week = [col]).
  { intros week Hw. rewrite lag_column_find.
    pose proof configured_patterns_recognised_true as H.
    unfold configured_patterns_recognised in H.
    rewrite forallb_forall in H. specialize (H variable Hv).
    rewrite forallb_forall in H. specialize (H lag_type Ht).
    rewrite forallb_forall in H. specialize (H week Hw).
    apply existsb_exists in H as (c & Hc & Hpat).
    destruct (List.find _ _) as [c'|] eqn:Hf; [now exists c'|].
    exfalso. apply (find_none _ _ Hf) in Hc.
    apply str_in_spec, Hcols, str_in_spec in Hpat. congruence. }
  split; [vm_compute; reflexivity|]. split; [exact Hweek|]. split.
  - unfold get_lag_features.
    rewrite length_flat_map_singletons; [reflexivity|].
    intros week Hw. destruct (Hweek week Hw) as [col ->]. reflexivity.
  - intros df' variable' lag_type'. split.
    + unfold get_lag_features.
      change 12 with (length config.LAG_RANGE). apply length_flat_map_le.
      intros week _. rewrite lag_column_find.
      destruct (List.find _ _); simpl; lia.
    + intros Hfam. unfold get_lag_features.
      assert (Hnil : forall week, lag_column df' variable' lag_type' week = []).
      { intros week. unfold lag_column.
        destruct (String.eqb lag_type' "simple") eqn:Es.
        { apply String.eqb_eq in Es. exfalso. apply Hfam. subst. simpl. auto. }
        destruct (String.eqb lag_type' "rolling") eqn:Er; [|reflexivity].
        apply String.eqb_eq in Er. exfalso. apply Hfam. subst. simpl. auto. }
      clear Hweek. induction config.LAG_RANGE as [|w ws IH]; simpl; [reflexivity|].
      now rewrite Hnil, IH.
Qed.

(* ====================================================================== *)
(** * Statistical analyzer: family size, top-N tables, the report lines    *)
(* ====================================================================== *)

Lemma Forall_dict_set_pair {V} (P : string * V -> Prop) (d : dict V)
  (k : string) (v : V) :
  Forall P d -> P (k, v) ->
  (forall k' v', String.eqb k' k = true -> P (k', v') -> P (k', v)) ->
  Forall P (dict_set d k v).
Proof.
  intros Hd Hv Hsame. induction Hd as [|[k' v'] d Hk Hd IH]; simpl.
  - constructor; [exact Hv|constructor].
  - destruct (String.eqb k' k) eqn:E; constructor; eauto.
Qed.

(** Every coefficient [calculate_correlation] stores belongs to one of the
    features and is computed on the rows in which that feature and the
    target are both non-null (NaN when there is no such row). *)
Lemma calculate_correlation_samples
  (spearmanr pearsonr : list float -> list float -> float * float)
  (df : DataFrame) (features : list string) (target : string) (ys : list float)
  (corr pval : Series) :
  dict_get df target = Some ys ->
  calculate_correlation spearmanr pearsonr df features target
    config.CORRELATION_METHOD = Ok (corr, pval) ->
  Forall (fun kc =>
            In (fst kc) features
            /\ exists xs,
                 dict_get df (fst kc) = Some xs
                 /\ snd kc
                    = fst (match loc_mask (valid_mask xs ys) xs with
                           | [] => (F64.nan, F64.nan)
                           | _ :: _ => spearmanr (loc_mask (valid_mask xs ys) xs)
                                         (loc_mask (valid_mask xs ys) ys)
                           end)) corr.
Proof.
  intros Hy. unfold calculate_correlation.
  set (P := fun kc : string * float =>
              In (fst kc) features
              /\ exists xs,
                   dict_get df (fst kc) = Some xs
                   /\ snd kc
                      = fst (match loc_mask (valid_mask xs ys) xs with
                             | [] => (F64.nan, F64.nan)
                             | _ :: _ => spearmanr (loc_mask (valid_mask xs ys) xs)
                                           (loc_mask (valid_mask xs ys) ys)
                             end)).
  assert (Hgen : forall fs c0 p0 c p,
            (forall f, In f fs -> In f features) ->
            Forall P c0 ->
            for_ fs
              (fun feature '(correlations, p_values) =>
                 '(corr, pval) ← correlate_feature spearmanr pearsonr df feature
                                   target config.CORRELATION_METHOD;
                 Ok (dict_set correlations feature corr,
                     dict_set p_values feature pval))
              (c0, p0) = Ok (c, p) ->
            Forall P c).
  { induction fs as [|f fs IH]; intros c0 p0 c p Hsub H0 H; simpl in H.
    - now injection H as <- <-.
    - destruct (correlate_feature spearmanr pearsonr df f target
                  config.CORRELATION_METHOD) as [[r q]|] eqn:E;
        simpl in H; [|discriminate].
      eapply IH; [intros; apply Hsub; now right| |exact H].
      assert (Hf : P (f, r)).
      { split; [apply Hsub; now left|]. simpl.
        destruct (dict_get df f) as [xs|] eqn:Ex.
        - exists xs. split; [reflexivity|].
          unfold config.CORRELATION_METHOD in E.
          rewrite (correlate_feature_spearman spearmanr pearsonr df f target
                     xs ys Ex Hy) in E.
          injection E as E. now rewrite E.
        - unfold correlate_feature, getitem in E. rewrite Ex in E. discriminate. }
      apply Forall_dict_set_pair; [exact H0|exact Hf|].
      intros k' v' Ek _. apply String.eqb_eq in Ek. now subst k'. }
  intros H. apply (Hgen features [] [] corr pval); [auto|constructor|exact H].
Qed.

(** With the loader's features and a target column, the correlations are
    computed for every feature, without a lookup failure. *)
Lemma calculate_correlation_on_columns
  (spearmanr pearsonr : list float -> list float -> float * float)
  (df : DataFrame) (features : list string) (target : string) (ys : list float) :
  dict_get df target = Some ys ->
  (forall f, In f features -> str_in f (columns df) = true) ->
  exists corr pval,
    calculate_correlation spearmanr pearsonr df features target
      config.CORRELATION_METHOD = Ok (corr, pval)
    /\ (features <> [] -> pval <> []).
Proof.
  intros Hy Hcols.
  set (v := fun f => match correlate_feature spearmanr pearsonr df f target
                             config.CORRELATION_METHOD with
                     | Ok r => r
                     | Raise _ => (F64.nan, F64.nan)
                     end).
  destruct (calculate_correlation_loop spearmanr pearsonr df target
              config.CORRELATION_METHOD v features [] [])
    as (cs & ps & Hrun & _ & Hps).
  { intros f Hf. apply Hcols, dict_get_keys in Hf as [xs Hxs]. unfold v.
    unfold config.CORRELATION_METHOD.
    now rewrite (correlate_feature_spearman _ _ _ _ _ xs ys Hxs Hy). }
  exists cs, ps. split; [exact Hrun|].
  intros Hne ->. destruct features as [|f fs]; [congruence|].
  specialize (Hps f). simpl in Hps. rewrite String.eqb_refl in Hps. discriminate.
Qed.

(** X7. On the loader's candidate features, the correlation step of
    [analyze] cannot fail on a lookup: it raises (ZeroDivisionError) exactly
    when there is no candidate feature.  Otherwise the Bonferroni family is
    the whole feature list, including the features that share no complete
    row with the target, and such a feature is never flagged significant. *)
Theorem analyze_target_counts_unobserved_features
  (spearmanr pearsonr : list float -> list float -> float * float)
  (df : DataFrame) (target : string) (ys : list float) :
  List.NoDup (columns df) ->
  dict_get df target = Some ys ->
  let features := get_feature_columns df false in
  (features = []
   <-> analyze_target spearmanr pearsonr df features target
       = Raise ZeroDivisionError)
  /\ (features <> [] ->
      exists stats,
        analyze_target spearmanr pearsonr df features target
        = Ok (PrimFloat.div 0.05%float (F64.of_nat (length features)), stats)
        /\ keys (ts_correlations stats) = features
        /\ keys (ts_p_values stats) = features
        /\ length (ts_significant stats) = length features
        /\ ts_n_significant stats <= length features
        /\ forall i f xs,
             features !! i = Some f -> dict_get df f = Some xs ->
             loc_mask (valid_mask xs ys) xs = [] ->
             ts_significant stats !! i = Some false).
Proof.
  intros Hnd Hy features.
  assert (Hndf : List.NoDup features).
  { unfold features, get_feature_columns. now apply List.NoDup_filter. }
  assert (Hcols : forall f, In f features -> is_Some (dict_get df f)).
  { intros f Hf. apply dict_get_keys. now apply (feature_columns_present df false). }
  set (v := fun f => match correlate_feature spearmanr pearsonr df f target
                             config.CORRELATION_METHOD with
                     | Ok r => r
                     | Raise _ => (F64.nan, F64.nan)
                     end).
  assert (Hv : forall f, In f features ->
             correlate_feature spearmanr pearsonr df f target
               config.CORRELATION_METHOD = Ok (v f)).
  { intros f Hf. destruct (Hcols f Hf) as [xs Hxs]. unfold v.
    unfold config.CORRELATION_METHOD.
    now rewrite (correlate_feature_spearman _ _ _ _ _ xs ys Hxs Hy). }
  assert (Hrun : features <> [] ->
            analyze_target spearmanr pearsonr df features target
            = Ok (PrimFloat.div 0.05%float (F64.of_nat (length features)),
                  mk_target_stats
                    (map (fun f => (f, fst (v f))) features)
                    (map (fun f => (f, snd (v f))) features)
                    (map (fun f => F64.lt (snd (v f))
                                     (PrimFloat.div 0.05%float
                                        (F64.of_nat (length features))))
                       features)
                    (length
                       (List.filter (fun b : bool => b)
                          (map (fun f => F64.lt (snd (v f))
                                           (PrimFloat.div 0.05%float
                                              (F64.of_nat (length features))))
                             features))))).
  { intros Hne. unfold analyze_target, calculate_correlation.
    rewrite (calculate_correlation_loop_nodup spearmanr pearsonr df target
               config.CORRELATION_METHOD v features [] [] Hndf); auto.
    simpl.
    rewrite bonferroni_correction_nonempty
      by (destruct features; [congruence|discriminate]).
    simpl. rewrite !length_map. unfold values. rewrite !map_map. reflexivity. }
  split.
  - split.
    + intros ->. reflexivity.
    + intros Hraise. destruct features as [|f fs] eqn:E; [reflexivity|].
      rewrite Hrun in Hraise by discriminate. discriminate.
  - intros Hne. eexists. split; [exact (Hrun Hne)|]. simpl.
    split; [unfold keys; rewrite map_map; apply map_id|].
    split; [unfold keys; rewrite map_map; apply map_id|].
    split; [apply length_map|]. split.
    { etransitivity; [apply filter_length_le|]. now rewrite length_map. }
    intros i f xs Hi Hxs Hempty. rewrite lookup_map, Hi. simpl. f_equal.
    unfold v. unfold config.CORRELATION_METHOD.
    rewrite (correlate_feature_spearman _ _ _ _ _ xs ys Hxs Hy), Hempty. simpl.
    apply F64Facts.lt_nan_l. reflexivity.
Qed.

(** ** The top-N tables *)

Lemma In_correlation_frame (correlations p_values : Series) (r : corr_row) :
  In r (zip_with
          (fun c p => mk_corr_row (fst c) (snd c) (snd p) (F64.fabs (snd c)))
          correlations p_values)
  <-> exists i q,
        correlations !! i = Some (cr_feature r, cr_correlation r)
        /\ p_values !! i = Some (q, cr_p_value r)
        /\ cr_abs_correlation r = F64.fabs (cr_correlation r).
Proof.
  rewrite In_lookup. split.
  - intros (i & Hi). rewrite lookup_zip_with in Hi.
    destruct (correlations !! i) as [[f c]|] eqn:Ec; [|discriminate].
    destruct (p_values !! i) as [[q p]|] eqn:Ep; [|discriminate].
    simpl in Hi. injection Hi as <-. simpl. now exists i, q.
  - intros (i & q & Hc & Hp & Ha). exists i. rewrite lookup_zip_with, Hc, Hp.
    simpl. destruct r as [f c p a]. simpl in *. now subst.
Qed.

Lemma dropna_rows_In (df : list corr_row) (r : corr_row) :
  In r (dropna_rows df)
  <-> In r df /\ F64.isnan (cr_correlation r) = false
      /\ F64.isnan (cr_p_value r) = false
      /\ F64.isnan (cr_abs_correlation r) = false.
Proof.
  unfold dropna_rows. rewrite filter_In, !andb_true_iff. unfold F64.notna.
  rewrite !negb_true_iff. tauto.
Qed.

(** The first [n] rows of a sorted selection are its [n] most extreme rows. *)
Lemma top_rows_spec
  (sort_values : (corr_row -> float) -> bool -> list corr_row -> list corr_row)
  (ascending : bool) (P : corr_row -> bool) (df : list corr_row) (n : nat) :
  sorts_by_key sort_values ->
  Forall (fun r => F64.isnan (cr_correlation r) = false) df ->
  let top := firstn n (sort_values cr_correlation ascending (List.filter P df)) in
  length top <= n
  /\ (forall r, In r top -> In r df /\ P r = true)
  /\ (forall i j x y, i < j -> top !! i = Some x -> top !! j = Some y ->
        if ascending then F64.le (cr_correlation x) (cr_correlation y) = true
        else F64.le (cr_correlation y) (cr_correlation x) = true)
  /\ (forall r, In r df -> P r = true ->
        In r top
        \/ (length top = n
            /\ forall t, In t top ->
                 if ascending
                 then F64.le (cr_correlation t) (cr_correlation r) = true
                 else F64.le (cr_correlation r) (cr_correlation t) = true))
  /\ (top = [] -> n = 0 \/ List.filter P df = []).
Proof.
  intros Hsort Hnan top.
  destruct (Hsort cr_correlation ascending (List.filter P df)) as [Hperm Hord].
  assert (Hnan' : Forall (fun r => F64.isnan (cr_correlation r) = false)
                    (List.filter P df)).
  { apply List.Forall_forall. intros r Hr. apply filter_In in Hr as [Hr _].
    now apply (proj1 (List.Forall_forall _ _) Hnan). }
  specialize (Hord Hnan').
  set (sorted := sort_values cr_correlation ascending (List.filter P df)) in *.
  split; [apply firstn_le_length|]. split; [|split; [|split]].
  - intros r Hr. apply In_lookup in Hr as [i Hi].
    apply lookup_take_Some in Hi as [Hi _].
    assert (Hin : In r sorted) by (apply In_lookup; now exists i).
    apply (Permutation_in _ Hperm) in Hin. now apply filter_In in Hin.
  - intros i j x y Hij Hi Hj.
    apply lookup_take_Some in Hi as [Hi _]. apply lookup_take_Some in Hj as [Hj _].
    exact (Hord i j x y Hij Hi Hj).
  - intros r Hr HP.
    assert (Hin : In r sorted).
    { apply (Permutation_in _ (Permutation_sym Hperm)). now apply filter_In. }
    apply In_lookup in Hin as [j Hj].
    destruct (Nat.lt_ge_cases j n) as [Hlt|Hge].
    + left. apply In_lookup. exists j. now apply lookup_take_Some.
    + right. split.
      * apply length_take_le. apply lookup_lt_Some in Hj. lia.
      * intros t Ht. apply In_lookup in Ht as [i Hi].
        apply lookup_take_Some in Hi as [Hi Hin].
        apply (Hord i j t r); [lia|exact Hi|exact Hj].
  - intros Htop. destruct n as [|n]; [now left|right].
    destruct sorted as [|x sorted'] eqn:Es; [|discriminate Htop].
    now apply Permutation_nil.
Qed.

(** X8. [_get_top_correlations] returns, for the features with a defined
    coefficient and p-value, the (at most) [n_top] largest positive
    coefficients in descending order and the (at most) [n_top] most
    negative ones in ascending order: every listed row is a feature of the
    series with the sign in question, and a qualifying feature that is not
    listed is no more extreme than any listed one, the table then being
    full.  A zero or NaN coefficient, or a NaN p-value, is in neither
    table. *)
Theorem get_top_correlations_lists_the_most_extreme
  (sort_values : (corr_row -> float) -> bool -> list corr_row -> list corr_row)
  (correlations p_values : Series) (n_top : nat) :
  sorts_by_key sort_values ->
  length correlations = length p_values ->
  exists top_positive top_negative,
    _get_top_correlations sort_values correlations p_values n_top
    = Ok (top_positive, top_negative)
    /\ length top_positive <= n_top /\ length top_negative <= n_top
    /\ (forall r, In r top_positive ->
          F64.gt (cr_correlation r) 0%float = true)
    /\ (forall r, In r top_negative ->
          F64.lt (cr_correlation r) 0%float = true)
    /\ (forall r, In r (top_positive ++ top_negative) ->
          F64.isnan (cr_p_value r) = false
          /\ exists i q,
               correlations !! i = Some (cr_feature r, cr_correlation r)
               /\ p_values !! i = Some (q, cr_p_value r))
    /\ (forall i j x y, i < j ->
          (top_positive !! i = Some x -> top_positive !! j = Some y ->
           F64.le (cr_correlation y) (cr_correlation x) = true)
          /\ (top_negative !! i = Some x -> top_negative !! j = Some y ->
              F64.le (cr_correlation x) (cr_correlation y) = true))
    /\ (forall i f c q p,
          correlations !! i = Some (f, c) -> p_values !! i = Some (q, p) ->
          F64.isnan p = false ->
          (F64.gt c 0%float = true ->
           In (mk_corr_row f c p (F64.fabs c)) top_positive
           \/ (length top_positive = n_top
               /\ forall t, In t top_positive ->
                    F64.le c (cr_correlation t) = true))
          /\ (F64.lt c 0%float = true ->
              In (mk_corr_row f c p (F64.fabs c)) top_negative
              \/ (length top_negative = n_top
                  /\ forall t, In t top_negative ->
                       F64.le (cr_correlation t) c = true))).
Proof.
  intros Hsort Hlen. unfold _get_top_correlations, correlation_frame.
  rewrite Hlen, Nat.eqb_refl. simpl.
  set (frame := zip_with
                  (fun c p => mk_corr_row (fst c) (snd c) (snd p) (F64.fabs (snd c)))
                  correlations p_values).
  set (df := dropna_rows frame).
  assert (Hnan : Forall (fun r => F64.isnan (cr_correlation r) = false) df).
  { apply List.Forall_forall. intros r Hr. now apply dropna_rows_In in Hr. }
  destruct (top_rows_spec sort_values false
              (fun r => F64.gt (cr_correlation r) 0%float) df n_top Hsort Hnan)
    as (Hp1 & Hp2 & Hp3 & Hp4 & _).
  destruct (top_rows_spec sort_values true
              (fun r => F64.lt (cr_correlation r) 0%float) df n_top Hsort Hnan)
    as (Hn1 & Hn2 & Hn3 & Hn4 & _).
  cbv zeta in Hp1, Hp2, Hp3, Hp4, Hn1, Hn2, Hn3, Hn4.
  eexists _, _. split; [reflexivity|].
  split; [exact Hp1|]. split; [exact Hn1|].
  split; [intros r Hr; now apply Hp2|]. split; [intros r Hr; now apply Hn2|].
  split; [|split].
  - intros r Hr.
    assert (Hdf : In r df).
    { apply in_app_iff in Hr as [Hr|Hr]; [now apply Hp2|now apply Hn2]. }
    apply dropna_rows_In in Hdf as (Hf & _ & Hpn & _).
    split; [exact Hpn|].
    apply In_correlation_frame in Hf as (i & q & Hc & Hp & _). now exists i, q.
  - intros i j x y Hij. split.
    + intros Hi Hj. exact (Hp3 i j x y Hij Hi Hj).
    + intros Hi Hj. exact (Hn3 i j x y Hij Hi Hj).
  - intros i f c q p Hc Hp Hpn.
    assert (Hsign : F64.gt c 0%float = true \/ F64.lt c 0%float = true ->
                    In (mk_corr_row f c p (F64.fabs c)) df).
    { intros Hs. apply dropna_rows_In. simpl.
      assert (Hcn : F64.isnan c = false).
      { destruct (F64.isnan c) eqn:E; [|reflexivity]. exfalso.
        destruct Hs as [Hs|Hs].
        - unfold F64.gt in Hs. change (F64.lt 0%float c = true) in Hs.
          now rewrite (F64Facts.lt_nan_r _ _ E) in Hs.
        - now rewrite (F64Facts.lt_nan_l _ _ E) in Hs. }
      split; [|split; [exact Hcn|split; [exact Hpn|]]].
      - apply In_correlation_frame. now exists i, q.
      - now rewrite F64Facts.isnan_fabs. }
    split; intros Hs.
    + apply (Hp4 (mk_corr_row f c p (F64.fabs c))); [apply Hsign; now left|exact Hs].
    + apply (Hn4 (mk_corr_row f c p (F64.fabs c))); [apply Hsign; now right|exact Hs].
Qed.

(** ** The report lines of [analyze] *)

Lemma analyze_target_on_columns
  (spearmanr pearsonr : list float -> list float -> float * float)
  (df : DataFrame) (features : list string) (target : string) :
  str_in target (columns df) = true ->
  (forall f, In f features -> str_in f (columns df) = true) ->
  features <> [] ->
  exists corr pval alpha significant n,
    calculate_correlation spearmanr pearsonr df features target
      config.CORRELATION_METHOD = Ok (corr, pval)
    /\ analyze_target spearmanr pearsonr df features target
       = Ok (alpha, mk_target_stats corr pval significant n).
Proof.
  intros Ht Hcols Hne. apply dict_get_keys in Ht as [ys Hy].
  destruct (calculate_correlation_on_columns spearmanr pearsonr df features
              target ys Hy Hcols) as (corr & pval & Hrun & Hpv).
  exists corr, pval. unfold analyze_target. rewrite Hrun. simpl.
  rewrite bonferroni_correction_nonempty by now apply Hpv.
  simpl. now eexists _, _, _.
Qed.

Lemma sort_nil
  (sort_values : (corr_row -> float) -> bool -> list corr_row -> list corr_row)
  (key : corr_row -> float) (ascending : bool) :
  sorts_by_key sort_values -> sort_values key ascending [] = [].
Proof.
  intros Hsort. destruct (Hsort key ascending []) as [Hperm _].
  now apply Permutation_nil, Permutation_sym.
Qed.

Lemma filter_nil_of_false {A} (f : A -> bool) (l : list A) :
  (forall a, In a l -> f a = false) -> List.filter f l = [].
Proof.
  induction l as [|a l IH]; intros H; simpl; [reflexivity|].
  rewrite (H a (or_introl eq_refl)). apply IH. intros; apply H; now right.
Qed.

(** The two log lines read the first row of each table: a table without
    rows stops the analysis. *)
Lemma report_tables_of_raises
  (sort_values : (corr_row -> float) -> bool -> list corr_row -> list corr_row)
  (figures : Type) (group_and_plot : Series -> Series -> result figures)
  (correlations p_values : Series) :
  sorts_by_key sort_values ->
  length correlations = length p_values ->
  (forall kc, In kc correlations -> F64.gt (snd kc) 0%float = false)
  \/ (forall kc, In kc correlations -> F64.lt (snd kc) 0%float = false) ->
  report_tables_of sort_values group_and_plot correlations p_values
  = Raise IndexError.
Proof.
  intros Hsort Hlen Hsign.
  unfold report_tables_of, _get_top_correlations, correlation_frame.
  rewrite Hlen, Nat.eqb_refl. simpl.
  set (df := dropna_rows _).
  assert (Hrow : forall r, In r df -> exists kc, In kc correlations
                                         /\ cr_correlation r = snd kc).
  { intros r Hr. apply dropna_rows_In in Hr as [Hr _].
    apply In_correlation_frame in Hr as (i & q & Hc & _).
    exists (cr_feature r, cr_correlation r). split; [|reflexivity].
    apply In_lookup. now exists i. }
  destruct Hsign as [Hpos|Hneg].
  - rewrite (filter_nil_of_false (fun r => F64.gt (cr_correlation r) 0%float) df).
    + rewrite (sort_nil _ _ _ Hsort). now destruct config.N_TOP_CORRELATIONS.
    + intros r Hr. destruct (Hrow r Hr) as (kc & Hkc & ->). now apply Hpos.
  - rewrite (filter_nil_of_false (fun r => F64.lt (cr_correlation r) 0%float) df).
    + rewrite (sort_nil _ _ _ Hsort).
      assert (Hempty : index (firstn config.N_TOP_CORRELATIONS
                                (@nil corr_row)) 0 = Raise IndexError)
        by now destruct config.N_TOP_CORRELATIONS.
      rewrite Hempty. unfold index. now destruct (_ !! 0).
    + intros r Hr. destruct (Hrow r Hr) as (kc & Hkc & ->). now apply Hneg.
Qed.

(** X9. [StatisticalAnalyzer.analyze] stops with IndexError on a frame
    with candidate features when, for the first target the frame has, no
    feature has a positive Spearman coefficient on the rows in which the
    feature and that target are both non-null, or none has a negative one:
    the log lines after the top-N tables read the first row of both
    tables, and one of them is empty. *)
Theorem analyze_raises_when_a_top_table_is_empty
  (spearmanr pearsonr : list float -> list float -> float * float)
  (sort_values : (corr_row -> float) -> bool -> list corr_row -> list corr_row)
  (figures : Type) (group_and_plot : Series -> Series -> result figures)
  (df : DataFrame) (target : string) (ys : list float) :
  sorts_by_key sort_values ->
  List.find (fun t => str_in t (columns df)) config.TARGETS = Some target ->
  dict_get df target = Some ys ->
  get_feature_columns df false <> [] ->
  (forall f xs,
     In f (get_feature_columns df false) -> dict_get df f = Some xs ->
     loc_mask (valid_mask xs ys) xs <> [] ->
     F64.gt (fst (spearmanr (loc_mask (valid_mask xs ys) xs)
                    (loc_mask (valid_mask xs ys) ys))) 0%float = false)
  \/ (forall f xs,
        In f (get_feature_columns df false) -> dict_get df f = Some xs ->
        loc_mask (valid_mask xs ys) xs <> [] ->
        F64.lt (fst (spearmanr (loc_mask (valid_mask xs ys) xs)
                       (loc_mask (valid_mask xs ys) ys))) 0%float = false) ->
  analyze spearmanr pearsonr (report_tables_of sort_values group_and_plot) df
  = Raise IndexError.
Proof.
  intros Hsort Hfirst Hy Hne Hsign.
  assert (Hpresent : str_in target (columns df) = true)
    by (apply find_some in Hfirst; tauto).
  assert (Hstep : exists alpha stats,
            analyze_target spearmanr pearsonr df (get_feature_columns df false)
              target = Ok (alpha, stats)
            /\ report_tables_of sort_values group_and_plot
                 (ts_correlations stats) (ts_p_values stats)
               = Raise IndexError).
  { destruct (analyze_target_on_columns spearmanr pearsonr df
                (get_feature_columns df false) target Hpresent
                (feature_columns_present df false) Hne)
      as (corr & pval & alpha & sig & n & Hrun & Hana).
    exists alpha, (mk_target_stats corr pval sig n). split; [exact Hana|]. simpl.
    apply report_tables_of_raises; [exact Hsort| |].
    - pose proof (calculate_correlation_same_index _ _ _ _ _ _ _ _ Hrun) as Hk.
      unfold keys in Hk. apply (f_equal (@length string)) in Hk.
      now rewrite !length_map in Hk.
    - pose proof (calculate_correlation_samples _ _ _ _ _ _ _ _ Hy Hrun) as Hval.
      rewrite List.Forall_forall in Hval.
      destruct Hsign as [Hpos|Hneg]; [left|right]; intros kc Hkc;
        destruct (Hval kc Hkc) as (Hin & xs & Hxs & ->);
        [specialize (Hpos _ _ Hin Hxs)|specialize (Hneg _ _ Hin Hxs)];
        destruct (loc_mask (valid_mask xs ys) xs);
        first [reflexivity | apply Hpos; discriminate | apply Hneg; discriminate]. }
  destruct Hstep as (alpha & stats & Hana & Hrep).
  unfold analyze, config.TARGETS in *. simpl in Hfirst |- *.
  destruct (str_in "pos" (columns df)) eqn:Epos; simpl.
  - injection Hfirst as <-. rewrite Hana. simpl. now rewrite Hrep.
  - destruct (str_in "egg" (columns df)) eqn:Eegg; simpl; [|discriminate].
    injection Hfirst as <-. rewrite Hana. simpl. now rewrite Hrep.
Qed.

(** ** A reference [sort_values] *)

Lemma insert_by_perm (key : corr_row -> float) (ascending : bool)
  (r : corr_row) (l : list corr_row) :
  Permutation (insert_by key ascending r l) (r :: l).
Proof.
  induction l as [|x l IH]; simpl; [reflexivity|].
  destruct (if ascending then _ else _); [reflexivity|].
  rewrite IH. apply perm_swap.
Qed.

Lemma insertion_sort_perm (key : corr_row -> float) (ascending : bool)
  (l : list corr_row) :
  Permutation (insertion_sort key ascending l) l.
Proof.
  induction l as [|x l IH]; simpl; [reflexivity|].
  unfold insertion_sort in *. simpl. rewrite insert_by_perm. now constructor.
Qed.

Lemma insert_by_ordered (key : corr_row -> float) (ascending : bool)
  (r : corr_row) (l : list corr_row) :
  F64.isnan (key r) = false ->
  Forall (fun x => F64.isnan (key x) = false) l ->
  StronglySorted
    (fun x y => if ascending then F64.le (key x) (key y) = true
                else F64.le (key y) (key x) = true) l ->
  StronglySorted
    (fun x y => if ascending then F64.le (key x) (key y) = true
                else F64.le (key y) (key x) = true)
    (insert_by key ascending r l).
Proof.
  intros Hr Hnan Hs. induction Hs as [|x l Hs IH Hx]; simpl.
  - constructor; constructor.
  - inversion Hnan as [|? ? Hxn Hln]; subst.
    destruct ascending.
    + destruct (F64.lt (key r) (key x)) eqn:E.
      * constructor; [now constructor|]. constructor.
        -- now apply F64Facts.lt_le.
        -- rewrite List.Forall_forall in Hx |- *. intros y Hy.
           eapply F64Facts.le_trans; [apply F64Facts.lt_le; exact E|now apply Hx].
      * constructor; [now apply IH|].
        rewrite List.Forall_forall in Hx |- *. intros y Hy.
        apply (Permutation_in _ (insert_by_perm key true r l)) in Hy.
        destruct Hy as [<-|Hy]; [|now apply Hx].
        now apply F64Facts.not_lt_le.
    + destruct (F64.lt (key x) (key r)) eqn:E.
      * constructor; [now constructor|]. constructor.
        -- now apply F64Facts.lt_le.
        -- rewrite List.Forall_forall in Hx |- *. intros y Hy.
           eapply F64Facts.le_trans; [now apply Hx|apply F64Facts.lt_le; exact E].
      * constructor; [now apply IH|].
        rewrite List.Forall_forall in Hx |- *. intros y Hy.
        apply (Permutation_in _ (insert_by_perm key false r l)) in Hy.
        destruct Hy as [<-|Hy]; [|now apply Hx].
        now apply F64Facts.not_lt_le.
Qed.

Lemma StronglySorted_lookup {A} (R : A -> A -> Prop) (l : list A) :
  StronglySorted R l ->
  forall i j x y, i < j -> l !! i = Some x -> l !! j = Some y -> R x y.
Proof.
  induction 1 as [|a l Hs IH Ha]; intros i j x y Hij Hi Hj; [discriminate|].
  destruct j as [|j]; [lia|]. simpl in Hj. destruct i as [|i]; simpl in Hi.
  - injection Hi as <-. rewrite List.Forall_forall in Ha. apply Ha.
    apply In_lookup. now exists j.
  - apply (IH i j); [lia|assumption|assumption].
Qed.

(** The reference sort meets what is asked of [sort_values]. *)
Lemma insertion_sort_sorts : sorts_by_key insertion_sort.
Proof.
  intros key ascending l. split; [apply insertion_sort_perm|].
  intros Hnan. apply StronglySorted_lookup.
  induction Hnan as [|x l Hx Hnan IH]; [constructor|].
  change (insertion_sort key ascending (x :: l))
    with (insert_by key ascending x (insertion_sort key ascending l)).
  apply insert_by_ordered; [exact Hx| |exact IH].
  rewrite List.Forall_forall in Hnan |- *. intros y Hy. apply Hnan.
  now apply (Permutation_in _ (insertion_sort_perm key ascending l)).
Qed.

(* ====================================================================== *)
(** * PCA/clustering analyzer: cleaning and cluster profiles               *)
(* ====================================================================== *)

Lemma zip_Forall2 (df : DataFrame) (cols : list string) (cs : list (list float)) :
  Forall2 (fun c col => dict_get df c = Some col) cols cs ->
  columns (zip cols cs) = cols
  /\ values (zip cols cs) = cs
  /\ (forall c, In c cols -> dict_get (zip cols cs) c = dict_get df c)
  /\ (forall c, ~ In c cols -> dict_get (zip cols cs) c = None).
Proof.
  unfold columns, keys, values.
  induction 1 as [|c col cols cs Hc HF (IH1 & IH2 & IH3 & IH4)]; simpl.
  - repeat split; try reflexivity. intros c [].
  - rewrite IH1, IH2. repeat split; try reflexivity.
    + intros c' Hin. destruct (String.eqb c c') eqn:E.
      * apply String.eqb_eq in E as <-. now rewrite Hc.
      * apply IH3. destruct Hin as [->|Hin]; [|exact Hin].
        now rewrite String.eqb_refl in E.
    + intros c' Hnin. destruct (String.eqb c c') eqn:E.
      * apply String.eqb_eq in E as <-. exfalso. apply Hnin. now left.
      * apply IH4. intros Hin. apply Hnin. now right.
Qed.

Lemma frame_rows_zip (df : DataFrame) (n : nat) (cols : list string)
  (cs : list (list float)) :
  frame_rows df n ->
  Forall2 (fun c col => dict_get df c = Some col) cols cs ->
  frame_rows (zip cols cs) n.
Proof.
  intros Hrows. induction 1 as [|c col cols cs Hc HF IH]; simpl; constructor.
  - simpl. now apply (frame_rows_dict_get df n c).
  - exact IH.
Qed.

Lemma In_values_dict_get {V} (d : dict V) (v : V) :
  In v (values d) -> exists k, In k (keys d) /\ In (k, v) d.
Proof.
  unfold values, keys. intros H. apply in_map_iff in H as ([k v'] & <- & Hin).
  exists k. split; [|exact Hin]. apply in_map_iff. now exists (k, v').
Qed.

(** The rows [dropna()] keeps: a mask that is true exactly at the rows
    without a missing cell. *)
Lemma dropna_mask (df : DataFrame) (n : nat) :
  frame_rows df n -> df <> [] ->
  exists mask,
    dropna df = loc_rows mask df
    /\ length mask = n
    /\ forall i b, mask !! i = Some b ->
         (b = true <->
          forall col x, In col (values df) -> col !! i = Some x ->
                        F64.notna x = true).
Proof.
  intros Hrows Hne. unfold dropna.
  destruct (values df) as [|c cs] eqn:Ev.
  { destruct df; [congruence|discriminate]. }
  exists (notna_all c cs). split; [reflexivity|]. split.
  - apply length_notna_all. rewrite <- Ev. unfold values.
    apply List.Forall_forall. intros col Hcol.
    apply in_map_iff in Hcol as ([k v] & <- & Hin).
    exact (proj1 (List.Forall_forall _ _) Hrows (k, v) Hin).
  - intros i b Hi. exact (proj1 (notna_all_lookup _ _ _ _ Hi)).
Qed.

Lemma targets_missing_dec (df : DataFrame) :
  (forall target, In target config.TARGETS -> str_in target (columns df) = true)
  \/ (exists target, In target config.TARGETS
                     /\ str_in target (columns df) = false).
Proof.
  unfold config.TARGETS.
  destruct (str_in "pos" (columns df)) eqn:Ep.
  - destruct (str_in "egg" (columns df)) eqn:Ee.
    + left. intros target [<-|[<-|[]]]; assumption.
    + right. exists "egg"%string. simpl. auto.
  - right. exists "pos"%string. simpl. auto.
Qed.

(** X10. The cleaning step of the PCA/clustering analysis selects the
    candidate features and the two targets and keeps the rows without any
    missing cell among them.  Unlike the other two analyzers, which skip a
    missing target, it raises KeyError when a target column is missing; when
    it returns, every selected column is cut by one row mask, the mask is
    true exactly at the complete rows, and no cell of the result is NaN. *)
Theorem df_clean_keeps_the_complete_rows (df : DataFrame) (n : nat) :
  frame_rows df n ->
  ((exists target, In target config.TARGETS /\ ~ In target (columns df))
   <-> df_clean df = Raise KeyError)
  /\ ((forall target, In target config.TARGETS -> In target (columns df)) ->
      exists clean mask,
        df_clean df = Ok clean
        /\ columns clean = get_feature_columns df false ++ config.TARGETS
        /\ length mask = n
        /\ frame_rows clean (mask_sum mask)
        /\ (forall i b, mask !! i = Some b ->
              (b = true <->
               forall c col x,
                 In c (columns clean) -> dict_get df c = Some col ->
                 col !! i = Some x -> F64.notna x = true))
        /\ (forall c col,
              In c (columns clean) -> dict_get df c = Some col ->
              dict_get clean c = Some (loc_mask mask col))
        /\ (forall c col,
              dict_get clean c = Some col ->
              Forall (fun x => F64.isnan x = false) col)).
Proof.
  intros Hrows.
  set (cols := get_feature_columns df false ++ config.TARGETS).
  assert (Hok : (forall target, In target config.TARGETS ->
                                str_in target (columns df) = true) ->
                exists cs, getitems df cols = Ok cs).
  { intros Hall. apply getitems_present. intros c Hc.
    apply in_app_iff in Hc as [Hc|Hc]; [|now apply Hall].
    now apply (feature_columns_present df false). }
  split.
  - split.
    + intros (target & Ht & Hmiss). unfold df_clean, select_columns. fold cols.
      rewrite getitems_missing; [reflexivity|].
      exists target. split; [apply in_app_iff; now right|now apply str_in_false].
    + intros Hraise. destruct (targets_missing_dec df) as [Hall|(t & Ht & Hm)].
      * destruct (Hok Hall) as [cs Hcs]. unfold df_clean, select_columns in Hraise.
        fold cols in Hraise. rewrite Hcs in Hraise. discriminate.
      * exists t. split; [exact Ht|now apply str_in_false].
  - intros Hall.
    destruct Hok as [cs Hcs]; [intros t Ht; now apply str_in_spec, Hall|].
    pose proof (getitems_Forall2 _ _ _ Hcs) as HF.
    destruct (zip_Forall2 df cols cs HF) as (Hcolumns & Hvalues & Hget & Hnone).
    pose proof (frame_rows_zip df n cols cs Hrows HF) as Hrows'.
    assert (Hne : zip cols cs <> []).
    { intros Hnil. rewrite Hnil in Hcolumns. unfold cols in Hcolumns.
      destruct (get_feature_columns df false); discriminate. }
    destruct (dropna_mask (zip cols cs) n Hrows' Hne) as (mask & Hdrop & Hlen & Hmask).
    exists (loc_rows mask (zip cols cs)), mask.
    assert (Hspec : forall i b, mask !! i = Some b ->
              (b = true <->
               forall c col x,
                 In c cols -> dict_get df c = Some col ->
                 col !! i = Some x -> F64.notna x = true)).
    { intros i b Hi. rewrite (Hmask i b Hi). rewrite Hvalues. split.
      - intros H c col x Hc Hcol Hx. apply (H col x); [|exact Hx].
        apply In_lookup in Hc as [j Hj].
        destruct (Forall2_lookup_l _ _ _ _ _ HF Hj) as (col' & Hj' & Hcol').
        assert (col' = col) by congruence. subst. apply In_lookup. now exists j.
      - intros H col x Hcol Hx. apply In_lookup in Hcol as [j Hj].
        destruct (Forall2_lookup_r _ _ _ _ _ HF Hj) as (c & Hc & Hcol).
        apply (H c col x); [|exact Hcol|exact Hx]. apply In_lookup. now exists j. }
    split; [unfold df_clean, select_columns; fold cols; rewrite Hcs; simpl;
            now rewrite Hdrop|].
    rewrite columns_loc_rows, Hcolumns.
    split; [reflexivity|]. split; [exact Hlen|].
    split; [now apply (frame_rows_loc_rows _ _ n)|].
    split; [exact Hspec|]. split.
    + intros c col Hc Hcol. now rewrite dict_get_loc_rows, (Hget c Hc), Hcol.
    + intros c col Hcol. rewrite dict_get_loc_rows in Hcol.
      destruct (dict_get (zip cols cs) c) as [col0|] eqn:E0; [|discriminate].
      simpl in Hcol. injection Hcol as <-.
      assert (Hc : In c cols).
      { destruct (in_dec String.string_dec c cols) as [Hin|Hnin]; [exact Hin|].
        rewrite (Hnone c Hnin) in E0. discriminate. }
      rewrite (Hget c Hc) in E0.
      apply loc_mask_notna. intros i x Hi Hx.
      exact (proj1 (Hspec i true Hi) eq_refl c col0 x Hc E0 Hx).
Qed.

(** ** Cluster profiles *)

Lemma filter_lt_succ (cluster : list nat) (k : nat) :
  length (List.filter (fun c => (c <? S k)%nat) cluster)
  = length (List.filter (fun c => (c <? k)%nat) cluster)
    + length (List.filter (fun c => (c =? k)%nat) cluster).
Proof.
  induction cluster as [|c cluster IH]; simpl; [reflexivity|].
  destruct (Nat.ltb_spec c (S k)), (Nat.ltb_spec c k), (Nat.eqb_spec c k);
    simpl; lia.
Qed.

Lemma cluster_sizes_sum (cluster : list nat) (k : nat) :
  list_sum (map (fun i => length (List.filter (fun c => (c =? i)%nat) cluster))
              (seq 0 k))
  = length (List.filter (fun c => (c <? k)%nat) cluster).
Proof.
  induction k as [|k IH].
  - simpl. induction cluster as [|c cluster IHc]; simpl; [reflexivity|exact IHc].
  - rewrite seq_S, map_app, list_sum_app, IH, filter_lt_succ. simpl. lia.
Qed.

Lemma filter_all_true {A} (f : A -> bool) (l : list A) :
  (forall a, In a l -> f a = true) -> List.filter f l = l.
Proof.
  induction l as [|a l IH]; intros H; simpl; [reflexivity|].
  rewrite (H a (or_introl eq_refl)). f_equal. apply IH. intros; apply H; now right.
Qed.

(** X11. The cluster-characteristics table has one row per cluster id
    [0 .. optimal_k - 1], in order, and its sample counts add up to the
    number of rows whose label is below [optimal_k]: to all rows when every
    label is a cluster id, and a row with another label is counted nowhere. *)
Theorem cluster_sample_counts_add_up
  (mean std median : list float -> float)
  (df_clustered : clustered_frame) (optimal_k : nat) :
  let chars :=
    _analyze_cluster_characteristics mean std median df_clustered optimal_k in
  map cc_cluster chars = seq 0 optimal_k
  /\ (forall i char, chars !! i = Some char ->
        cc_n_samples char
        = length (List.filter (fun c => (c =? i)%nat) (cf_cluster df_clustered)))
  /\ list_sum (map cc_n_samples chars)
     = length (List.filter (fun c => (c <? optimal_k)%nat)
                 (cf_cluster df_clustered))
  /\ ((forall c, In c (cf_cluster df_clustered) -> c < optimal_k) ->
      list_sum (map cc_n_samples chars) = length (cf_cluster df_clustered)).
Proof.
  intros chars. unfold chars, _analyze_cluster_characteristics.
  assert (Hsum : list_sum
                   (map cc_n_samples
                      (map (cluster_char_of mean std median df_clustered)
                         (seq 0 optimal_k)))
                 = length (List.filter (fun c => (c <? optimal_k)%nat)
                             (cf_cluster df_clustered))).
  { rewrite map_map. simpl. apply cluster_sizes_sum. }
  split; [rewrite map_map; simpl; apply map_id|]. split; [|split].
  - intros i char Hi. rewrite lookup_map in Hi.
    destruct (seq 0 optimal_k !! i) as [j|] eqn:Ej; [|discriminate].
    simpl in Hi. injection Hi as <-. simpl.
    apply lookup_seq in Ej as [-> _]. reflexivity.
  - exact Hsum.
  - intros Hall. rewrite Hsum. f_equal. apply filter_all_true.
    intros c Hc. apply Nat.ltb_lt. now apply Hall.
Qed.

Lemma cluster_rows_group (cluster : list nat) (col : list float) (i : nat) :
  List.filter F64.notna (loc_mask (map (fun c => (c =? i)%nat) cluster) col)
  = group_values cluster col i.
Proof.
  unfold group_values. revert col.
  induction cluster as [|c cluster IH]; intros [|x col]; simpl; try reflexivity.
  destruct (c =? i)%nat; simpl; [|apply IH].
  destruct (F64.notna x); simpl; now rewrite IH.
Qed.

Lemma group_values_complete (cluster : list nat) (col : list float) (i : nat) :
  length col = length cluster ->
  Forall (fun x => F64.isnan x = false) col ->
  length (group_values cluster col i)
  = length (List.filter (fun c => (c =? i)%nat) cluster).
Proof.
  unfold group_values. revert col.
  induction cluster as [|c cluster IH]; intros [|x col] Hlen Hnan;
    simpl in *; try discriminate; [reflexivity|].
  inversion Hnan as [|? ? Hx Hrest]; subst. unfold F64.notna at 1. rewrite Hx.
  rewrite andb_true_r. destruct (c =? i)%nat; simpl; rewrite length_map in *;
    rewrite <- IH with (col := col) by (auto; lia); now rewrite length_map.
Qed.

(** X12. The mean, standard deviation and median reported for a cluster
    and a target are computed on exactly the sample that the
    Kruskal-Wallis test receives for that cluster (the non-missing target
    values of the cluster's rows); on a frame without missing target
    values the cluster's sample count is the size of that sample. *)
Theorem cluster_profile_summarises_the_tested_group
  (mean std median : list float -> float)
  (df_clustered : clustered_frame) (optimal_k cluster_id : nat)
  (target : string) (tcol : list float) :
  cluster_id < optimal_k ->
  In target config.TARGETS ->
  dict_get (cf_frame df_clustered) target = Some tcol ->
  exists char group,
    _analyze_cluster_characteristics mean std median df_clustered optimal_k
      !! cluster_id = Some char
    /\ map (group_values (cf_cluster df_clustered) tcol) (seq 0 optimal_k)
         !! cluster_id = Some group
    /\ cc_cluster char = cluster_id
    /\ dict_get (cc_stats char) (target ++ "_mean") = Some (mean group)
    /\ dict_get (cc_stats char) (target ++ "_std") = Some (std group)
    /\ dict_get (cc_stats char) (target ++ "_median") = Some (median group)
    /\ (length tcol = length (cf_cluster df_clustered) ->
        Forall (fun x => F64.isnan x = false) tcol ->
        cc_n_samples char = length group).
Proof.
  intros Hk Ht Htcol.
  exists (cluster_char_of mean std median df_clustered cluster_id),
         (group_values (cf_cluster df_clustered) tcol cluster_id).
  assert (Hseq : seq 0 optimal_k !! cluster_id = Some cluster_id)
    by now apply lookup_seq.
  split; [unfold _analyze_cluster_characteristics; now rewrite lookup_map, Hseq|].
  split; [now rewrite lookup_map, Hseq|]. split; [reflexivity|].
  assert (Hstats :
    dict_get (cc_stats (cluster_char_of mean std median df_clustered cluster_id))
      (target ++ "_mean")
    = Some (mean (group_values (cf_cluster df_clustered) tcol cluster_id))
    /\ dict_get (cc_stats (cluster_char_of mean std median df_clustered cluster_id))
         (target ++ "_std")
       = Some (std (group_values (cf_cluster df_clustered) tcol cluster_id))
    /\ dict_get (cc_stats (cluster_char_of mean std median df_clustered cluster_id))
         (target ++ "_median")
       = Some (median (group_values (cf_cluster df_clustered) tcol cluster_id))).
  { unfold cluster_char_of, cluster_rows, config.TARGETS. cbn [cc_stats cf_frame fold_left].
    rewrite !dict_get_loc_rows.
    destruct Ht as [<-|[<-|[]]]; rewrite Htcol; cbn [option_map];
      rewrite cluster_rows_group.
    - destruct (dict_get (cf_frame df_clustered) "egg") as [ecol|];
        cbn [option_map]; rewrite !dict_get_set; simpl; auto.
    - destruct (dict_get (cf_frame df_clustered) "pos") as [pcol|];
        cbn [option_map]; rewrite !dict_get_set; simpl; auto. }
  destruct Hstats as (Hm & Hs & Hd).
  split; [exact Hm|]. split; [exact Hs|]. split; [exact Hd|].
  intros Hlen Hnan. simpl. symmetry. now apply group_values_complete.
Qed.

(* ====================================================================== *)
(** * Lag/rolling analyzer: the tables of a target                         *)
(* ====================================================================== *)

Arguments week_cells : simpl never.

Lemma week_cells_keys (cell : nat -> float * float) :
  keys (week_cells cell) = lag_row_keys.
Proof. vm_compute. reflexivity. Qed.

Lemma week_cells_row_values (cell : nat -> float * float) :
  row_values (week_cells cell) lag_cols
  = Ok (map (fun week => fst (cell week)) config.LAG_RANGE).
Proof. vm_compute. reflexivity. Qed.

(** The pair the week loop stores for a week. *)
Lemma lag_table_row_explicit
  (spearmanr : list float -> list float -> float * float)
  (df : DataFrame) (target lag_type variable : string) :
  is_Some (dict_get df target) ->
  exists cell,
    lag_table_row spearmanr df target lag_type variable
    = Ok (if has_lag_columns df lag_type variable
          then Some (mk_lag_row variable (week_cells cell))
          else None)
    /\ forall week,
         lag_cell spearmanr df target (get_lag_features df variable lag_type) week
         = Ok (cell week).
Proof.
  intros Ht.
  set (cell := fun w =>
                 match lag_cell spearmanr df target
                         (get_lag_features df variable lag_type) w with
                 | Ok r => r
                 | Raise _ => (F64.nan, F64.nan)
                 end).
  assert (Hcell : forall week,
            lag_cell spearmanr df target (get_lag_features df variable lag_type) week
            = Ok (cell week)).
  { intros w. unfold cell.
    now destruct (lag_cell_returns spearmanr df target variable lag_type w Ht)
      as [r ->]. }
  exists cell. split; [|exact Hcell].
  unfold lag_table_row, has_lag_columns.
  destruct (length (get_lag_features df variable lag_type) =? 0)%nat; [reflexivity|].
  rewrite (week_loop_cells _ cell) by (intros w _; apply Hcell). reflexivity.
Qed.

Lemma collect_optional_rows {A B} (F : A -> result (option B)) (P : A -> bool)
  (rowf : A -> B) (ks : list A) (acc : list B) :
  (forall k, In k ks -> F k = Ok (if P k then Some (rowf k) else None)) ->
  for_ ks (fun k acc => row ← F k; Ok (acc ++ option_list row)) acc
  = Ok (acc ++ map rowf (List.filter P ks)).
Proof.
  revert acc. induction ks as [|k ks IH]; intros acc H; simpl.
  - now rewrite app_nil_r.
  - rewrite (H k (or_introl eq_refl)). simpl.
    rewrite IH by (intros; apply H; now right).
    destruct (P k); simpl; [now rewrite <- app_assoc|now rewrite app_nil_r].
Qed.

(** The table of a family, row by row. *)
Lemma analyze_lag_features_explicit
  (spearmanr : list float -> list float -> float * float)
  (df : DataFrame) (target lag_type : string) :
  is_Some (dict_get df target) ->
  exists cell : string -> nat -> float * float,
    _analyze_lag_features spearmanr df target lag_type
    = Ok (map (fun variable => mk_lag_row variable (week_cells (cell variable)))
            (List.filter (has_lag_columns df lag_type) config.LAG_VARIABLES))
    /\ forall variable week,
         lag_cell spearmanr df target (get_lag_features df variable lag_type) week
         = Ok (cell variable week).
Proof.
  intros Ht.
  set (cell := fun variable w =>
                 match lag_cell spearmanr df target
                         (get_lag_features df variable lag_type) w with
                 | Ok r => r
                 | Raise _ => (F64.nan, F64.nan)
                 end).
  assert (Hcell : forall variable week,
            lag_cell spearmanr df target (get_lag_features df variable lag_type) week
            = Ok (cell variable week)).
  { intros variable w. unfold cell.
    now destruct (lag_cell_returns spearmanr df target variable lag_type w Ht)
      as [r ->]. }
  exists cell. split; [|exact Hcell].
  unfold _analyze_lag_features.
  rewrite (collect_optional_rows
             (lag_table_row spearmanr df target lag_type)
             (has_lag_columns df lag_type)
             (fun variable => mk_lag_row variable (week_cells (cell variable))));
    [reflexivity|].
  intros variable _.
  destruct (lag_table_row_explicit spearmanr df target lag_type variable Ht)
    as (cell' & -> & Hcell').
  destruct (has_lag_columns df lag_type variable); [|reflexivity].
  do 3 f_equal. unfold week_cells.
  assert (Heq : forall w, cell' w = cell variable w).
  { intros w. specialize (Hcell' w). rewrite Hcell in Hcell'. congruence. }
  induction config.LAG_RANGE as [|w ws IH] using rev_ind; [reflexivity|].
  rewrite !fold_left_app. simpl. now rewrite IH, Heq.
Qed.

(** X14. The lag-correlation table of a family has one row for each
    tracked variable that has at least one lag column of that family, in
    the order of [LAG_VARIABLES], and none for the others.  Every row holds
    the 24 cells [lag_1, lag_1_p, ..., lag_12, lag_12_p], so its twelve
    coefficients can always be read back, and a week to which no column was
    matched holds NaN for both. *)
Theorem analyze_lag_features_has_a_full_row_per_variable
  (spearmanr : list float -> list float -> float * float)
  (df : DataFrame) (target lag_type : string) :
  is_Some (dict_get df target) ->
  exists table,
    _analyze_lag_features spearmanr df target lag_type = Ok table
    /\ map lr_variable table
       = List.filter (has_lag_columns df lag_type) config.LAG_VARIABLES
    /\ (forall row, In row table ->
          keys (lr_cells row) = lag_row_keys
          /\ exists corrs,
               row_values (lr_cells row) lag_cols = Ok corrs
               /\ length corrs = length config.LAG_RANGE)
    /\ (forall row week,
          In row table -> In week config.LAG_RANGE ->
          matching_features
            (get_lag_features df (lr_variable row) lag_type) week = [] ->
          dict_get (lr_cells row) (lag_col week) = Some F64.nan
          /\ dict_get (lr_cells row) (lag_p_col week) = Some F64.nan).
Proof.
  intros Ht.
  destruct (analyze_lag_features_explicit spearmanr df target lag_type Ht)
    as (cell & Hrun & Hcell).
  eexists. split; [exact Hrun|]. split; [|split].
  - rewrite map_map. simpl. apply map_id.
  - intros row Hrow. apply in_map_iff in Hrow as (variable & <- & _). cbn [lr_cells lr_variable].
    split; [apply week_cells_keys|].
    eexists. split; [apply week_cells_row_values|]. now rewrite length_map.
  - intros row week Hrow Hweek Hnone.
    apply in_map_iff in Hrow as (variable & <- & _). cbn [lr_cells lr_variable] in *.
    assert (Hnan : cell variable week = (F64.nan, F64.nan)).
    { specialize (Hcell variable week). unfold lag_cell in Hcell.
      rewrite Hnone in Hcell. congruence. }
    destruct (week_cells_lookup (cell variable) week Hweek) as [Hc Hp].
    fold (week_cells (cell variable)) in Hc, Hp.
    now rewrite Hc, Hp, Hnan.
Qed.

Lemma filter_nonempty {A} (f : A -> bool) (l : list A) (a : A) :
  In a l -> f a = true -> List.filter f l <> [].
Proof.
  intros Hin Hf Hnil.
  assert (H : In a (List.filter f l)) by now apply filter_In.
  now rewrite Hnil in H.
Qed.

Lemma has_lag_columns_spec (df : DataFrame) (lag_type variable : string) :
  has_lag_columns df lag_type variable = true
  <-> get_lag_features df variable lag_type <> [].
Proof.
  unfold has_lag_columns.
  destruct (get_lag_features df variable lag_type); simpl; split;
    congruence || discriminate.
Qed.

(** What the table step and the optimum step do together for one target. *)
Lemma target_tables_cases
  (spearmanr : list float -> list float -> float * float)
  (df : DataFrame) (target : string) :
  is_Some (dict_get df target) ->
  exists simple rolling,
    _analyze_lag_features spearmanr df target "simple" = Ok simple
    /\ _analyze_lag_features spearmanr df target "rolling" = Ok rolling
    /\ map lr_variable simple
       = List.filter (has_lag_columns df "simple") config.LAG_VARIABLES
    /\ map lr_variable rolling
       = List.filter (has_lag_columns df "rolling") config.LAG_VARIABLES
    /\ (forall r, In r (simple ++ rolling) ->
          exists corrs, row_values (lr_cells r) lag_cols = Ok corrs
                        /\ length corrs = length config.LAG_RANGE).
Proof.
  intros Ht.
  destruct (analyze_lag_features_explicit spearmanr df target "simple" Ht)
    as (cs & Hs & _).
  destruct (analyze_lag_features_explicit spearmanr df target "rolling" Ht)
    as (cr & Hr & _).
  eexists _, _. split; [exact Hs|]. split; [exact Hr|].
  split; [rewrite map_map; simpl; apply map_id|].
  split; [rewrite map_map; simpl; apply map_id|].
  intros r Hin. apply in_app_iff in Hin as [Hin|Hin];
    apply in_map_iff in Hin as (variable & <- & _); cbn [lr_cells];
    (eexists; split; [apply week_cells_row_values|now rewrite length_map]).
Qed.

(** X15. On a frame that has a target column and a simple lag column of
    some tracked variable but no rolling lag column at all,
    [LagRollingAnalyzer.analyze] stops with KeyError: the empty rolling
    table has no ['variable'] column for [_find_optimal_lags] to filter. *)
Theorem lag_analyze_raises_without_rolling_columns
  (spearmanr : list float -> list float -> float * float)
  (figures : Type)
  (create_figures : list lag_row -> list lag_row -> string -> result figures)
  (df : DataFrame) :
  (exists target, In target config.TARGETS /\ In target (columns df)) ->
  (exists variable, In variable config.LAG_VARIABLES
                    /\ get_lag_features df variable "simple" <> []) ->
  (forall variable, In variable config.LAG_VARIABLES ->
                    get_lag_features df variable "rolling" = []) ->
  lag_rolling_analyzer.analyze spearmanr figures create_figures df
  = Raise KeyError.
Proof.
  intros (target & Ht & Hc) (variable & Hv & Hsimple) Hrolling.
  assert (Hstep : forall t, str_in t (columns df) = true ->
            lag_rolling_analyzer.target_tables spearmanr df t = Raise KeyError).
  { intros t Hpresent. apply dict_get_keys in Hpresent.
    destruct (target_tables_cases spearmanr df t Hpresent)
      as (simple & rolling & Hs & Hr & Hsv & Hrv & Hrows).
    unfold lag_rolling_analyzer.target_tables. rewrite Hs, Hr. simpl.
    assert (Hrn : rolling = []).
    { apply (f_equal (@length string)) in Hrv. rewrite length_map in Hrv.
      rewrite (filter_nil_of_false (has_lag_columns df "rolling")) in Hrv.
      - now destruct rolling.
      - intros v Hin. destruct (has_lag_columns df "rolling" v) eqn:E;
          [|reflexivity].
        apply has_lag_columns_spec in E. now rewrite Hrolling in E. }
    subst rolling.
    destruct simple as [|row simple].
    { exfalso. symmetry in Hsv.
      apply (filter_nonempty _ _ variable Hv) in Hsv; [exact Hsv|].
      now apply has_lag_columns_spec. }
    destruct (Hrows row) as (corrs & Hcorrs & Hlen); [now left|].
    unfold _find_optimal_lags. simpl. unfold optimal_lag_of_row.
    rewrite Hcorrs. simpl.
    destruct (optimal_of_spec corrs Hlen) as (week & corr & -> & _). reflexivity. }
  apply str_in_spec in Hc.
  unfold lag_rolling_analyzer.analyze, config.TARGETS in *. simpl.
  destruct (str_in "pos" (columns df)) eqn:Epos; simpl.
  - now rewrite (Hstep "pos"%string Epos).
  - destruct (str_in "egg" (columns df)) eqn:Eegg; simpl.
    + now rewrite (Hstep "egg"%string Eegg).
    + destruct Ht as [<-|[<-|[]]]; congruence.
Qed.

Lemma find_optimal_lags_variables (simple rolling : list lag_row)
  (optimal : list optimal_lag) :
  _find_optimal_lags simple rolling = Ok optimal ->
  Forall2 (optimal_lag_meets_spec rolling) simple optimal.
Proof.
  unfold _find_optimal_lags. intros H.
  apply (for_collect_gen_inv (optimal_lag_of_row rolling) (fun o => [o])) in H.
  destruct H as (rs & HF & ->). simpl. rewrite flat_map_singleton.
  eapply Forall2_impl; [exact HF|]. intros row o Ho.
  now apply optimal_lag_of_row_Ok.
Qed.

(** X16. When the frame has a rolling lag column of some tracked
    variable (or no simple lag column at all), the three tables of a target
    are always produced: the tables written by [_analyze_lag_features] are
    what [_find_optimal_lags] needs.  The optimal-lag table then has one
    entry for each variable with a simple lag column, in that order; a
    variable that has only rolling columns gets no entry, and an entry of a
    variable without rolling columns reports NaN for the rolling optimum. *)
Theorem lag_target_tables_are_produced
  (spearmanr : list float -> list float -> float * float)
  (df : DataFrame) (target : string) :
  is_Some (dict_get df target) ->
  (exists variable, In variable config.LAG_VARIABLES
                    /\ get_lag_features df variable "rolling" <> [])
  \/ (forall variable, In variable config.LAG_VARIABLES ->
                       get_lag_features df variable "simple" = []) ->
  exists tables,
    lag_rolling_analyzer.target_tables spearmanr df target = Ok tables
    /\ map lr_variable (lag_simple tables)
       = List.filter (has_lag_columns df "simple") config.LAG_VARIABLES
    /\ map lr_variable (lag_rolling tables)
       = List.filter (has_lag_columns df "rolling") config.LAG_VARIABLES
    /\ map ol_variable (optimal_lags tables) = map lr_variable (lag_simple tables)
    /\ forall o, In o (optimal_lags tables) ->
         has_lag_columns df "rolling" (ol_variable o) = false ->
         optimal_lag_rolling_weeks o = WeekFloat F64.nan
         /\ optimal_lag_rolling_correlation o = F64.nan.
Proof.
  intros Ht Hcase.
  destruct (target_tables_cases spearmanr df target Ht)
    as (simple & rolling & Hs & Hr & Hsv & Hrv & Hrows).
  assert (Hshape : simple = [] \/ rolling <> []).
  { destruct Hcase as [(variable & Hv & Hroll)|Hnone].
    - right. intros ->. simpl in Hrv. symmetry in Hrv.
      apply (filter_nonempty _ _ variable Hv) in Hrv; [exact Hrv|].
      now apply has_lag_columns_spec.
    - left. apply (f_equal (@length string)) in Hsv. rewrite length_map in Hsv.
      rewrite (filter_nil_of_false (has_lag_columns df "simple")) in Hsv.
      + now destruct simple.
      + intros v Hin. destruct (has_lag_columns df "simple" v) eqn:E;
          [|reflexivity].
        apply has_lag_columns_spec in E. now rewrite Hnone in E. }
  assert (Hopt : exists optimal, _find_optimal_lags simple rolling = Ok optimal).
  { unfold _find_optimal_lags.
    destruct Hshape as [->|Hne]; [simpl; eauto|].
    destruct (Forall2_of_pointwise
                (fun row o => optimal_lag_of_row rolling row = Ok o) simple)
      as [os Hos].
    { intros row Hrow. apply optimal_lag_of_row_returns; [exact Hne|].
      intros r Hr'. destruct (Hrows r) as (corrs & Hcorrs & _); [|eauto].
      apply in_app_iff. destruct Hr' as [<-|Hr']; [now left|now right]. }
    exists ([] ++ os). now apply for_collect. }
  destruct Hopt as [optimal Hoptimal].
  exists (mk_lag_tables simple rolling optimal).
  split; [unfold lag_rolling_analyzer.target_tables;
          rewrite Hs, Hr; simpl; now rewrite Hoptimal|].
  simpl. split; [exact Hsv|]. split; [exact Hrv|].
  pose proof (find_optimal_lags_variables _ _ _ Hoptimal) as HF.
  split.
  - clear -HF. induction HF as [|row o simple optimal Ho HF IH]; simpl;
      [reflexivity|].
    destruct Ho as [-> _]. now rewrite IH.
  - intros o Ho Hno. apply In_lookup in Ho as [i Hi].
    destruct (Forall2_lookup_r _ _ _ _ _ HF Hi) as (row & _ & Hspec).
    destruct Hspec as (Hvar & _ & _ & Hroll).
    destruct (List.find _ rolling) as [r|] eqn:Ef; [|exact Hroll].
    exfalso. apply find_some in Ef as [Hin Heq].
    apply String.eqb_eq in Heq.
    assert (Hmem : In (lr_variable r) (map lr_variable rolling))
      by now apply in_map.
    rewrite Hrv in Hmem. apply filter_In in Hmem as [_ Hhas].
    rewrite Heq, <- Hvar in Hhas. congruence.
Qed.

(* ====================================================================== *)
(** * Comparator: overlap of the two predictor lists, clustering table     *)
(* ====================================================================== *)

Lemma cities_with_all (city_significant : dict (gset string)) (feature : string) :
  (forall s, In s (values city_significant) -> feature ∈ s) ->
  cities_with city_significant feature = keys city_significant.
Proof.
  unfold cities_with, keys, values.
  induction city_significant as [|[city s] cs IH]; intros H; simpl; [reflexivity|].
  rewrite bool_decide_eq_true_2 by (apply H; now left). simpl. f_equal.
  apply IH. intros s' Hs'. apply H. now right.
Qed.

(** X17. The two predictor lists of an outcome overlap when fewer than
    three cities supply results: with one or two supplying cities every
    universal predictor is also listed as city-specific (with all the
    supplying cities), whereas with three or more no universal predictor is
    city-specific. *)
Theorem universal_predictors_are_city_specific_below_three_cities
  (city_results : dict (dict (dict Series))) (target : string)
  (u u' : dict (gset string)) (c c' : dict (gmap string (list string))) :
  identify_target city_results target (u, c) = Ok (u', c') ->
  supplied city_results target <> [] ->
  exists universal city_specific,
    dict_get u' target = Some universal
    /\ dict_get c' target = Some city_specific
    /\ (length (supplied city_results target) <= 2 ->
        forall feature,
          feature ∈ universal ->
          city_specific !! feature
          = Some (map fst (supplied city_results target)))
    /\ (3 <= length (supplied city_results target) ->
        forall feature, feature ∈ universal -> city_specific !! feature = None).
Proof.
  intros Hrun Hne.
  apply identify_target_Ok in Hrun as [(Hnil & _)|(first & others & Hv & -> & ->)];
    [contradiction|].
  exists (set_intersection first others),
         (city_specific_of (map city_set (supplied city_results target))).
  split; [now rewrite dict_get_set, String.eqb_refl|].
  split; [now rewrite dict_get_set, String.eqb_refl|].
  assert (Hall : forall feature,
            feature ∈ set_intersection first others ->
            cities_with (map city_set (supplied city_results target)) feature
            = map fst (supplied city_results target)).
  { intros feature Hin. apply set_intersection_spec in Hin as [Hf Ho].
    rewrite cities_with_all.
    - unfold keys. rewrite map_map. reflexivity.
    - rewrite Hv. intros s [<-|Hs]; [exact Hf|now apply Ho]. }
  assert (Hpos : 1 <= length (supplied city_results target))
    by (destruct (supplied city_results target); [congruence|simpl; lia]).
  split.
  - intros Hle feature Hin. rewrite city_specific_lookup, (Hall feature Hin).
    rewrite length_map.
    destruct (Nat.leb_spec 1 (length (supplied city_results target))); [|lia].
    destruct (Nat.leb_spec (length (supplied city_results target)) 2); [|lia].
    reflexivity.
  - intros Hge feature Hin. rewrite city_specific_lookup, (Hall feature Hin).
    rewrite length_map.
    destruct (Nat.leb_spec (length (supplied city_results target)) 2); [lia|].
    now rewrite andb_false_r.
Qed.

(** ** The clustering comparison *)

Lemma for_append {A B} (body : A -> list B -> result (list B)) (g : A -> list B)
  (ks : list A) (acc : list B) :
  (forall k acc, In k ks -> body k acc = Ok (acc ++ g k)) ->
  for_ ks body acc = Ok (acc ++ flat_map g ks).
Proof.
  revert acc. induction ks as [|k ks IH]; intros acc H; simpl.
  - now rewrite app_nil_r.
  - rewrite (H k acc (or_introl eq_refl)). simpl.
    rewrite IH by (intros; apply H; now right). now rewrite <- app_assoc.
Qed.

Lemma compare_clustering_supply (city_results : dict (dict (dict cell))) :
  _compare_clustering city_results
  = Ok (flat_map (clustering_supply city_results) config.CITY_ORDER).
Proof.
  unfold _compare_clustering.
  rewrite (for_append _ (clustering_supply city_results)); [reflexivity|].
  intros city_key acc Hin. unfold clustering_supply.
  destruct (dict_get city_results city_key) as [analyses|];
    [|now rewrite app_nil_r].
  assert (Hname : exists city_name, config.CITIES_name_en city_key = Ok city_name).
  { unfold config.CITY_ORDER in Hin. simpl in Hin.
    repeat (destruct Hin as [<-|Hin]; [eexists; reflexivity|]). destruct Hin. }
  destruct Hname as [city_name ->]. simpl.
  destruct (dict_get analyses "pca_clustering"); [reflexivity|].
  now rewrite app_nil_r.
Qed.

Lemma clustering_row_cells (city_name : string) (pca_res : dict cell) :
  let row := clustering_row city_name pca_res in
  dict_get row "city" = Some (CStr city_name)
  /\ dict_get row "n_components" = Some (get_or_nan pca_res "n_components")
  /\ dict_get row "variance_explained"
     = Some (get_or_nan pca_res "total_variance_explained")
  /\ dict_get row "optimal_k" = Some (get_or_nan pca_res "optimal_k")
  /\ dict_get row "silhouette" = Some (get_or_nan pca_res "optimal_silhouette")
  /\ dict_get row "pos_kruskal_p" = dict_get pca_res "pos_kruskal_p"
  /\ dict_get row "egg_kruskal_p" = dict_get pca_res "egg_kruskal_p".
Proof.
  unfold clustering_row, config.TARGETS. cbn [fold_left].
  change ("pos" ++ "_kruskal_p")%string with "pos_kruskal_p"%string.
  change ("egg" ++ "_kruskal_p")%string with "egg_kruskal_p"%string.
  destruct (dict_get pca_res "pos_kruskal_p"), (dict_get pca_res "egg_kruskal_p");
    repeat split; reflexivity.
Qed.

Lemma dict_get_app_other {V} (d : dict V) (k k' : string) (v : V) :
  k <> k' -> dict_get (d ++ [(k, v)]) k' = dict_get d k'.
Proof.
  intros Hne. induction d as [|[k0 v0] d IH]; simpl.
  - destruct (String.eqb_spec k k'); [contradiction|reflexivity].
  - destruct (String.eqb k0 k'); [reflexivity|exact IH].
Qed.

Lemma flat_map_ext_In {A B} (f g : A -> list B) (l : list A) :
  (forall a, In a l -> f a = g a) -> flat_map f l = flat_map g l.
Proof.
  induction l as [|a l IH]; intros H; simpl; [reflexivity|].
  rewrite (H a (or_introl eq_refl)), IH; [reflexivity|].
  intros; apply H; now right.
Qed.

Lemma length_flat_map_at_most_one {A B} (g : A -> list B) (l : list A) :
  (forall a, length (g a) <= 1) -> length (flat_map g l) <= length l.
Proof.
  intros H. induction l as [|a l IH]; simpl; [lia|].
  rewrite length_app. specialize (H a). lia.
Qed.

Lemma Forall2_filter_flat_map {A B} (keep : A -> bool) (g : A -> list B)
  (P : A -> B -> Prop) (l : list A) :
  (forall a, In a l ->
     if keep a then exists b, g a = [b] /\ P a b else g a = []) ->
  Forall2 P (List.filter keep l) (flat_map g l).
Proof.
  induction l as [|a l IH]; intros H; simpl; [constructor|].
  pose proof (H a (or_introl eq_refl)) as Ha.
  assert (IH' : Forall2 P (List.filter keep l) (flat_map g l))
    by (apply IH; intros; apply H; now right).
  destruct (keep a).
  - destruct Ha as (b & -> & Hb). simpl. now constructor.
  - now rewrite Ha.
Qed.

Lemma clustering_row_columns (city_name : string) (pca_res : dict cell)
  (column : string) :
  is_Some (dict_get (clustering_row city_name pca_res) column) ->
  In column ["city"; "n_components"; "variance_explained"; "optimal_k";
             "silhouette"; "pos_kruskal_p"; "egg_kruskal_p"]%string.
Proof.
  intros H. apply dict_get_keys, str_in_spec in H. revert H.
  unfold clustering_row, config.TARGETS. cbn [fold_left].
  change ("pos" ++ "_kruskal_p")%string with "pos_kruskal_p"%string.
  change ("egg" ++ "_kruskal_p")%string with "egg_kruskal_p"%string.
  destruct (dict_get pca_res "pos_kruskal_p"), (dict_get pca_res "egg_kruskal_p");
    simpl; tauto.
Qed.

(** X18. [_compare_clustering] never raises and reports the configured
    cities only: its table has exactly one row for each city of
    [CITY_ORDER] that has PCA/clustering results, in the order of
    [CITY_ORDER], named by the city's English name; each of the four
    scalars is copied from the results, and is the float NaN when the
    results lack it; the Kruskal-Wallis p-values are copied when present
    and absent otherwise, and the row has no other column.  A city key
    outside [CITY_ORDER] contributes nothing. *)
Theorem compare_clustering_reports_the_configured_cities
  (city_results : dict (dict (dict cell))) :
  exists comparison,
    _compare_clustering city_results = Ok comparison
    /\ Forall2
         (fun city_key row =>
            exists city_name analyses pca_res,
              config.CITIES_name_en city_key = Ok city_name
              /\ dict_get city_results city_key = Some analyses
              /\ dict_get analyses "pca_clustering" = Some pca_res
              /\ dict_get row "city" = Some (CStr city_name)
              /\ dict_get row "n_components"
                 = Some (match dict_get pca_res "n_components" with
                         | Some v => v
                         | None => CFloat F64.nan
                         end)
              /\ dict_get row "variance_explained"
                 = Some (match dict_get pca_res "total_variance_explained" with
                         | Some v => v
                         | None => CFloat F64.nan
                         end)
              /\ dict_get row "optimal_k"
                 = Some (match dict_get pca_res "optimal_k" with
                         | Some v => v
                         | None => CFloat F64.nan
                         end)
              /\ dict_get row "silhouette"
                 = Some (match dict_get pca_res "optimal_silhouette" with
                         | Some v => v
                         | None => CFloat F64.nan
                         end)
              /\ dict_get row "pos_kruskal_p" = dict_get pca_res "pos_kruskal_p"
              /\ dict_get row "egg_kruskal_p" = dict_get pca_res "egg_kruskal_p"
              /\ (forall column,
                    is_Some (dict_get row column) ->
                    In column ["city"; "n_components"; "variance_explained";
                               "optimal_k"; "silhouette"; "pos_kruskal_p";
                               "egg_kruskal_p"]%string))
         (List.filter
            (fun city_key =>
               match dict_get city_results city_key with
               | Some analyses =>
                   match dict_get analyses "pca_clustering" with
                   | Some _ => true
                   | None => false
                   end
               | None => false
               end)
            config.CITY_ORDER)
         comparison
    /\ length comparison <= length config.CITY_ORDER
    /\ (forall extra_key extra,
          ~ In extra_key config.CITY_ORDER ->
          _compare_clustering (city_results ++ [(extra_key, extra)])
          = Ok comparison).
Proof.
  exists (flat_map (clustering_supply city_results) config.CITY_ORDER).
  split; [apply compare_clustering_supply|]. split; [|split].
  - apply Forall2_filter_flat_map. intros city_key Hkey.
    assert (Hname : exists city_name, config.CITIES_name_en city_key = Ok city_name).
    { unfold config.CITY_ORDER in Hkey. simpl in Hkey.
      repeat (destruct Hkey as [<-|Hkey]; [eexists; reflexivity|]). destruct Hkey. }
    destruct Hname as [city_name Hn]. unfold clustering_supply. rewrite Hn.
    destruct (dict_get city_results city_key) as [analyses|]; [|reflexivity].
    destruct (dict_get analyses "pca_clustering") as [pca_res|] eqn:Ep;
      [|reflexivity].
    eexists. split; [reflexivity|].
    exists city_name, analyses, pca_res.
    split; [reflexivity|]. split; [reflexivity|]. split; [exact Ep|].
    pose proof (clustering_row_cells city_name pca_res) as Hcells.
    cbv zeta in Hcells. unfold get_or_nan in Hcells.
    destruct Hcells as (Hc & Hn' & Hv & Hk & Hs & Hpos & Hegg).
    repeat (split; [assumption|]). apply clustering_row_columns.
  - apply length_flat_map_at_most_one. intros city_key. unfold clustering_supply.
    destruct (dict_get city_results city_key) as [analyses|]; [|simpl; lia].
    destruct (config.CITIES_name_en city_key); [|simpl; lia].
    destruct (dict_get analyses "pca_clustering"); simpl; lia.
  - intros extra_key extra Hextra. rewrite compare_clustering_supply. f_equal.
    apply flat_map_ext_In. intros city_key Hkey. unfold clustering_supply.
    rewrite dict_get_app_other; [reflexivity|].
    intros ->. contradiction.
Qed.

(* ====================================================================== *)
(** * Per-city bookkeeping of the analyzers                                *)
(* ====================================================================== *)

Lemma keys_app {V} (a b : dict V) : keys (a ++ b) = keys a ++ keys b.
Proof. unfold keys. apply map_app. Qed.

Lemma dict_get_set_is_Some {V} (d : dict V) (k k' : string) (v : V) :
  is_Some (dict_get (dict_set d k v) k') <-> k = k' \/ is_Some (dict_get d k').
Proof.
  rewrite dict_get_set. destruct (String.eqb_spec k k') as [->|Hne].
  - split; [now left|]. intros _. now exists v.
  - split; [now right|]. intros [Heq|H]; [contradiction|exact H].
Qed.

(** The loop of [analyze_all_cities], when it completes. *)
Lemma analyze_all_cities_from_Ok (results : Type)
  (analyze : DataFrame -> string -> result results)
  (city_dataframes : dict DataFrame) (acc all_results : dict results)
  (self self' : analyzer results) :
  analyze_all_cities_from results analyze city_dataframes acc self
  = (Ok all_results, self') ->
  name self' = name self
  /\ (city_results self = acc -> city_results self' = all_results)
  /\ (forall city_key,
        is_Some (dict_get all_results city_key)
        <-> is_Some (dict_get acc city_key) \/ In city_key (keys city_dataframes))
  /\ (forall city_key, In city_key (keys city_dataframes) ->
        exists city_name, config.CITIES_name_en city_key = Ok city_name)
  /\ (forall before last_key last_df,
        city_dataframes = before ++ [(last_key, last_df)] ->
        exists latest,
          analyze last_df last_key = Ok latest
          /\ self_results self' = Some latest).
Proof.
  revert acc self. induction city_dataframes as [|[k df] rest IH];
    intros acc self H; simpl in H.
  - injection H as <- <-. split; [reflexivity|]. split; [auto|].
    split; [intros; simpl; tauto|]. split; [intros ? []|].
    intros [|? ?] ? ? Hnil; discriminate Hnil.
  - destruct (config.CITIES_name_en k) as [city_name|] eqn:En; [|discriminate].
    unfold analyze_city in H.
    destruct (analyze df k) as [r|] eqn:Er; [|discriminate].
    pose proof H as H0.
    apply IH in H as (Hname & Hcity & Hkeys & Hconf & Hlast).
    split; [exact Hname|]. split; [|split; [|split]].
    + intros Hacc. apply Hcity. simpl. now rewrite Hacc.
    + intros city_key. rewrite Hkeys, dict_get_set_is_Some. simpl. tauto.
    + intros city_key [<-|Hin]; [now exists city_name|now apply Hconf].
    + intros before last_key last_df Heq.
      destruct before as [|kv before]; simpl in Heq.
      * injection Heq as Hk Hdf Hrest. subst k df rest.
        exists r. split; [exact Er|].
        simpl in H0. now injection H0 as _ <-.
      * injection Heq as _ Hrest. now apply (Hlast before last_key last_df).
Qed.

(** X19. After [analyze_all_cities] has run over a dict of frames, the
    analyzer holds one stored result per city, but [self.results] holds
    only those of the city analysed last.  [save_city_outputs(city)] checks
    that the city has stored results and then saves [self.results]: for
    every analysed city it writes the last city's results into that
    city's directory; for a configured city that was not analysed it raises
    ValueError. *)
Theorem save_city_outputs_writes_the_latest_results
  (results saved_files : Type)
  (analyze : DataFrame -> string -> result results)
  (write_outputs : results -> list string -> result saved_files)
  (OUTPUT_DIR analyzer_name sub : string)
  (before : dict DataFrame) (last_key : string) (last_df : DataFrame)
  (all_results : dict results) (self' : analyzer results) :
  config.CITY_OUTPUT_STRUCTURE analyzer_name = Ok sub ->
  analyze_all_cities analyze (before ++ [(last_key, last_df)])
    (new_analyzer analyzer_name)
  = (Ok all_results, self') ->
  exists latest,
    analyze last_df last_key = Ok latest
    /\ self_results self' = Some latest
    /\ city_results self' = all_results
    /\ (forall city_key,
          is_Some (dict_get all_results city_key)
          <-> In city_key (keys (before ++ [(last_key, last_df)])))
    /\ (forall city_key,
          In city_key (keys (before ++ [(last_key, last_df)])) ->
          exists city_name,
            config.CITIES_name_en city_key = Ok city_name
            /\ save_city_outputs write_outputs OUTPUT_DIR self' city_key
               = write_outputs latest [OUTPUT_DIR; str_lower city_name; sub])
    /\ (forall city_key,
          In city_key config.CITY_ORDER ->
          ~ In city_key (keys (before ++ [(last_key, last_df)])) ->
          save_city_outputs write_outputs OUTPUT_DIR self' city_key
          = Raise ValueError).
Proof.
  intros Hsub Hrun. unfold analyze_all_cities in Hrun.
  apply analyze_all_cities_from_Ok in Hrun
    as (Hname & Hcity & Hkeys & Hconf & Hlast).
  destruct (Hlast before last_key last_df eq_refl) as (latest & Hlatest & Hself).
  specialize (Hcity eq_refl). simpl in Hname.
  assert (Hkeys' : forall city_key,
            is_Some (dict_get all_results city_key)
            <-> In city_key (keys (before ++ [(last_key, last_df)]))).
  { intros city_key. rewrite Hkeys. simpl. split; [|now right].
    intros [[x Hx]|Hin]; [discriminate|exact Hin]. }
  exists latest. split; [exact Hlatest|]. split; [exact Hself|].
  split; [exact Hcity|]. split; [exact Hkeys'|]. split.
  - intros city_key Hin. destruct (Hconf city_key Hin) as [city_name Hn].
    exists city_name. split; [exact Hn|].
    unfold save_city_outputs, get_city_output_dir. rewrite Hn, Hname, Hsub. simpl.
    rewrite Hcity.
    rewrite (proj2 (dict_get_keys all_results city_key)) by now apply Hkeys'.
    simpl. unfold save_outputs. now rewrite Hself.
  - intros city_key Hconfigured Hnot.
    assert (Hname' : exists city_name,
               config.CITIES_name_en city_key = Ok city_name).
    { unfold config.CITY_ORDER in Hconfigured. simpl in Hconfigured.
      repeat (destruct Hconfigured as [<-|Hconfigured]; [eexists; reflexivity|]).
      destruct Hconfigured. }
    destruct Hname' as [city_name Hn].
    unfold save_city_outputs, get_city_output_dir. rewrite Hn, Hname, Hsub. simpl.
    rewrite Hcity.
    destruct (str_in city_key (keys all_results)) eqn:E; [|reflexivity].
    exfalso. apply Hnot, Hkeys'. now apply dict_get_keys.
Qed.

(* ====================================================================== *)
(** * PCA: the component count when the target is out of reach             *)
(* ====================================================================== *)

Lemma first_true_all_false (l : list bool) :
  Forall (fun b => b = false) l -> first_true l = None.
Proof.
  induction 1 as [|b l Hb Hl IH]; simpl; [reflexivity|]. now rewrite Hb, IH.
Qed.

(** X13. When no running sum of the explained-variance ratios reaches the
    variance target, [_perform_pca] does not fail and does not keep all
    components: it keeps exactly one, and reports as total explained
    variance the first ratio, which is below the target. *)
Theorem perform_pca_keeps_one_component_when_target_unreached
  (matrix : Type) (PCA_fit : option nat -> matrix -> result (fitted_pca matrix))
  (X_scaled : matrix) (pca_full pca_one : fitted_pca matrix)
  (variance_target first : float) (rest : list float) :
  PCA_fit None X_scaled = Ok pca_full ->
  explained_variance_ratio_ pca_full = first :: rest ->
  PCA_fit (Some 1) X_scaled = Ok pca_one ->
  Forall (fun c => F64.ge c variance_target = false) (cumsum (first :: rest)) ->
  exists res,
    perform_pca_at PCA_fit variance_target X_scaled = Ok res
    /\ n_components res = 1
    /\ total_variance_explained res = first
    /\ F64.ge (total_variance_explained res) variance_target = false
    /\ X_pca res = transformed pca_one
    /\ explained_variance_ratio res = explained_variance_ratio_ pca_one.
Proof.
  intros Hfull Hratios Hone Hunreached.
  unfold perform_pca_at. rewrite Hfull. simpl. rewrite Hratios.
  assert (Hfirst : first_true
                     (map (fun c => F64.ge c variance_target)
                        (cumsum (first :: rest))) = None).
  { apply first_true_all_false. apply List.Forall_forall. intros b Hb.
    apply in_map_iff in Hb as (c & <- & Hc).
    exact (proj1 (List.Forall_forall _ _) Hunreached c Hc). }
  unfold np_argmax_bool.
  destruct (map (fun c => F64.ge c variance_target) (cumsum (first :: rest)))
    as [|b bs] eqn:Emap; [discriminate Emap|].
  rewrite Hfirst. simpl. rewrite Hone. simpl.
  eexists. split; [reflexivity|]. simpl.
  repeat split; try reflexivity.
  inversion Hunreached; assumption.
Qed.

(** X20. The results section of the PCA analyzer needs three retained
    components.  When a refit on [c] components, [c] at most the number of
    components of the full decomposition, reports [c] ratios,
    [generate_results_section] raises IndexError on results of
    [_perform_pca] with fewer than three components, and otherwise reads
    the first three ratios as percentages. *)
Theorem results_section_needs_three_components
  (matrix : Type) (PCA_fit : option nat -> matrix -> result (fitted_pca matrix))
  (variance_target : float) (X_scaled : matrix) (res : pca_results matrix) :
  (forall pca_full c pca,
     PCA_fit None X_scaled = Ok pca_full ->
     c <= length (explained_variance_ratio_ pca_full) ->
     PCA_fit (Some c) X_scaled = Ok pca ->
     length (explained_variance_ratio_ pca) = c) ->
  perform_pca_at PCA_fit variance_target X_scaled = Ok res ->
  length (explained_variance_ratio res) = n_components res
  /\ (n_components res < 3 -> first_three_components res = Raise IndexError)
  /\ (3 <= n_components res ->
      exists r1 r2 r3 rest,
        explained_variance_ratio res = r1 :: r2 :: r3 :: rest
        /\ first_three_components res
           = Ok (PrimFloat.mul r1 100%float, PrimFloat.mul r2 100%float,
                 PrimFloat.mul r3 100%float)).
Proof.
  intros Hrefit Hrun.
  assert (Hlen : length (explained_variance_ratio res) = n_components res).
  { unfold perform_pca_at in Hrun.
    destruct (PCA_fit None X_scaled) as [pca_full|] eqn:Efull; [|discriminate].
    simpl in Hrun.
    destruct (np_argmax_bool _) as [idx|]; [|discriminate]. simpl in Hrun.
    unfold index in Hrun.
    destruct (cumsum (explained_variance_ratio_ pca_full) !! (idx + 1 - 1))
      as [total|] eqn:Etotal; [|discriminate].
    simpl in Hrun. apply lookup_lt_Some in Etotal. rewrite length_cumsum in Etotal.
    destruct (PCA_fit (Some (idx + 1)) X_scaled) as [pca|] eqn:Epca; [|discriminate].
    simpl in Hrun. injection Hrun as <-. simpl.
    apply (Hrefit pca_full _ pca eq_refl); [lia|exact Epca]. }
  split; [exact Hlen|]. unfold first_three_components, top_comp_var.
  destruct (explained_variance_ratio res) as [|r1 [|r2 [|r3 rest]]];
    simpl in Hlen; split; intros Hn; try lia; try reflexivity.
  exists r1, r2, r3, rest. split; reflexivity.
Qed.

Lemma results_section_needs_three_components_witness :
  exists res,
    perform_pca_at Sample.PCA_fit_631 0.5%float Sample.X_three_features = Ok res
    /\ n_components res = 1
    /\ first_three_components res = Raise IndexError.
Proof.
  assert (Hrefit : forall pca_full c pca,
            Sample.PCA_fit_631 None Sample.X_three_features = Ok pca_full ->
            c <= length (explained_variance_ratio_ pca_full) ->
            Sample.PCA_fit_631 (Some c) Sample.X_three_features = Ok pca ->
            length (explained_variance_ratio_ pca) = c).
  { intros pca_full c pca Hfull Hc Hp. simpl in Hfull, Hp.
    injection Hfull as <-. injection Hp as <-. simpl in Hc |- *.
    rewrite length_firstn. unfold Sample.ratios_631 in *. simpl in *. lia. }
  destruct (perform_pca_at Sample.PCA_fit_631 0.5%float Sample.X_three_features)
    as [res|] eqn:Hrun; [|vm_compute in Hrun; discriminate Hrun].
  exists res. split; [reflexivity|].
  destruct (results_section_needs_three_components _ _ _ _ res Hrefit Hrun)
    as (_ & Hfew & _).
  assert (Hone : n_components res = 1)
    by (vm_compute in Hrun; injection Hrun as <-; reflexivity).
  split; [exact Hone|]. apply Hfew. rewrite Hone. lia.
Defined.

(* ====================================================================== *)
(** * Worked examples for the further properties                           *)
(* ====================================================================== *)

Lemma preprocess_data_keeps_target_complete_rows_witness :
  exists (df_processed : DataFrame) (mask : list bool),
    preprocess_data Sample.df_small None = Ok df_processed
    /\ columns df_processed = ["H_temp_lag_1"; "R_lag_1"; "pos"; "egg"]%string
    /\ length mask = 3
    /\ dict_get df_processed "pos" = Some [0.5; 0.25]%float.
Proof.
  destruct (preprocess_data_keeps_target_complete_rows Sample.df_small 3)
    as (dfp & mask & Hrun & Hcols & Hlen & _).
  { repeat constructor. }
  exists dfp, mask. split; [exact Hrun|]. split; [exact Hcols|].
  split; [exact Hlen|].
  vm_compute in Hrun. injection Hrun as <-. reflexivity.
Defined.

Lemma preprocess_data_idempotent_witness :
  preprocess_data Sample.df_small None = Ok Sample.df_small_processed
  /\ preprocess_data Sample.df_small_processed None
     = Ok Sample.df_small_processed.
Proof.
  assert (Hrun : preprocess_data Sample.df_small None
                 = Ok Sample.df_small_processed) by (vm_compute; reflexivity).
  split; [exact Hrun|].
  apply (preprocess_data_idempotent Sample.df_small _ 3);
    [repeat constructor|exact Hrun].
Defined.

Lemma lag_columns_are_grouped_features_witness :
  In "H_temp_lag_3"%string (get_feature_columns Sample.df_lags false)
  /\ In "H_temp_lag_3"%string (temperature (get_feature_groups Sample.df_lags)).
Proof.
  apply (lag_columns_are_grouped_features Sample.df_lags "H_temp" "simple"
           "H_temp_lag_3").
  - left. reflexivity.
  - vm_compute. do 2 right. left. reflexivity.
Defined.

Lemma configured_patterns_give_a_column_per_week_witness :
  length (get_lag_features Sample.df_configured "NDVImean" "rolling") = 12
  /\ exists col, lag_column Sample.df_configured "NDVImean" "rolling" 3 = [col].
Proof.
  destruct (configured_patterns_give_a_column_per_week
              Sample.df_configured "NDVImean" "rolling")
    as (_ & Hweek & Hlen & _).
  - do 4 right. left. reflexivity.
  - right. left. reflexivity.
  - intros c Hc. unfold Sample.df_configured, columns, keys.
    rewrite map_app, map_map. apply in_or_app. left.
    apply in_map_iff. exists c. split; [reflexivity|exact Hc].
  - split; [exact Hlen|]. apply Hweek. do 2 right. left. reflexivity.
Defined.

Lemma analyze_target_counts_unobserved_features_witness :
  exists stats,
    analyze_target Sample.spearmanr_const Sample.pearsonr_const Sample.df_small
      ["H_temp_lag_1"; "R_lag_1"]%string "pos"
    = Ok (PrimFloat.div 0.05%float 2%float, stats)
    /\ keys (ts_p_values stats) = ["H_temp_lag_1"; "R_lag_1"]%string
    /\ ts_significant stats !! 1 = Some false.
Proof.
  destruct (analyze_target_counts_unobserved_features
              Sample.spearmanr_const Sample.pearsonr_const Sample.df_small
              "pos" [0.5; 0.25; F64.nan]%float) as [_ H].
  { repeat (constructor; [simpl; intuition discriminate|]). constructor. }
  { reflexivity. }
  destruct H as (stats & Hrun & _ & Hkeys & _ & _ & Hun).
  { vm_compute. discriminate. }
  exists stats. split; [exact Hrun|]. split; [exact Hkeys|].
  apply (Hun 1 "R_lag_1"%string [F64.nan; F64.nan; F64.nan]%float); reflexivity.
Defined.

Lemma get_top_correlations_lists_the_most_extreme_witness :
  exists top_positive top_negative,
    _get_top_correlations insertion_sort Sample.correlations_four
      Sample.p_values_four 1
    = Ok (top_positive, top_negative)
    /\ map cr_feature top_positive = ["A"]%string
    /\ map cr_feature top_negative = ["B"]%string.
Proof.
  destruct (get_top_correlations_lists_the_most_extreme insertion_sort
              Sample.correlations_four Sample.p_values_four 1
              insertion_sort_sorts eq_refl) as (tp & tn & Hrun & _).
  exists tp, tn. split; [exact Hrun|].
  vm_compute in Hrun. injection Hrun as <- <-. split; reflexivity.
Defined.

Lemma analyze_raises_when_a_top_table_is_empty_witness :
  get_feature_columns Sample.df_falling false = ["H_temp_lag_1"; "R_lag_1"]%string
  /\ analyze Sample.spearmanr_monotone Sample.pearsonr_const
       (report_tables_of insertion_sort Sample.no_figures) Sample.df_falling
     = Raise IndexError.
Proof.
  split; [reflexivity|].
  apply (analyze_raises_when_a_top_table_is_empty
           Sample.spearmanr_monotone Sample.pearsonr_const insertion_sort
           unit Sample.no_figures Sample.df_falling "pos"
           [0.1; 0.2; 0.3; 0.4]%float).
  - exact insertion_sort_sorts.
  - reflexivity.
  - reflexivity.
  - discriminate.
  - left. intros f xs [<-|[<-|[]]] Hxs _; injection Hxs as <-; reflexivity.
Defined.

Lemma df_clean_keeps_the_complete_rows_witness :
  exists clean,
    df_clean Sample.df_small = Ok clean
    /\ columns clean = ["H_temp_lag_1"; "R_lag_1"; "pos"; "egg"]%string
    /\ dict_get clean "egg" = Some [].
Proof.
  destruct (df_clean_keeps_the_complete_rows Sample.df_small 3) as [_ H].
  { repeat constructor. }
  destruct H as (clean & mask & Hrun & Hcols & _).
  { intros target [<-|[<-|[]]]; vm_compute; auto 10. }
  exists clean. split; [exact Hrun|]. split; [exact Hcols|].
  vm_compute in Hrun. injection Hrun as <-. reflexivity.
Defined.

Lemma cluster_profile_summarises_the_tested_group_witness :
  exists char,
    _analyze_cluster_characteristics Sample.size_of Sample.size_of Sample.size_of
      Sample.df_two_clusters 2 !! 1 = Some char
    /\ dict_get (cc_stats char) "pos_mean" = Some 2%float
    /\ cc_n_samples char = 3.
Proof.
  destruct (cluster_profile_summarises_the_tested_group
              Sample.size_of Sample.size_of Sample.size_of
              Sample.df_two_clusters 2 1 "pos"
              [0.5; F64.nan; F64.nan; 0.25; 0.75]%float)
    as (char & group & Hchar & Hgroup & _ & Hmean & _).
  - lia.
  - left. reflexivity.
  - reflexivity.
  - exists char. split; [exact Hchar|].
    vm_compute in Hgroup. injection Hgroup as <-.
    split; [exact Hmean|].
    vm_compute in Hchar. injection Hchar as <-. reflexivity.
Defined.

Lemma perform_pca_keeps_one_component_when_target_unreached_witness :
  exists res,
    perform_pca_at Sample.PCA_fit_631 1%float Sample.X_three_features = Ok res
    /\ n_components res = 1
    /\ total_variance_explained res = 0.6%float.
Proof.
  destruct (perform_pca_keeps_one_component_when_target_unreached
              (list (list float)) Sample.PCA_fit_631 Sample.X_three_features
              (mk_fitted_pca _ Sample.ratios_631 Sample.X_three_features)
              (mk_fitted_pca _ (firstn 1 Sample.ratios_631)
                 (map (firstn 1) Sample.X_three_features))
              1%float 0.6%float [0.3; 0.1]%float eq_refl eq_refl eq_refl)
    as (res & Hrun & Hn & Ht & _).
  { vm_compute. repeat constructor. }
  exists res. auto.
Defined.

Lemma analyze_lag_features_has_a_full_row_per_variable_witness :
  exists table,
    _analyze_lag_features Sample.spearmanr_const Sample.df_lags "pos" "simple"
    = Ok table
    /\ map lr_variable table = ["H_temp"]%string.
Proof.
  destruct (analyze_lag_features_has_a_full_row_per_variable
              Sample.spearmanr_const Sample.df_lags "pos" "simple")
    as (table & Hrun & Hvars & _).
  { eexists. vm_compute. reflexivity. }
  exists table. split; [exact Hrun|exact Hvars].
Defined.

Lemma lag_analyze_raises_without_rolling_columns_witness :
  lag_rolling_analyzer.analyze Sample.spearmanr_const unit Sample.no_lag_figures
    Sample.df_lags
  = Raise KeyError.
Proof.
  apply lag_analyze_raises_without_rolling_columns.
  - exists "pos"%string. split; [left; reflexivity|].
    vm_compute. do 12 right. left. reflexivity.
  - exists "H_temp"%string. split; [left; reflexivity|]. vm_compute. discriminate.
  - intros variable Hv. unfold config.LAG_VARIABLES in Hv. simpl in Hv.
    repeat (destruct Hv as [<-|Hv]; [vm_compute; reflexivity|]). destruct Hv.
Defined.

Lemma lag_target_tables_are_produced_witness :
  exists tables,
    lag_rolling_analyzer.target_tables Sample.spearmanr_const
      Sample.df_lags_rolling "pos" = Ok tables
    /\ map ol_variable (optimal_lags tables) = ["H_temp"]%string.
Proof.
  destruct (lag_target_tables_are_produced Sample.spearmanr_const
              Sample.df_lags_rolling "pos")
    as (tables & Hrun & Hs & _ & Ho & _).
  { eexists. vm_compute. reflexivity. }
  { left. exists "H_temp"%string. split; [left; reflexivity|].
    vm_compute. discriminate. }
  exists tables. split; [exact Hrun|]. rewrite Ho. exact Hs.
Defined.

Lemma supplied_city_results_two :
  supplied Sample.city_results_two "pos"
  = [("Taipei",
      ([("A", 0.5); ("B", -0.4); ("C", 0.1)],
       [("A", 0.0001); ("B", 0.0002); ("C", 0.5)]));
     ("Kaohsiung",
      ([("A", -0.6); ("B", 0.4); ("C", 0.35)],
       [("A", 0.0001); ("B", 0.02); ("C", 0.0005)]))]%float%string.
Proof. reflexivity. Qed.

Lemma universal_predictors_are_city_specific_below_three_cities_witness :
  exists u' c' universal city_specific,
    identify_target Sample.city_results_two "pos" ([], []) = Ok (u', c')
    /\ dict_get u' "pos" = Some universal
    /\ dict_get c' "pos" = Some city_specific
    /\ "A"%string ∈ universal
    /\ city_specific !! "A"%string = Some ["Taipei"; "Kaohsiung"]%string.
Proof.
  destruct (identify_target_returns Sample.city_results_two "pos" ([], []))
    as [[u' c'] Hrun].
  { intros ck analyses stat_res Hck Ha Hs Hc.
    unfold config.CITY_ORDER in Hck. simpl in Hck.
    destruct Hck as [<-|[<-|[<-|[<-|[]]]]];
      vm_compute in Ha; try discriminate Ha; injection Ha as <-;
      vm_compute in Hs; injection Hs as <-; eexists; reflexivity. }
  destruct (universal_predictors_are_city_specific_below_three_cities
              Sample.city_results_two "pos" [] u' [] c' Hrun)
    as (universal & city_specific & Hu & Hc & Hfew & _).
  { rewrite supplied_city_results_two. discriminate. }
  assert (HA : "A"%string ∈ universal).
  { apply identify_target_Ok in Hrun
      as [(Hnil & _)|(first & others & Hv & -> & _)].
    { rewrite supplied_city_results_two in Hnil. discriminate Hnil. }
    rewrite dict_get_set, String.eqb_refl in Hu. injection Hu as <-.
    rewrite supplied_city_results_two in Hv. simpl in Hv.
    injection Hv as <- <-.
    apply set_intersection_spec. split; [set_solver|].
    intros s [<-|[]]. set_solver. }
  exists u', c', universal, city_specific.
  split; [exact Hrun|]. split; [exact Hu|]. split; [exact Hc|].
  split; [exact HA|].
  rewrite (Hfew ltac:(rewrite supplied_city_results_two; simpl; lia) "A"%string HA).
  now rewrite supplied_city_results_two.
Defined.

Lemma save_city_outputs_writes_the_latest_results_witness :
  exists all_results self',
    analyze_all_cities Sample.analyze_width Sample.two_city_frames
      (new_analyzer "statistical")
    = (Ok all_results, self')
    /\ dict_get all_results "taipei" = Some 5
    /\ save_city_outputs Sample.write_pair "output" self' "taipei"
       = Ok (3, ["output"; "taipei"; "statistical"]%string).
Proof.
  destruct (analyze_all_cities Sample.analyze_width Sample.two_city_frames
              (new_analyzer "statistical")) as [[all|e] self'] eqn:Hrun.
  2: { vm_compute in Hrun. discriminate Hrun. }
  exists all, self'. split; [reflexivity|].
  destruct (save_city_outputs_writes_the_latest_results
              nat (nat * list string) Sample.analyze_width Sample.write_pair
              "output" "statistical" "statistical"
              [("taipei", Sample.df_small)]%string "tainan" Sample.df_no_features
              all self' eq_refl Hrun)
    as (latest & Hl & _ & _ & _ & Hsave & _).
  destruct (Hsave "taipei"%string) as (city_name & Hn & Hs).
  { left. reflexivity. }
  vm_compute in Hl. injection Hl as <-.
  vm_compute in Hn. injection Hn as <-.
  split; [|rewrite Hs; reflexivity].
  vm_compute in Hrun. injection Hrun as <- _. reflexivity.
Defined.
